(** * OnionForge calculator: expression engine and interaction state machine

    A shallow embedding of [src/assets/js/calculator.js]: the five
    operations, [CalculationEngine] (validation, tokenizer, shunting yard,
    RPN evaluation, result rounding), [CalculatorState] and the dispatch
    of keys and buttons in [CalculatorUIController].

    JavaScript numbers are IEEE-754 binary64 values; they are modelled by
    [spec_float] with [prec = 53] and [emax = 1024], whose operations are
    computable over [Z].  JavaScript strings are modelled by [string], one
    [ascii] per UTF-16 code unit in the range U+0000..U+00FF. *)

From Stdlib Require Import ZArith List String Ascii Bool Lia.
From Stdlib Require Import QArith Qround.
From Stdlib Require Import SpecFloat.
From Stdlib Require Import Permutation.
Import ListNotations.

Local Open Scope string_scope.
Local Open Scope Z_scope.

(** ** Strings as the engine uses them *)

Definition code (c : ascii) : N := N_of_ascii c.

(** [/[0-9]/] *)
Definition isDigitChar (c : ascii) : bool :=
  (48 <=? code c)%N && (code c <=? 57)%N.

Definition digitValue (c : ascii) : Z := Z.of_N (code c) - 48.

(** The class [\s] restricted to code units below U+0100: TAB, LF, VT, FF,
    CR, SPACE and NO-BREAK SPACE.  The same set is the white space that
    [Number(...)] and [parseFloat] strip. *)
Definition isWhiteSpace (c : ascii) : bool :=
  let n := code c in
  ((9 <=? n)%N && (n <=? 13)%N) || (n =? 32)%N || (n =? 160)%N.

Fixpoint trimStart (s : string) : string :=
  match s with
  | String c r => if isWhiteSpace c then trimStart r else s
  | EmptyString => s
  end.

Fixpoint rev_string (s acc : string) : string :=
  match s with
  | String c r => rev_string r (String c acc)
  | EmptyString => acc
  end.

Definition trim (s : string) : string :=
  rev_string (trimStart (rev_string (trimStart s) "")) "".

(** ASCII lower-casing, for the [/i] flag of the denylist patterns. *)
Definition toLower (c : ascii) : ascii :=
  let n := code c in
  if (65 <=? n)%N && (n <=? 90)%N then ascii_of_N (n + 32) else c.

(** Every character of the string passes the test. *)
Fixpoint allChars (f : ascii -> bool) (s : string) : bool :=
  match s with
  | String c r => f c && allChars f r
  | EmptyString => true
  end.

Fixpoint repeat_char (c : ascii) (n : nat) : string :=
  match n with
  | O => ""
  | S k => String c (repeat_char c k)
  end.

(** ** Numbers: IEEE-754 binary64 *)

Definition number : Type := spec_float.

Definition prec : Z := 53.
Definition emax : Z := 1024.

Definition NaN : number := S754_nan.
Definition Infinity : number := S754_infinity false.
Definition NegInfinity : number := S754_infinity true.

(** The nearest binary64 value of an integer (ties to even). *)
Definition ofZ (z : Z) : number := binary_normalize prec emax z 0 false.

(** The nearest binary64 value of the decimal numeral [m / 10^scale], as a
    numeric literal or [parseFloat] denote it. *)
Definition ofDecimal (m : Z) (scale : nat) : number :=
  match m with
  | Zpos p =>
      SFdiv prec emax (S754_finite false p 0)
            (S754_finite false (Z.to_pos (10 ^ Z.of_nat scale)) 0)
  | _ => S754_zero false
  end.

Definition num_add : number -> number -> number := SFadd prec emax.
Definition num_sub : number -> number -> number := SFsub prec emax.
Definition num_mul : number -> number -> number := SFmul prec emax.
Definition num_div : number -> number -> number := SFdiv prec emax.

(** [a % b]: the remainder has the sign of the dividend and is exact. *)
Definition num_rem (a b : number) : number :=
  match a, b with
  | S754_nan, _ | _, S754_nan => S754_nan
  | S754_infinity _, _ => S754_nan
  | _, S754_zero _ => S754_nan
  | _, S754_infinity _ => a
  | S754_zero _, _ => a
  | S754_finite sa ma ea, S754_finite _ mb eb =>
      let e := Z.min ea eb in
      let x := Z.shiftl (Zpos ma) (ea - e) in
      let y := Z.shiftl (Zpos mb) (eb - e) in
      binary_normalize prec emax (cond_Zopp sa (x mod y)) e sa
  end.

(** [a === b] on numbers. *)
Definition num_eqb (a b : number) : bool := SFeqb a b.
(** [a < b] on numbers. *)
Definition num_ltb (a b : number) : bool := SFltb a b.

Definition Number_isFinite (x : number) : bool :=
  match x with
  | S754_zero _ | S754_finite _ _ _ => true
  | _ => false
  end.

Definition Number_isNaN (x : number) : bool :=
  match x with
  | S754_nan => true
  | _ => false
  end.

Module Math.

Definition abs (x : number) : number := SFabs x.

(** [Math.round]: the nearest integer, ties towards +Infinity; the sign of
    a zero result is the sign of the argument. *)
Definition round (x : number) : number :=
  match x with
  | S754_finite s m e =>
      if 0 <=? e then x
      else
        let k := - e in
        let n := (2 * cond_Zopp s (Zpos m) + 2 ^ k) / 2 ^ (k + 1) in
        if n =? 0 then S754_zero s else ofZ n
  | _ => x
  end.

End Math.

(** *** Number to string

    [Number::toString] with radix 10: the shortest digit string [s] and
    the exponent [n] with [s * 10^(n-k)] reading back as the same number,
    then the layout chosen by [n]. *)

Definition pow2Q (e : Z) : Q :=
  if 0 <=? e then inject_Z (2 ^ e) else Qmake 1 (Z.to_pos (2 ^ (- e))).

Definition pow10Q (e : Z) : Q :=
  if 0 <=? e then inject_Z (10 ^ e) else Qmake 1 (Z.to_pos (10 ^ (- e))).

Definition Qltb (a b : Q) : bool :=
  match Qcompare a b with Lt => true | _ => false end.

Definition Qleb (a b : Q) : bool :=
  match Qcompare a b with Gt => false | _ => true end.

(** The exact value of a positive finite float. *)
Definition valueQ (m : positive) (e : Z) : Q :=
  Qmult (inject_Z (Zpos m)) (pow2Q e).

(** The reals that round to [m * 2^e] lie between [lowQ] and [highQ]; the
    ends belong to the interval when the mantissa is even. *)
Definition lowQ (m : positive) (e : Z) : Q :=
  if (Zpos m =? 2 ^ (prec - 1)) && (3 - emax - prec <? e)
  then Qminus (valueQ m e) (pow2Q (e - 2))
  else Qminus (valueQ m e) (pow2Q (e - 1)).

Definition highQ (m : positive) (e : Z) : Q :=
  Qplus (valueQ m e) (pow2Q (e - 1)).

Definition readsBack (m : positive) (e : Z) (v : Q) : bool :=
  if Z.even (Zpos m)
  then Qleb (lowQ m e) v && Qleb v (highQ m e)
  else Qltb (lowQ m e) v && Qltb v (highQ m e).

(** The [n] with [10^(n-1) <= x < 10^n], found from a base-2 estimate. *)
Fixpoint adjustExp10 (fuel : nat) (x : Q) (n : Z) : Z :=
  match fuel with
  | O => n
  | S f =>
      if Qltb x (pow10Q (n - 1)) then adjustExp10 f x (n - 1)
      else if Qleb (pow10Q n) x then adjustExp10 f x (n + 1)
      else n
  end.

Definition exp10 (m : positive) (e : Z) : Z :=
  adjustExp10 8 (valueQ m e) (((Z.log2 (Zpos m) + e) * 1233) / 4096 + 1).

(** Candidates with [k] digits: the multiples of [10^(n0-k)] just below
    and just above [x]; the closer one that reads back wins, the even one
    on a tie. *)
Definition candidate (m : positive) (e n0 k : Z) : option (Z * Z) :=
  let x := valueQ m e in
  let p := n0 - k in
  let s := Qfloor (Qmult x (pow10Q (- p))) in
  let below := Qmult (inject_Z s) (pow10Q p) in
  let above := Qmult (inject_Z (s + 1)) (pow10Q p) in
  match readsBack m e below, readsBack m e above with
  | true, false => Some (s, p)
  | false, true => Some (s + 1, p)
  | true, true =>
      match Qcompare (Qminus x below) (Qminus above x) with
      | Lt => Some (s, p)
      | Gt => Some (s + 1, p)
      | Eq => Some (if Z.even s then s else s + 1, p)
      end
  | false, false => None
  end.

Fixpoint shortest (fuel : nat) (m : positive) (e n0 k : Z) : Z * Z :=
  match fuel with
  | O => (Qfloor (Qmult (valueQ m e) (pow10Q (- (n0 - k)))), n0 - k)
  | S f =>
      match candidate m e n0 k with
      | Some r => r
      | None => shortest f m e n0 (k + 1)
      end
  end.

Fixpoint stripZeros (fuel : nat) (s p : Z) : Z * Z :=
  match fuel with
  | O => (s, p)
  | S f => if (s mod 10 =? 0) && (0 <? s) then stripZeros f (s / 10) (p + 1)
           else (s, p)
  end.

Definition digitChar (d : Z) : ascii := ascii_of_N (Z.to_N (48 + d)).

Fixpoint digitsFuel (fuel : nat) (n : Z) (acc : string) : string :=
  match fuel with
  | O => acc
  | S f =>
      let acc' := String (digitChar (n mod 10)) acc in
      if n <? 10 then acc' else digitsFuel f (n / 10) acc'
  end.

(** The decimal digits of a natural number. *)
Definition digitsOfZ (n : Z) : string :=
  digitsFuel (S (Z.to_nat (Z.log2 n))) n "".

Definition layout (ds : string) (n : Z) : string :=
  let k := Z.of_nat (String.length ds) in
  if (k <=? n) && (n <=? 21) then
    ds ++ repeat_char "0" (Z.to_nat (n - k))
  else if (0 <? n) && (n <=? 21) then
    substring 0 (Z.to_nat n) ds ++ "." ++
    substring (Z.to_nat n) (Z.to_nat (k - n)) ds
  else if (-6 <? n) && (n <=? 0) then
    "0." ++ repeat_char "0" (Z.to_nat (- n)) ++ ds
  else
    let ex := n - 1 in
    let sign := if 0 <=? ex then "+" else "-" in
    let mant :=
      match ds with
      | String d EmptyString => ds
      | String d rest => String d ("." ++ rest)
      | EmptyString => ds
      end in
    mant ++ "e" ++ sign ++ digitsOfZ (Z.abs ex).

Definition positiveToString (m : positive) (e : Z) : string :=
  let '(s, p) := shortest 17 m e (exp10 m e) 1 in
  let '(s', p') := stripZeros 400 s p in
  let ds := digitsOfZ s' in
  layout ds (p' + Z.of_nat (String.length ds)).

Definition Number_toString (x : number) : string :=
  match x with
  | S754_nan => "NaN"
  | S754_zero _ => "0"
  | S754_infinity s => if s then "-Infinity" else "Infinity"
  | S754_finite s m e =>
      (if s then "-" else "") ++ positiveToString m e
  end.

(** *** Strings to numbers *)

Fixpoint readDigits (s : string) (acc : Z) (cnt : nat) : Z * nat * string :=
  match s with
  | String c r =>
      if isDigitChar c then readDigits r (10 * acc + digitValue c) (S cnt)
      else (acc, cnt, s)
  | EmptyString => (acc, cnt, s)
  end.

(** The longest prefix of the form [digits], [digits.], [digits.digits] or
    [.digits], with its value and the rest of the string. *)
Definition readDecimal (s : string) : option (number * string) :=
  let '(i, ni, r1) := readDigits s 0 0 in
  match r1 with
  | String "." r2 =>
      let '(m, nf, r3) := readDigits r2 i 0 in
      if (ni + nf =? 0)%nat then None else Some (ofDecimal m nf, r3)
  | _ => if (ni =? 0)%nat then None else Some (ofDecimal i 0, r1)
  end.

(** [parseFloat(token)] for the tokens of [_tokenizeExpression]: a token
    is a run of digits and dots or one other character, so no sign,
    exponent or [Infinity] can occur in it. *)
Definition parseFloat (s : string) : number :=
  match readDecimal (trimStart s) with
  | Some (v, _) => v
  | None => NaN
  end.

(** [Number(token)], the coercion inside [isNaN] and [isFinite], on the
    same tokens: white space alone is [0], a complete decimal numeral is
    its value, anything else is [NaN]. *)
Definition ToNumber (s : string) : number :=
  match trim s with
  | EmptyString => S754_zero false
  | t =>
      match readDecimal t with
      | Some (v, EmptyString) => v
      | _ => NaN
      end
  end.

Definition isNaN (s : string) : bool := Number_isNaN (ToNumber s).
Definition isFinite (s : string) : bool := Number_isFinite (ToNumber s).

(** [parseInt(x)] of a number [x]: [x] is converted to a string, then an
    optional sign and the leading decimal digits are read. *)
Definition parseIntString (s : string) : number :=
  let t := trimStart s in
  let '(neg, body) :=
    match t with
    | String c r =>
        if Ascii.eqb c "-" then (true, r)
        else if Ascii.eqb c "+" then (false, r)
        else (false, t)
    | EmptyString => (false, t)
    end in
  let '(v, n, _) := readDigits body 0 0 in
  if (n =? 0)%nat then NaN
  else if v =? 0 then S754_zero neg
  else ofZ (cond_Zopp neg v).

Definition parseInt (x : number) : number :=
  parseIntString (Number_toString x).

(** ** 1. Configuration and constants *)

Definition MAX_DISPLAY_LENGTH : nat := 16.
Definition MAX_DECIMAL_PLACES : Z := 10.
Definition DEFAULT_DISPLAY_VALUE : string := "0".
Definition ERROR_MESSAGE : string := "Error".
Definition OPERATORS : list string := ["+"; "-"; "*"; "/"; "%"].
Definition DECIMAL : string := ".".

(** ** 2. Errors *)

Inductive ERROR_TYPES : Type :=
| DIVISION_BY_ZERO
| INVALID_INPUT
| OVERFLOW
| UNDERFLOW
| SYNTAX_ERROR.

Record CalculatorError : Type := mkError {
  message : string;
  type : ERROR_TYPES
}.

(** A call either returns a value or throws a [CalculatorError]. *)
Inductive result (A : Type) : Type :=
| Return (a : A)
| Throw (e : CalculatorError).

Arguments Return {A} a.
Arguments Throw {A} e.

Definition bind {A B : Type} (r : result A) (k : A -> result B) : result B :=
  match r with
  | Return a => k a
  | Throw e => Throw e
  end.

Notation "x <- r ;; k" := (bind r (fun x => k))
  (at level 61, r at next level, right associativity).

(** [fails r t]: the call threw an error of kind [t]. *)
Definition fails {A : Type} (r : result A) (t : ERROR_TYPES) : Prop :=
  exists e, r = Throw e /\ type e = t.

(** ** 3-4. Operations *)

Record Operation : Type := mkOperation {
  symbol : string;
  precedence : Z;
  execute : number -> number -> result number
}.

Definition zero : number := S754_zero false.

Definition AdditionOperation : Operation :=
  mkOperation "+" 1 (fun a b => Return (num_add a b)).

Definition SubtractionOperation : Operation :=
  mkOperation "-" 1 (fun a b => Return (num_sub a b)).

Definition MultiplicationOperation : Operation :=
  mkOperation "*" 2 (fun a b => Return (num_mul a b)).

Definition DivisionOperation : Operation :=
  mkOperation "/" 2 (fun a b =>
    if num_eqb b zero
    then Throw (mkError "Division by zero is not allowed" DIVISION_BY_ZERO)
    else Return (num_div a b)).

Definition ModuloOperation : Operation :=
  mkOperation "%" 2 (fun a b =>
    if num_eqb b zero
    then Throw (mkError "Modulo by zero is not allowed" DIVISION_BY_ZERO)
    else Return (num_rem a b)).

(** ** 5. Operation factory *)

Module OperationFactory.

(** [createOperation] is only ever called on a token for which
    [isOperator] holds, so the lookup table is modelled on its five own
    keys. *)
Definition createOperation (sym : string) : result Operation :=
  if (sym =? "+")%string then Return AdditionOperation
  else if (sym =? "-")%string then Return SubtractionOperation
  else if (sym =? "*")%string then Return MultiplicationOperation
  else if (sym =? "/")%string then Return DivisionOperation
  else if (sym =? "%")%string then Return ModuloOperation
  else Throw (mkError ("Invalid operator: " ++ sym) INVALID_INPUT).

Definition isOperator (sym : string) : bool :=
  existsb (String.eqb sym) OPERATORS.

End OperationFactory.

Import OperationFactory.

(** ** 6. Calculation engine *)

(** The argument of [calculate] is any JavaScript value; only its being a
    string or not matters to the engine. *)
Inductive value : Type :=
| VString (s : string)
| VNumber (n : number)
| VBoolean (b : bool)
| VNull
| VUndefined
| VObject.

Module CalculationEngine.

(** *** Validation *)

(** One element of a denylist pattern: a literal character, compared
    without case, or [\s+]. *)
Inductive patternItem : Type :=
| Lit (c : ascii)
| Spaces.

Fixpoint literal (s : string) : list patternItem :=
  match s with
  | String c r => Lit c :: literal r
  | EmptyString => []
  end.

Definition dangerousPatterns : list (list patternItem) :=
  [ literal "eval(";
    literal "function(";
    (literal "new" ++ Spaces :: literal "Function")%list;
    literal ".constructor";
    literal "__proto__";
    literal "process.";
    literal "require(";
    literal "import(" ].

(** Does the pattern match at the start of [s]?  The character after
    [\s+] is never white space, so skipping all of it loses no match. *)
Fixpoint matchesHere (p : list patternItem) (s : string) : bool :=
  match p with
  | [] => true
  | Lit c :: p' =>
      match s with
      | String d r => Ascii.eqb (toLower d) (toLower c) && matchesHere p' r
      | EmptyString => false
      end
  | Spaces :: p' =>
      match s with
      | String d r => isWhiteSpace d && matchesHere p' (trimStart r)
      | EmptyString => false
      end
  end.

(** [pattern.test(expression)] *)
Fixpoint test (p : list patternItem) (s : string) : bool :=
  matchesHere p s ||
  match s with
  | String _ r => test p r
  | EmptyString => false
  end.

(** The class [[0-9+\-*\/%.()\s]]. *)
Definition validChar (c : ascii) : bool :=
  isDigitChar c ||
  existsb (Ascii.eqb c) ["+"; "-"; "*"; "/"; "%"; "."; "("; ")"]%char ||
  isWhiteSpace c.

(** [/^[0-9+\-*\/%.()\s]+$/] *)
Definition validChars (s : string) : bool :=
  negb (s =? "")%string && allChars validChar s.

(** The loop over the characters that keeps the parenthesis balance and
    leaves as soon as it is negative. *)
Fixpoint balanceLoop (s : string) (balance : Z) : Z :=
  match s with
  | EmptyString => balance
  | String c r =>
      let b1 := if Ascii.eqb c "(" then balance + 1 else balance in
      let b2 := if Ascii.eqb c ")" then b1 - 1 else b1 in
      if b2 <? 0 then b2 else balanceLoop r b2
  end.

(** [_validateExpression]: returns the string when every check passes. *)
Definition _validateExpression (expression : value) : result string :=
  match expression with
  | VString s =>
      if (String.length s =? 0)%nat then
        Throw (mkError "Expression cannot be empty" INVALID_INPUT)
      else if existsb (fun p => test p s) dangerousPatterns then
        Throw (mkError "Invalid expression pattern detected" INVALID_INPUT)
      else if negb (validChars s) then
        Throw (mkError "Expression contains invalid characters" INVALID_INPUT)
      else if negb (balanceLoop s 0 =? 0) then
        Throw (mkError "Mismatched parentheses" SYNTAX_ERROR)
      else Return s
  | _ => Throw (mkError "Expression must be a string" INVALID_INPUT)
  end.

(** *** Tokenizer *)

Definition _isDigit (c : ascii) : bool := isDigitChar c.

Definition pushToken (tokens : list string) (t : string) : list string :=
  (tokens ++ [t])%list.

Definition flushNumber (tokens : list string) (currentNumber : string)
  : list string :=
  if (currentNumber =? "")%string then tokens else pushToken tokens currentNumber.

Fixpoint tokenizeLoop (s currentNumber : string) (tokens : list string)
  : list string :=
  match s with
  | EmptyString => flushNumber tokens currentNumber
  | String c r =>
      if _isDigit c || Ascii.eqb c "." then
        tokenizeLoop r (currentNumber ++ String c "") tokens
      else
        let tokens1 := flushNumber tokens currentNumber in
        let tokens2 :=
          if Ascii.eqb c " " then tokens1
          else pushToken tokens1 (String c "") in
        tokenizeLoop r "" tokens2
  end.

Definition _tokenizeExpression (expression : string) : list string :=
  tokenizeLoop expression "" [].

(** [_isNumber(token)]: [!isNaN(token) && isFinite(token)] *)
Definition _isNumber (token : string) : bool :=
  negb (isNaN token) && isFinite token.

(** *** Shunting yard *)

(** An element of the output array: a number or a symbol. *)
Inductive rpnItem : Type :=
| RNumber (n : number)
| RSymbol (s : string).

(** The operator stack is a list whose head is the top of the stack. *)
Fixpoint popHigher (op1 : Operation) (operators : list string)
  (output : list rpnItem) : result (list string * list rpnItem) :=
  match operators with
  | [] => Return (operators, output)
  | top :: rest =>
      if (top =? "(")%string || negb (isOperator top)
      then Return (operators, output)
      else
        op2 <- createOperation top ;;
        if precedence op2 >? precedence op1
        then popHigher op1 rest (output ++ [RSymbol top])%list
        else Return (operators, output)
  end.

Fixpoint popToParen (operators : list string) (output : list rpnItem)
  : list string * list rpnItem :=
  match operators with
  | [] => (operators, output)
  | top :: rest =>
      if (top =? "(")%string then (operators, output)
      else popToParen rest (output ++ [RSymbol top])%list
  end.

(** The body of the loop over the tokens. *)
Definition shuntToken (token : string) (st : list string * list rpnItem)
  : result (list string * list rpnItem) :=
  let '(operators, output) := st in
  if _isNumber token then
    Return (operators, (output ++ [RNumber (parseFloat token)])%list)
  else if isOperator token then
    op1 <- createOperation token ;;
    r <- popHigher op1 operators output ;;
    Return (token :: fst r, snd r)
  else if (token =? "(")%string then
    Return (token :: operators, output)
  else if (token =? ")")%string then
    let '(operators', output') := popToParen operators output in
    Return (tl operators', output')
  else Return (operators, output).

Fixpoint shuntLoop (tokens : list string) (st : list string * list rpnItem)
  : result (list string * list rpnItem) :=
  match tokens with
  | [] => Return st
  | token :: rest => st' <- shuntToken token st ;; shuntLoop rest st'
  end.

Definition _toReversePolishNotation (expression : string)
  : result (list rpnItem) :=
  let tokens := _tokenizeExpression expression in
  st <- shuntLoop tokens ([], []) ;;
  Return (snd st ++ map RSymbol (fst st))%list.

(** *** RPN evaluation *)

Definition multiplier : number := ofZ (10 ^ MAX_DECIMAL_PLACES).

(** The literal [1e-10]. *)
Definition tiny : number := ofDecimal 1 10.

Definition one : number := ofZ 1.

Definition _roundResult (n : number) : number :=
  if num_ltb (Math.abs n) tiny then zero
  else
    let rounded := num_div (Math.round (num_mul n multiplier)) multiplier in
    if num_eqb (num_rem rounded one) zero then parseInt rounded else rounded.

(** The body of the loop over the RPN array; the head of [stack] is the
    top of the stack. *)
Definition evalToken (token : rpnItem) (stack : list number)
  : result (list number) :=
  match token with
  | RNumber n => Return (n :: stack)
  | RSymbol s =>
      if isOperator s then
        match stack with
        | b :: a :: stack' =>
            operation <- createOperation s ;;
            r <- execute operation a b ;;
            if negb (Number_isFinite r) then
              if num_eqb r Infinity || num_eqb r NegInfinity
              then Throw (mkError "Numerical overflow" OVERFLOW)
              else Throw (mkError "Invalid numerical result" SYNTAX_ERROR)
            else Return (r :: stack')
        | _ => Throw (mkError "Insufficient operands" SYNTAX_ERROR)
        end
      else Return stack
  end.

Fixpoint evalLoop (rpn : list rpnItem) (stack : list number)
  : result (list number) :=
  match rpn with
  | [] => Return stack
  | token :: rest => stack' <- evalToken token stack ;; evalLoop rest stack'
  end.

(** The value on the stack at the end, before rounding. *)
Definition rawResult (rpn : list rpnItem) : result number :=
  stack <- evalLoop rpn [] ;;
  match stack with
  | [r] => Return r
  | _ => Throw (mkError "Invalid expression format" SYNTAX_ERROR)
  end.

Definition _evaluateRPN (rpn : list rpnItem) : result number :=
  r <- rawResult rpn ;; Return (_roundResult r).

(** [calculate(expression)]; every exception raised inside is a
    [CalculatorError], which the handler throws again unchanged. *)
Definition calculate (expression : value) : result number :=
  s <- _validateExpression expression ;;
  rpn <- _toReversePolishNotation s ;;
  _evaluateRPN rpn.

End CalculationEngine.

Import CalculationEngine.

(** ** 7. Calculator state *)

Record HistoryEntry : Type := mkEntry {
  entry_expression : string;
  entry_result : number;
  entry_timestamp : string
}.

Record CalculatorState : Type := mkState {
  currentInput : string;
  previousInput : string;
  operator : option string;
  shouldResetDisplay : bool;
  history : list HistoryEntry;
  lastCalculation : option (string * number)
}.

(** How a method call ends: normally, or by an exception that reaches
    the caller. *)
Inductive completion : Type :=
| Normal
| Abrupt (e : CalculatorError).

(** [reset()] assigns every field; the state after it does not depend on
    the state before. *)
Definition reset : CalculatorState :=
  mkState DEFAULT_DISPLAY_VALUE "" None false [] None.

Fixpoint includes (c : ascii) (s : string) : bool :=
  match s with
  | String d r => Ascii.eqb d c || includes c r
  | EmptyString => false
  end.

Definition setCurrentInput (v : string) (st : CalculatorState) :=
  mkState v (previousInput st) (operator st) (shouldResetDisplay st)
          (history st) (lastCalculation st).

Definition updateInput (v : string) (st : CalculatorState) : CalculatorState :=
  if (v =? DECIMAL)%string then
    if includes "." (currentInput st) then st
    else setCurrentInput (currentInput st ++ ".") st
  else if (currentInput st =? DEFAULT_DISPLAY_VALUE)%string || shouldResetDisplay st
  then
    mkState v (previousInput st) (operator st) false
            (history st) (lastCalculation st)
  else if (String.length (currentInput st) <? MAX_DISPLAY_LENGTH)%nat then
    setCurrentInput (currentInput st ++ v) st
  else st.

(** [!this.operator]: [null] and the empty string are falsy. *)
Definition noOperator (o : option string) : bool :=
  match o with
  | None => true
  | Some s => (s =? "")%string
  end.

Definition operatorText (o : option string) : string :=
  match o with
  | None => "null"
  | Some s => s
  end.

(** [history.push(entry)], then [history.shift()] when longer than 10. *)
Definition pushHistory (h : list HistoryEntry) (e : HistoryEntry)
  : list HistoryEntry :=
  let h' := (h ++ [e])%list in
  if (10 <? List.length h')%nat then tl h' else h'.

(** The expression string that [calculate()] builds. *)
Definition expressionOf (st : CalculatorState) : string :=
  previousInput st ++ operatorText (operator st) ++ currentInput st.

(** [calculate()]; [now] is the reading of the clock used as timestamp. *)
Definition calculate (now : string) (st : CalculatorState)
  : CalculatorState * completion :=
  if noOperator (operator st) || (previousInput st =? "")%string then (st, Normal)
  else
    let expression := expressionOf st in
    match CalculationEngine.calculate (VString expression) with
    | Return r =>
        (mkState (Number_toString r) "" None true
                 (pushHistory (history st) (mkEntry expression r now))
                 (Some (expression, r)),
         Normal)
    | Throw error =>
        (mkState ERROR_MESSAGE "" None true (history st) (lastCalculation st),
         Abrupt error)
    end.

(** [applyOperator(op)]: an exception of the inner [calculate()] leaves
    the method before the three assignments. *)
Definition applyOperator (op : string) (now : string) (st : CalculatorState)
  : CalculatorState * completion :=
  let '(st1, c) :=
    if negb (noOperator (operator st)) && negb (shouldResetDisplay st)
    then calculate now st
    else (st, Normal) in
  match c with
  | Abrupt e => (st1, c)
  | Normal =>
      (mkState (currentInput st1) (currentInput st1) (Some op) true
               (history st1) (lastCalculation st1),
       Normal)
  end.

(** [slice(0, -1)] *)
Definition dropLast (s : string) : string :=
  substring 0 (String.length s - 1) s.

Definition backspace (st : CalculatorState) : CalculatorState :=
  if (1 <? String.length (currentInput st))%nat
  then setCurrentInput (dropLast (currentInput st)) st
  else setCurrentInput DEFAULT_DISPLAY_VALUE st.

Definition clear (st : CalculatorState) : CalculatorState := reset.

Definition getDisplayValue (st : CalculatorState) : string := currentInput st.
Definition getHistory (st : CalculatorState) : list HistoryEntry := history st.

(** *** Sequences of calls *)

(** A call of a public method; the calls that may evaluate carry the
    clock reading of that moment. *)
Inductive Call : Type :=
| UpdateInput (v : string)
| ApplyOperator (op : string) (now : string)
| Calculate (now : string)
| Backspace
| Clear.

Definition step (st : CalculatorState) (c : Call) : CalculatorState :=
  match c with
  | UpdateInput v => updateInput v st
  | ApplyOperator op now => fst (applyOperator op now st)
  | Calculate now => fst (calculate now st)
  | Backspace => backspace st
  | Clear => clear st
  end.

(** The state after a sequence of calls; a caller that catches the
    exception of a call goes on with the state the call left. *)
Definition run (calls : list Call) (st : CalculatorState) : CalculatorState :=
  fold_left step calls st.

(** * Vocabulary of the properties *)

(** ** Concrete inputs *)

Definition two : number := ofZ 2.
Definition minusFour : number := ofZ (-4).

Definition seven_plus_three : list Call :=
  [UpdateInput "7"; ApplyOperator "+" "t1"; UpdateInput "3"; Calculate "t2"].

Definition then_minus_four : list Call :=
  [ApplyOperator "-" "t3"; UpdateInput "4"; Calculate "t4"].

(** ** Validation *)

(** The number of ["("] minus the number of [")"] in a string. *)
Fixpoint parenBalance (s : string) : Z :=
  match s with
  | EmptyString => 0
  | String c r =>
      (if Ascii.eqb c "(" then 1 else 0) - (if Ascii.eqb c ")" then 1 else 0)
      + parenBalance r
  end.

(** The running balance goes negative: some prefix closes more than it
    opens. *)
Definition goesNegative (s : string) : Prop :=
  exists n : nat, parenBalance (substring 0 n s) < 0.

Definition unbalanced (s : string) : Prop :=
  goesNegative s \/ parenBalance s <> 0.

Definition denylisted (s : string) : bool :=
  existsb (fun p => test p s) dangerousPatterns.

(** Some character of the string is outside [[0-9+\-*\/%.()\s]]. *)
Definition hasInvalidChar (s : string) : Prop :=
  exists c, includes c s = true /\ validChar c = false.

(** The unsafe substrings of the denylist, as the specification lists
    them. *)
Definition unsafeSubstrings : list string :=
  ["eval("; "function("; "new Function"; ".constructor"; "__proto__";
   "process."; "require("; "import("].

Fixpoint lowerString (s : string) : string :=
  match s with
  | String c r => String (toLower c) (lowerString r)
  | EmptyString => ""
  end.

(** [s] holds [u] as a substring, letter case ignored. *)
Definition containsNoCase (u s : string) : Prop :=
  exists pre m post, s = pre ++ m ++ post /\ lowerString m = lowerString u.

Definition mentionsUnsafe (s : string) : Prop :=
  exists u, In u unsafeSubstrings /\ containsNoCase u s.

(** The validator throws an error of kind [t], and that error is what
    [calculate] throws: conversion and evaluation are not reached. *)
Definition rejected (v : value) (t : ERROR_TYPES) : Prop :=
  exists e, _validateExpression v = Throw e /\
            CalculationEngine.calculate v = Throw e /\ type e = t.

(** ** History *)

(** The last [n] elements of a list, in their order. *)
Definition lastN {A : Type} (n : nat) (l : list A) : list A :=
  skipn (List.length l - n) l.

(** What [calculate()] evaluates in a state: the expression and its
    value, when an operation is pending and the engine returns. *)
Definition evaluates (st : CalculatorState) : option (string * number) :=
  if noOperator (operator st) || (previousInput st =? "")%string then None
  else
    match CalculationEngine.calculate (VString (expressionOf st)) with
    | Return r => Some (expressionOf st, r)
    | Throw _ => None
    end.

(** The entry of the successful [calculate()] invocation that a call
    makes, directly or through [applyOperator], if it makes one. *)
Definition recorded (st : CalculatorState) (c : Call) : option HistoryEntry :=
  match c with
  | Calculate now =>
      option_map (fun xr => mkEntry (fst xr) (snd xr) now) (evaluates st)
  | ApplyOperator _ now =>
      if negb (noOperator (operator st)) && negb (shouldResetDisplay st)
      then option_map (fun xr => mkEntry (fst xr) (snd xr) now) (evaluates st)
      else None
  | _ => None
  end.

(** The successful calculations of a sequence of calls since the last
    [clear()], oldest first, starting from the log [log]. *)
Fixpoint successes (calls : list Call) (st : CalculatorState)
  (log : list HistoryEntry) : list HistoryEntry :=
  match calls with
  | [] => log
  | c :: rest =>
      successes rest (step st c)
        match c with
        | Clear => []
        | _ =>
            match recorded st c with
            | Some e => (log ++ [e])%list
            | None => log
            end
        end
  end.

(** The calls of [n + 1 =] on a display that is replaced by [n]. *)
Definition plus_one (n : string) : list Call :=
  [UpdateInput n; ApplyOperator "+" "t"; UpdateInput "1"; Calculate n].

Definition twelve_sums : list Call :=
  List.concat (map plus_one
            ["1"; "2"; "3"; "4"; "5"; "6"; "7"; "8"; "9"; "1"; "2"; "3"]).

(** ** Rounding and malformed tokens *)

(** The post-processing in the words of the specification: magnitudes
    below [1e-10] become 0, otherwise the value is rounded to 10 decimal
    places; a whole value is that same value. *)
Definition roundedAsSpecified (n : number) : number :=
  if num_ltb (Math.abs n) tiny then zero
  else num_div (Math.round (num_mul n multiplier)) multiplier.

Definition tenTo21 : string := "1000000000000000000000".

Definition sixteen_nines : list Call :=
  map UpdateInput
    ["9"; "9"; "9"; "9"; "9"; "9"; "9"; "9";
     "9"; "9"; "9"; "9"; "9"; "9"; "9"; "9"].

(** The keys of 9999999999999999 * 9999999999999999 =. *)
Definition nines_squared : list Call :=
  (sixteen_nines ++ ApplyOperator "*" "t1" :: sixteen_nines
   ++ [Calculate "t2"])%list.

Definition digitOrDot (c : ascii) : bool := _isDigit c || Ascii.eqb c ".".

(** A run of digits and dots that [_isNumber] rejects, such as ["1.2.3"]. *)
Definition malformedRun (t : string) : Prop :=
  t <> "" /\ allChars digitOrDot t = true /\ _isNumber t = false.

(** ** Calls of the keypad *)

(** A digit key: a string of one digit. *)
Definition isDigitKey (v : string) : bool :=
  match v with
  | String c EmptyString => isDigitChar c
  | _ => false
  end.

(** The calls that the controller makes: digits and the decimal point,
    the five operators, equals, backspace and clear. *)
Definition keypadCall (c : Call) : bool :=
  match c with
  | UpdateInput v => isDigitKey v || (v =? DECIMAL)%string
  | ApplyOperator op _ => isOperator op
  | _ => true
  end.

Definition reachable (st : CalculatorState) : Prop :=
  exists calls, forallb keypadCall calls = true /\ st = run calls reset.

(** The same without the decimal point. *)
Definition digitCall (c : Call) : bool :=
  match c with
  | UpdateInput v => isDigitKey v
  | ApplyOperator op _ => isOperator op
  | _ => true
  end.

Definition million_by_three : list Call :=
  [UpdateInput "1"; UpdateInput "0"; UpdateInput "0"; UpdateInput "0";
   UpdateInput "0"; UpdateInput "0"; UpdateInput "0";
   ApplyOperator "/" "t1"; UpdateInput "3"; Calculate "t2"].

(** While the display holds typed input its length is within the bound. *)
Definition typedWithinBound (st : CalculatorState) : Prop :=
  shouldResetDisplay st = false ->
  (String.length (currentInput st) <= MAX_DISPLAY_LENGTH)%nat.

Definition sixteen_digits : list Call :=
  map UpdateInput
    ["1"; "2"; "3"; "4"; "5"; "6"; "7"; "8";
     "9"; "1"; "2"; "3"; "4"; "5"; "6"; "7"].

(** ** Numeric literals and the display *)

Definition startsWithDigit (s : string) : bool :=
  match s with
  | String c _ => isDigitChar c
  | EmptyString => false
  end.

Fixpoint skipDigits (s : string) : string :=
  match s with
  | String c r => if isDigitChar c then skipDigits r else s
  | EmptyString => s
  end.

(** Nothing, or [e], an optional sign and digits. *)
Definition isExponentPart (s : string) : bool :=
  match s with
  | EmptyString => true
  | String c r =>
      (Ascii.eqb c "e" || Ascii.eqb c "E") &&
      let body :=
        match r with
        | String x r' => if Ascii.eqb x "+" || Ascii.eqb x "-" then r' else r
        | EmptyString => r
        end in
      startsWithDigit body && (skipDigits body =? "")%string
  end.

(** What may follow the integer digits: a fraction, an exponent, both or
    nothing. *)
Definition afterDigits (s : string) : bool :=
  match s with
  | String c r =>
      if Ascii.eqb c "." then isExponentPart (skipDigits r)
      else isExponentPart s
  | EmptyString => true
  end.

Definition isUnsignedLiteral (s : string) : bool :=
  (s =? "Infinity")%string ||
  match s with
  | String c r =>
      if Ascii.eqb c "." then startsWithDigit r && isExponentPart (skipDigits r)
      else isDigitChar c && afterDigits (skipDigits r)
  | EmptyString => false
  end.

(** The decimal literals of the grammar of numeric strings: an optional
    sign, then [Infinity] or digits with an optional fraction and an
    optional exponent. *)
Definition isNumericLiteral (s : string) : bool :=
  match s with
  | String c r =>
      if Ascii.eqb c "+" || Ascii.eqb c "-" then isUnsignedLiteral r
      else isUnsignedLiteral s
  | EmptyString => false
  end.

(** The display contract: a numeric literal, the default value or the
    error sentinel. *)
Definition displayContract (s : string) : Prop :=
  isNumericLiteral s = true \/ s = DEFAULT_DISPLAY_VALUE \/ s = ERROR_MESSAGE.

(** Digits, then possibly a dot and more digits. *)
Fixpoint fractionOK (s : string) : bool :=
  match s with
  | EmptyString => true
  | String c r =>
      if isDigitChar c then fractionOK r
      else Ascii.eqb c "." && allChars isDigitChar r
  end.

(** What the digit and decimal keys can build: one digit or more, then
    possibly a dot and more digits. *)
Definition typedLiteral (s : string) : bool :=
  startsWithDigit s && fractionOK s.

Definition plain (c : ascii) : bool := negb (isWhiteSpace c).

(** No white space in the string. *)
Definition clean (s : string) : bool := allChars plain s.

Definition cleanToken (t : string) : Prop := t <> "" /\ clean t = true.

(** The numbers of a postfix sequence, or of a stack, are finite. *)
Definition finiteItem (i : rpnItem) : Prop :=
  match i with
  | RNumber n => Number_isFinite n = true
  | RSymbol _ => True
  end.

Definition finiteNumber (n : number) : Prop := Number_isFinite n = true.

Definition five_by_zero_backspace : list Call :=
  [UpdateInput "5"; ApplyOperator "/" "t1"; UpdateInput "0"; Calculate "t2";
   Backspace].

(** The calls of the keypad, with the decimal point and backspace used
    only while the display holds typed input. *)
Definition guardedCall (st : CalculatorState) (c : Call) : bool :=
  match c with
  | UpdateInput v =>
      isDigitKey v || ((v =? DECIMAL)%string && negb (shouldResetDisplay st))
  | ApplyOperator op _ => isOperator op
  | Backspace => negb (shouldResetDisplay st)
  | _ => true
  end.

Fixpoint guardedRun (calls : list Call) (st : CalculatorState) : bool :=
  match calls with
  | [] => true
  | c :: rest => guardedCall st c && guardedRun rest (step st c)
  end.

Definition operatorOK (o : option string) : Prop :=
  match o with
  | None => True
  | Some op => isOperator op = true
  end.

Record displayInvariant (st : CalculatorState) : Prop := {
  inv_previous : clean (previousInput st) = true;
  inv_current : clean (currentInput st) = true;
  inv_operator : operatorOK (operator st);
  inv_typed :
    shouldResetDisplay st = false -> typedLiteral (currentInput st) = true;
  inv_display :
    isNumericLiteral (currentInput st) = true \/
    currentInput st = ERROR_MESSAGE
}.

Definition five_by_zero : list Call :=
  [UpdateInput "5"; ApplyOperator "/" "t1"; UpdateInput "0"; Calculate "t2"].

Definition three_minus_eight : list Call :=
  [UpdateInput "3"; ApplyOperator "-" "t1"; UpdateInput "8"; Calculate "t2"].

(** * The rest of the state and the controller *)

(** ** 7, continued. The last calculation *)

(** [getLastCalculation()]: a copy of the record, or [null]. *)
Definition getLastCalculation (st : CalculatorState)
  : option (string * number) := lastCalculation st.

(** ** 8. The controller's dispatch *)

(** The handlers of the controller that act on the state. *)
Inductive Handler : Type :=
| HandleNumberInput (number : string)
| HandleDecimalInput
| HandleOperatorInput (op : string)
| HandleEquals
| HandleClear
| HandleBackspace.

(** The table that [setupKeyboardSupport] fills, in its order. *)
Definition keyboardHandlers : list (string * Handler) :=
  [("0", HandleNumberInput "0"); ("1", HandleNumberInput "1");
   ("2", HandleNumberInput "2"); ("3", HandleNumberInput "3");
   ("4", HandleNumberInput "4"); ("5", HandleNumberInput "5");
   ("6", HandleNumberInput "6"); ("7", HandleNumberInput "7");
   ("8", HandleNumberInput "8"); ("9", HandleNumberInput "9");
   (".", HandleDecimalInput);
   ("+", HandleOperatorInput "+"); ("-", HandleOperatorInput "-");
   ("*", HandleOperatorInput "*"); ("/", HandleOperatorInput "/");
   ("%", HandleOperatorInput "%");
   ("Enter", HandleEquals); ("=", HandleEquals);
   ("Escape", HandleClear); ("Delete", HandleClear);
   ("Backspace", HandleBackspace)].

(** [handleKeyboardInput]: the handler of the key, if the table has
    one. *)
Fixpoint lookupKey (key : string) (table : list (string * Handler))
  : option Handler :=
  match table with
  | [] => None
  | (k, h) :: rest => if (k =? key)%string then Some h else lookupKey key rest
  end.

Definition handleKeyboardInput (key : string) : option Handler :=
  lookupKey key keyboardHandlers.

(** [handleAction]: an operator, one of the three listed actions, or a
    warning and nothing else. *)
Definition handleAction (action : string) : option Handler :=
  if isOperator action then Some (HandleOperatorInput action)
  else if (action =? "clear")%string then Some HandleClear
  else if (action =? "backspace")%string then Some HandleBackspace
  else if (action =? "=")%string then Some HandleEquals
  else None.

(** [handleButtonClick] on a button with the given [data-number] and
    [data-action] attributes. *)
Definition handleButtonClick (number action : option string)
  : option Handler :=
  match number with
  | Some n => Some (HandleNumberInput n)
  | None =>
      match action with
      | Some a => if (a =? "")%string then None else handleAction a
      | None => None
      end
  end.

(** The method of the state that a handler calls; the handler catches
    what the method throws. *)
Definition callOf (h : Handler) (now : string) : Call :=
  match h with
  | HandleNumberInput number => UpdateInput number
  | HandleDecimalInput => UpdateInput DECIMAL
  | HandleOperatorInput op => ApplyOperator op now
  | HandleEquals => Calculate now
  | HandleClear => Clear
  | HandleBackspace => Backspace
  end.

(** What happens to the controller: a key is pressed, a button is
    clicked, or the deferred [clear()] of [handleError] runs. *)
Inductive Event : Type :=
| KeyDown (key : string) (now : string)
| Click (number action : option string) (now : string)
| ErrorTimeout.

Definition handlerOf (ev : Event) : option Call :=
  match ev with
  | KeyDown key now =>
      option_map (fun h => callOf h now) (handleKeyboardInput key)
  | Click number action now =>
      option_map (fun h => callOf h now) (handleButtonClick number action)
  | ErrorTimeout => Some Clear
  end.

Definition dispatch (st : CalculatorState) (ev : Event) : CalculatorState :=
  match handlerOf ev with
  | Some c => step st c
  | None => st
  end.

(** * Vocabulary of the further properties *)

(** ** Tokens and postfix sequences *)

(** The string without its space characters. *)
Fixpoint removeSpaces (s : string) : string :=
  match s with
  | String c r =>
      if Ascii.eqb c " " then removeSpaces r else String c (removeSpaces r)
  | EmptyString => ""
  end.

(** The tokens written one after the other. *)
Definition joinTokens (tokens : list string) : string :=
  fold_right append "" tokens.

(** A token is a non-empty run of digits and dots, or one character that
    is neither digit, dot nor space. *)
Definition tokenShape (t : string) : Prop :=
  (t <> "" /\ allChars digitOrDot t = true) \/
  (exists c, t = String c "" /\ digitOrDot c = false /\ c <> " "%char).

(** The numbers of a postfix sequence, in their order. *)
Fixpoint numbersOf (rpn : list rpnItem) : list number :=
  match rpn with
  | [] => []
  | RNumber n :: rest => n :: numbersOf rest
  | RSymbol _ :: rest => numbersOf rest
  end.

(** The operator symbols of a postfix sequence, in their order. *)
Fixpoint operatorsOf (rpn : list rpnItem) : list string :=
  match rpn with
  | [] => []
  | RNumber _ :: rest => operatorsOf rest
  | RSymbol s :: rest =>
      if isOperator s then s :: operatorsOf rest else operatorsOf rest
  end.

(** What the converter holds of the operators it has read: those already
    in the output and those still on the stack. *)
Definition operatorsHeld (st : list string * list rpnItem) : list string :=
  (operatorsOf (snd st) ++ filter isOperator (fst st))%list.

(** The parentheses of a string in their order: [true] opens, [false]
    closes. *)
Fixpoint parens (s : string) : list bool :=
  match s with
  | String c r =>
      if Ascii.eqb c "(" then true :: parens r
      else if Ascii.eqb c ")" then false :: parens r
      else parens r
  | EmptyString => []
  end.

(** The same for a list of tokens. *)
Fixpoint tokenParens (tokens : list string) : list bool :=
  match tokens with
  | [] => []
  | t :: rest =>
      if (t =? "(")%string then true :: tokenParens rest
      else if (t =? ")")%string then false :: tokenParens rest
      else tokenParens rest
  end.

(** From depth [d], the parentheses never close more than is open and
    end at depth 0. *)
Fixpoint closes (l : list bool) (d : nat) : bool :=
  match l with
  | [] => (d =? 0)%nat
  | true :: rest => closes rest (S d)
  | false :: rest =>
      match d with
      | O => false
      | S d' => closes rest d'
      end
  end.

(** The number of ["("] on the operator stack. *)
Definition depthOf (operators : list string) : nat :=
  List.length (filter (String.eqb "(") operators).

(** A number, or an operator symbol. *)
Definition operandOrOperator (i : rpnItem) : Prop :=
  match i with
  | RNumber _ => True
  | RSymbol s => isOperator s = true
  end.

(** On the stack: an operator, or ["("]. *)
Definition operatorOrOpen (t : string) : Prop :=
  t = "(" \/ isOperator t = true.

(** ** Numerals and expressions built from them *)

(** A run of digits and dots that [_isNumber] accepts. *)
Definition numeral (t : string) : Prop :=
  t <> "" /\ allChars digitOrDot t = true /\ _isNumber t = true.

(** No white space but the space character. *)
Definition onlySpaces (s : string) : bool :=
  allChars (fun c => plain c || Ascii.eqb c " ") s.

(** The postfix item of a numeral. *)
Definition operand (t : string) : rpnItem := RNumber (parseFloat t).

(** What the caller of the engine can tell apart: the value returned, or
    the kind of the error thrown. *)
Definition outcome (r : result number) : number + ERROR_TYPES :=
  match r with
  | Return x => inl x
  | Throw e => inr (type e)
  end.

(** ** Chains of operations *)

(** The text of a chain: an operator and a numeral, again and again. *)
Fixpoint chain (rest : list (string * string)) : string :=
  match rest with
  | [] => ""
  | (o, b) :: r => o ++ b ++ chain r
  end.

(** Operators and numerals in turn. *)
Definition turns (rest : list (string * string)) : Prop :=
  Forall (fun ob => isOperator (fst ob) = true /\ numeral (snd ob)) rest.

(** Every operand is a numeral, every operator is one of the table, and
    the precedence never decreases from one operator to the next;
    [prev] is a lower bound of the first. *)
Fixpoint rising (prev : Z) (rest : list (string * string)) : Prop :=
  match rest with
  | [] => True
  | (o, b) :: r =>
      numeral b /\
      exists p, createOperation o = Return p /\ prev <= precedence p /\
                rising (precedence p) r
  end.

(** The top of the operator stack, if there is one, is an operator of
    precedence at most [prev]. *)
Definition topAtMost (prev : Z) (operators : list string) : Prop :=
  match operators with
  | [] => True
  | top :: _ =>
      exists p, createOperation top = Return p /\ precedence p <= prev
  end.

(** ** The history and the last calculation *)

(** The expression and the result of the newest entry of a history. *)
Definition newest (h : list HistoryEntry) : option (string * number) :=
  match rev h with
  | [] => None
  | e :: _ => Some (entry_expression e, entry_result e)
  end.

(** The engine returns the entry's result for the entry's expression. *)
Definition truthful (e : HistoryEntry) : Prop :=
  CalculationEngine.calculate (VString (entry_expression e))
  = Return (entry_result e).

(** The state with another pending operator. *)
Definition setOperator (op : string) (st : CalculatorState) : CalculatorState :=
  mkState (currentInput st) (previousInput st) (Some op)
          (shouldResetDisplay st) (history st) (lastCalculation st).

(** ** Typing on the keypad *)

(** One [updateInput] call for each character of a string. *)
Fixpoint keys (s : string) : list Call :=
  match s with
  | String c r => UpdateInput (String c "") :: keys r
  | EmptyString => []
  end.

(** A literal as one types it: digits with at most one dot after the
    first digit, at most [MAX_DISPLAY_LENGTH] characters, and no zero
    before the first digit of the integer part. *)
Definition typable (a : string) : bool :=
  typedLiteral a && (String.length a <=? MAX_DISPLAY_LENGTH)%nat &&
  match a with
  | String "0" (String c _) => Ascii.eqb c "."
  | _ => true
  end.

(** The display takes the next digit as the first of a new number. *)
Definition fresh (st : CalculatorState) : Prop :=
  currentInput st = DEFAULT_DISPLAY_VALUE \/ shouldResetDisplay st = true.

(** What the display shows for an outcome of the engine. *)
Definition shown (r : result number) : string :=
  match r with
  | Return x => Number_toString x
  | Throw _ => ERROR_MESSAGE
  end.

(** A call that passes no empty string to [updateInput]. *)
Definition passesText (c : Call) : bool :=
  match c with
  | UpdateInput v => negb (v =? "")%string
  | _ => true
  end.

(** A click on a button whose [data-number], if it has one, is a
    digit. *)
Definition digitButton (ev : Event) : bool :=
  match ev with
  | Click (Some n) _ _ => isDigitKey n
  | _ => true
  end.

(** * Properties *)

(** ** Strings and lists *)

Lemma append_assoc (a b c : string) : (a ++ b) ++ c = a ++ (b ++ c).
Proof. induction a as [| x a IH]; cbn; [reflexivity | rewrite IH; reflexivity]. Qed.

Lemma append_empty_r (a : string) : a ++ "" = a.
Proof. induction a as [| x a IH]; cbn; [reflexivity | rewrite IH; reflexivity]. Qed.

Lemma length_append (a b : string) :
  String.length (a ++ b) = (String.length a + String.length b)%nat.
Proof. induction a as [| c a IH]; cbn; [reflexivity | rewrite IH; reflexivity]. Qed.

Lemma length_zero_iff (s : string) : (String.length s =? 0)%nat = true <-> s = "".
Proof.
  destruct s; cbn; split; intros H; try reflexivity; discriminate H.
Qed.

Lemma length_substring_prefix (n : nat) (s : string) :
  (n <= String.length s)%nat -> String.length (substring 0 n s) = n.
Proof.
  revert n; induction s as [| c r IH]; intros [| n]; cbn; intros H;
    try reflexivity; try lia.
  rewrite IH; [reflexivity | lia].
Qed.

Lemma length_dropLast (s : string) :
  String.length (dropLast s) = (String.length s - 1)%nat.
Proof. unfold dropLast; apply length_substring_prefix; lia. Qed.

Lemma includes_append (d : ascii) (a b : string) :
  includes d (a ++ b) = includes d a || includes d b.
Proof.
  induction a as [| c a IH]; cbn; [reflexivity |].
  rewrite IH, orb_assoc; reflexivity.
Qed.

Lemma includes_trimStart (d : ascii) (s : string) :
  includes d (trimStart s) = true -> includes d s = true.
Proof.
  induction s as [| c r IH]; cbn; [trivial |].
  destruct (isWhiteSpace c); [| trivial].
  intros H; rewrite (IH H); apply orb_true_r.
Qed.

Lemma rev_string_rev (s : string) :
  forall acc acc', rev_string (rev_string s acc) acc' = rev_string acc (s ++ acc').
Proof.
  induction s as [| c r IH]; intros acc acc'; cbn; [reflexivity |].
  rewrite IH; reflexivity.
Qed.

(** Facts about [allChars f], for any test [f] on characters. *)
Section AllChars.

Variable f : ascii -> bool.

Lemma allChars_includes (s : string) (d : ascii) :
  allChars f s = true -> includes d s = true -> f d = true.
Proof.
  induction s as [| c r IH]; cbn; [discriminate |].
  intros Hall Hin; apply andb_true_iff in Hall; destruct Hall as [Hc Hr].
  apply orb_true_iff in Hin; destruct Hin as [Hin | Hin]; [| auto].
  apply Ascii.eqb_eq in Hin; subst; exact Hc.
Qed.

Lemma allChars_impl (g : ascii -> bool) (s : string) :
  (forall c, f c = true -> g c = true) ->
  allChars f s = true -> allChars g s = true.
Proof.
  intros Hfg; induction s as [| c r IH]; cbn; [trivial |].
  intros H; apply andb_true_iff in H; destruct H as [Hc Hr].
  rewrite (Hfg c Hc), (IH Hr); reflexivity.
Qed.

Lemma allChars_append (a b : string) :
  allChars f (a ++ b) = allChars f a && allChars f b.
Proof.
  induction a as [| c a IH]; cbn; [reflexivity |].
  rewrite IH, andb_assoc; reflexivity.
Qed.

Lemma allChars_false_iff (s : string) :
  allChars f s = false <-> exists c, includes c s = true /\ f c = false.
Proof.
  induction s as [| d r IH]; cbn.
  - split; [discriminate | intros [c [H _]]; discriminate H].
  - destruct (f d) eqn:Hd; cbn.
    + rewrite IH; split; intros [c [Hin Hc]]; exists c; split; trivial.
      * rewrite Hin; apply orb_true_r.
      * apply orb_true_iff in Hin; destruct Hin as [Hin | Hin]; trivial.
        apply Ascii.eqb_eq in Hin; subst d; congruence.
    + split; [intros _ | reflexivity].
      exists d; split; [rewrite Ascii.eqb_refl; reflexivity | exact Hd].
Qed.

Lemma allChars_substring (s : string) :
  allChars f s = true -> forall a n, allChars f (substring a n s) = true.
Proof.
  induction s as [| c r IH]; intros H a n.
  - destruct a, n; reflexivity.
  - cbn in H; apply andb_true_iff in H; destruct H as [Hc Hr].
    destruct a as [| a]; [destruct n as [| n] |]; cbn; trivial.
    + rewrite Hc; apply IH, Hr.
    + apply IH, Hr.
Qed.

Lemma allChars_repeat (c : ascii) (n : nat) :
  f c = true -> allChars f (repeat_char c n) = true.
Proof. intros H; induction n; cbn; [reflexivity | rewrite H; assumption]. Qed.

Lemma allChars_rev_string (s : string) :
  forall acc, allChars f (rev_string s acc) = allChars f s && allChars f acc.
Proof.
  induction s as [| c r IH]; intros acc; cbn; [reflexivity |].
  rewrite IH; cbn; rewrite !andb_assoc, (andb_comm (allChars f r)); reflexivity.
Qed.

End AllChars.

Lemma Forall_push {A : Type} (P : A -> Prop) (l : list A) (a : A) :
  Forall P l -> P a -> Forall P (l ++ [a]).
Proof.
  intros Hl Ha; apply Forall_app; split; [exact Hl | constructor; trivial].
Qed.

Lemma tl_skipn {A : Type} (n : nat) (l : list A) :
  tl (skipn n l) = skipn (S n) l.
Proof.
  revert l; induction n as [| n IH]; intros [| a l]; cbn; trivial.
Qed.

Lemma length_lastN {A : Type} (n : nat) (l : list A) :
  List.length (lastN n l) = Nat.min n (List.length l).
Proof. unfold lastN; rewrite length_skipn; lia. Qed.

(** ** Thrown errors *)

Lemma fails_Throw {A : Type} (e : CalculatorError) (t : ERROR_TYPES) :
  fails (@Throw A e) t <-> type e = t.
Proof.
  unfold fails; split.
  - intros [e' [H Ht]]; injection H as <-; exact Ht.
  - intros H; exists e; split; [reflexivity | exact H].
Qed.

Lemma fails_Return {A : Type} (a : A) (t : ERROR_TYPES) :
  ~ fails (Return a) t.
Proof. intros [e [H _]]; discriminate H. Qed.

Lemma rejected_fails (v : value) (t : ERROR_TYPES) :
  rejected v t -> fails (CalculationEngine.calculate v) t.
Proof. intros [e [_ [H Ht]]]; exists e; split; assumption. Qed.

Lemma validate_throw_calculate (v : value) (e : CalculatorError) :
  _validateExpression v = Throw e -> CalculationEngine.calculate v = Throw e.
Proof. intros H; unfold CalculationEngine.calculate; rewrite H; reflexivity. Qed.

(** ** Concrete evaluations *)

(** An operator on top of the stack whose precedence is not strictly
    greater than that of the incoming operator stays there. *)
Lemma popHigher_keeps_equal_precedence
  (op1 op2 : Operation) (top : string) (rest : list string)
  (output : list rpnItem) :
  isOperator top = true -> createOperation top = Return op2 ->
  precedence op2 <= precedence op1 ->
  popHigher op1 (top :: rest) output = Return (top :: rest, output).
Proof.
  intros Hop Hc Hle; cbn [popHigher]; rewrite Hop, Hc; cbn [negb bind].
  replace (precedence op2 >? precedence op1) with false
    by (symmetry; rewrite Z.gtb_ltb; apply Z.ltb_ge; exact Hle).
  destruct (top =? "(")%string; reflexivity.
Qed.

(** C1: for the input ["1-2-3"] the engine returns 2 and not -4.  The
    token loop pops an operator only when its precedence is strictly
    greater: a [-] on top of the stack stays there when another [-]
    comes, so the postfix form is [1 2 3 - -], that is 1-(2-3). *)
Theorem evaluate_1_minus_2_minus_3 :
  (forall rest output,
     popHigher SubtractionOperation ("-" :: rest) output
       = Return ("-" :: rest, output)) /\
  _toReversePolishNotation "1-2-3" =
    Return [RNumber (ofZ 1); RNumber (ofZ 2); RNumber (ofZ 3);
            RSymbol "-"; RSymbol "-"] /\
  CalculationEngine.calculate (VString "1-2-3") = Return two /\
  two <> minusFour /\
  Number_toString two = "2".
Proof.
  split.
  { intros rest output.
    apply (popHigher_keeps_equal_precedence _ SubtractionOperation);
      [reflexivity | reflexivity | cbn; lia]. }
  repeat split; try (vm_compute; reflexivity).
  vm_compute; discriminate.
Qed.

(** C5: from a fresh state, 7 + 3 = leaves the display at ["10"]; going on
    without [clear()] with - 4 = leaves it at ["6"]. *)
Theorem chained_seven_plus_three_minus_four :
  getDisplayValue (run seven_plus_three reset) = "10" /\
  getDisplayValue (run then_minus_four (run seven_plus_three reset)) = "6" /\
  getDisplayValue (run (seven_plus_three ++ then_minus_four) reset) = "6".
Proof. repeat split; vm_compute; reflexivity. Qed.

(** ** Division and modulo by zero *)

Lemma execute_division (a b : number) :
  fails (execute DivisionOperation a b) DIVISION_BY_ZERO <->
  num_eqb b zero = true.
Proof.
  cbn [execute DivisionOperation]; destruct (num_eqb b zero).
  - rewrite fails_Throw; cbn; tauto.
  - split; [intros H; elim (fails_Return _ _ H) | discriminate].
Qed.

Lemma execute_modulo (a b : number) :
  fails (execute ModuloOperation a b) DIVISION_BY_ZERO <->
  num_eqb b zero = true.
Proof.
  cbn [execute ModuloOperation]; destruct (num_eqb b zero).
  - rewrite fails_Throw; cbn; tauto.
  - split; [intros H; elim (fails_Return _ _ H) | discriminate].
Qed.

(** Evaluating [a b op] in postfix order, for [op] one of [/] and [%]. *)
Lemma evaluateRPN_zero_divisor (op : string) (a b : number) :
  op = "/" \/ op = "%" ->
  (fails (_evaluateRPN [RNumber a; RNumber b; RSymbol op]) DIVISION_BY_ZERO
   <-> num_eqb b zero = true).
Proof.
  intros [-> | ->]; unfold _evaluateRPN, rawResult;
    cbn [evalLoop evalToken isOperator existsb OPERATORS String.eqb Ascii.eqb
         Bool.eqb orb bind createOperation execute DivisionOperation
         ModuloOperation];
    destruct (num_eqb b zero) eqn:Hb.
  - cbn [bind]; rewrite fails_Throw; cbn; tauto.
  - split; [| discriminate].
    cbn [bind].
    destruct (negb (Number_isFinite (num_div a b))).
    + destruct (num_eqb (num_div a b) Infinity
                || num_eqb (num_div a b) NegInfinity);
        cbn [bind]; rewrite fails_Throw; cbn; discriminate.
    + cbn [bind]; intros H; elim (fails_Return _ _ H).
  - cbn [bind]; rewrite fails_Throw; cbn; tauto.
  - split; [| discriminate].
    cbn [bind].
    destruct (negb (Number_isFinite (num_rem a b))).
    + destruct (num_eqb (num_rem a b) Infinity
                || num_eqb (num_rem a b) NegInfinity);
        cbn [bind]; rewrite fails_Throw; cbn; discriminate.
    + cbn [bind]; intros H; elim (fails_Return _ _ H).
Qed.

(** [b === 0] holds exactly for the two zeros. *)
Lemma num_eqb_zero (b : number) :
  num_eqb b zero = true <-> exists s, b = S754_zero s.
Proof.
  split.
  - destruct b as [s | s | | s m e]; cbn; try discriminate.
    + intros _; exists s; reflexivity.
    + destruct s; discriminate.
    + destruct s; discriminate.
  - intros [s ->]; reflexivity.
Qed.

(** C6: for every left operand [a], division and modulo throw
    [DIVISION_BY_ZERO] when the right operand is a zero, and only then: in
    [execute] of the two operations, in the postfix evaluation of
    [a b /] and [a b %], and for the inputs ["1/0"] and ["1%0"]. *)
Theorem division_by_zero_exactly_on_zero (a b : number) :
  (fails (execute DivisionOperation a b) DIVISION_BY_ZERO <->
     num_eqb b zero = true) /\
  (fails (execute ModuloOperation a b) DIVISION_BY_ZERO <->
     num_eqb b zero = true) /\
  (fails (_evaluateRPN [RNumber a; RNumber b; RSymbol "/"]) DIVISION_BY_ZERO
     <-> num_eqb b zero = true) /\
  (fails (_evaluateRPN [RNumber a; RNumber b; RSymbol "%"]) DIVISION_BY_ZERO
     <-> num_eqb b zero = true) /\
  fails (CalculationEngine.calculate (VString "1/0")) DIVISION_BY_ZERO /\
  fails (CalculationEngine.calculate (VString "1%0")) DIVISION_BY_ZERO.
Proof.
  split; [apply execute_division |].
  split; [apply execute_modulo |].
  split; [apply evaluateRPN_zero_divisor; left; reflexivity |].
  split; [apply evaluateRPN_zero_divisor; right; reflexivity |].
  split; eexists; (split; [vm_compute; reflexivity | reflexivity]).
Qed.

(** ** [calculate()] without a pending operation *)

(** C10: when no operator is pending or [previousInput] is empty,
    [calculate()] returns normally and leaves every field of the state
    as it was. *)
Theorem calculate_without_pending_operation
  (now : string) (st : CalculatorState) :
  noOperator (operator st) = true \/ previousInput st = "" ->
  calculate now st = (st, Normal).
Proof.
  intros H; unfold calculate.
  destruct H as [-> | ->]; [reflexivity |].
  rewrite String.eqb_refl, orb_true_r; reflexivity.
Qed.

Lemma calculate_without_pending_operation_witness :
  calculate "t" reset = (reset, Normal) /\
  calculate "t" (mkState "3" "" (Some "+") false [] None)
    = (mkState "3" "" (Some "+") false [] None, Normal).
Proof.
  split.
  - apply (calculate_without_pending_operation "t" reset).
    left; reflexivity.
  - apply (calculate_without_pending_operation "t"
             (mkState "3" "" (Some "+") false [] None)).
    right; reflexivity.
Defined.

(** ** Validation *)

(** A pattern that matches finds each of its literal characters, up to
    case, in the string. *)
Lemma matchesHere_chars (p : list patternItem) :
  forall s c, matchesHere p s = true -> In (Lit c) p ->
  exists d, includes d s = true /\ Ascii.eqb (toLower d) (toLower c) = true.
Proof.
  induction p as [| [c0 |] p IH]; intros s c Hm Hin; [destruct Hin | |].
  - destruct s as [| d r]; [discriminate Hm |].
    cbn in Hm; apply andb_true_iff in Hm; destruct Hm as [Hd Hr].
    destruct Hin as [Heq | Hin].
    + injection Heq as <-; exists d; split; [| exact Hd].
      cbn; rewrite Ascii.eqb_refl; reflexivity.
    + destruct (IH r c Hr Hin) as [d' [Hin' Hd']]; exists d'; split; trivial.
      cbn; rewrite Hin'; apply orb_true_r.
  - destruct s as [| d r]; [discriminate Hm |].
    cbn in Hm; apply andb_true_iff in Hm; destruct Hm as [_ Hr].
    destruct Hin as [Heq | Hin]; [discriminate Heq |].
    destruct (IH _ c Hr Hin) as [d' [Hin' Hd']]; exists d'; split; trivial.
    cbn; rewrite (includes_trimStart _ _ Hin'); apply orb_true_r.
Qed.

Lemma test_chars (p : list patternItem) (c : ascii) (s : string) :
  test p s = true -> In (Lit c) p ->
  exists d, includes d s = true /\ Ascii.eqb (toLower d) (toLower c) = true.
Proof.
  intros Ht Hin; induction s as [| x r IH]; cbn [test] in Ht;
    apply orb_true_iff in Ht; destruct Ht as [Hm | Hr];
    try (apply (matchesHere_chars p _ c Hm Hin)); [discriminate Hr |].
  destruct (IH Hr) as [d [Hd Heq]]; exists d; split; [| exact Heq].
  cbn; rewrite Hd; apply orb_true_r.
Qed.

Lemma test_needs_char (p : list patternItem) (c : ascii) (s : string) :
  In (Lit c) p ->
  (forall d, includes d s = true ->
             Ascii.eqb (toLower d) (toLower c) = false) ->
  test p s = false.
Proof.
  intros Hin; induction s as [| x r IH]; intros Hno.
  - cbn; rewrite orb_false_r.
    destruct (matchesHere p "") eqn:Hm; [| reflexivity].
    destruct (matchesHere_chars p _ c Hm Hin) as [d [Hd _]]; discriminate Hd.
  - cbn [test]; rewrite IH.
    + rewrite orb_false_r.
      destruct (matchesHere p (String x r)) eqn:Hm; [| reflexivity].
      destruct (matchesHere_chars p _ c Hm Hin) as [d [Hd Heq]].
      rewrite (Hno d Hd) in Heq; discriminate Heq.
    + intros d Hd; apply Hno; cbn; rewrite Hd; apply orb_true_r.
Qed.

Lemma test_append_l (p : list patternItem) (pre x : string) :
  test p x = true -> test p (pre ++ x) = true.
Proof.
  intros H; induction pre as [| c pre IH]; cbn [append test]; [exact H |].
  rewrite IH; apply orb_true_r.
Qed.

Lemma test_matchesHere (p : list patternItem) (x : string) :
  matchesHere p x = true -> test p x = true.
Proof. intros H; destruct x; cbn [test]; rewrite H; reflexivity. Qed.

Lemma matchesHere_literal (u : string) :
  forall m post, lowerString m = lowerString u ->
                 matchesHere (literal u) (m ++ post) = true.
Proof.
  induction u as [| x u IH]; intros m post Hl; [reflexivity |].
  destruct m as [| y m]; [discriminate Hl |].
  cbn in Hl; injection Hl as Hxy Hrest.
  cbn; rewrite Hxy, Ascii.eqb_refl; apply IH, Hrest.
Qed.

(** A character that matches one of these letters without case is
    outside the accepted class. *)
Lemma letter_invalid (c d : ascii) :
  In c ["e"; "f"; "n"; "c"; "_"; "p"; "r"; "i"]%char ->
  Ascii.eqb (toLower d) (toLower c) = true -> validChar d = false.
Proof.
  intros Hc; cbn in Hc.
  repeat (destruct Hc as [<- | Hc]); try destruct Hc;
    destruct d as [[] [] [] [] [] [] [] []]; vm_compute; intros H;
    try discriminate H; reflexivity.
Qed.

(** Every denylist pattern holds a letter or an underscore, so a string
    that matches one has a character outside the accepted class. *)
Lemma denylisted_invalid (s : string) :
  denylisted s = true -> hasInvalidChar s.
Proof.
  assert (Hp : forall p c,
             In c ["e"; "f"; "n"; "c"; "_"; "p"; "r"; "i"]%char ->
             In (Lit c) p -> test p s = true -> hasInvalidChar s).
  { intros p c Hc Hin Ht; destruct (test_chars p c s Ht Hin) as [d [Hd Heq]].
    exists d; split; [exact Hd | apply (letter_invalid c d Hc Heq)]. }
  unfold denylisted, dangerousPatterns; cbn [existsb]; intros H.
  repeat (apply orb_true_iff in H; destruct H as [H | H]);
    [ apply (Hp _ "e"%char) in H | apply (Hp _ "f"%char) in H
    | apply (Hp _ "n"%char) in H | apply (Hp _ "c"%char) in H
    | apply (Hp _ "_"%char) in H | apply (Hp _ "p"%char) in H
    | apply (Hp _ "r"%char) in H | apply (Hp _ "i"%char) in H
    | discriminate H ];
    trivial; cbn; tauto.
Qed.

Lemma lowerString_chars (u : string) :
  forall m c, lowerString m = lowerString u -> includes c u = true ->
  exists d, includes d m = true /\ Ascii.eqb (toLower d) (toLower c) = true.
Proof.
  induction u as [| x u IH]; intros m c Hl Hc; [discriminate Hc |].
  destruct m as [| y m]; [discriminate Hl |].
  cbn in Hl; injection Hl as Hxy Hrest.
  cbn in Hc; apply orb_true_iff in Hc; destruct Hc as [Hc | Hc].
  - apply Ascii.eqb_eq in Hc; subst c; exists y; split.
    + cbn; rewrite Ascii.eqb_refl; reflexivity.
    + rewrite Hxy; apply Ascii.eqb_refl.
  - destruct (IH m c Hrest Hc) as [d [Hd Heq]]; exists d; split; trivial.
    cbn; rewrite Hd; apply orb_true_r.
Qed.

(** A string that holds one of the listed unsafe substrings has a
    character outside the accepted class. *)
Lemma mentionsUnsafe_invalid (s : string) :
  mentionsUnsafe s -> hasInvalidChar s.
Proof.
  intros [u [Hu [pre [m [post [-> Hl]]]]]].
  assert (Hc : exists c, In c ["e"; "f"; "n"; "c"; "_"; "p"; "r"; "i"]%char /\
                         includes c u = true).
  { cbn in Hu.
    repeat (destruct Hu as [<- | Hu]); try destruct Hu;
      [ exists "e"%char | exists "f"%char | exists "n"%char | exists "c"%char
      | exists "_"%char | exists "p"%char | exists "r"%char | exists "i"%char ];
      split; try reflexivity; cbn; tauto. }
  destruct Hc as [c [Hc Hin]].
  destruct (lowerString_chars u m c Hl Hin) as [d [Hd Heq]].
  exists d; split; [| apply (letter_invalid c d Hc Heq)].
  rewrite !includes_append, Hd, orb_true_r; reflexivity.
Qed.

Lemma toLower_space (d : ascii) : toLower d = " "%char -> d = " "%char.
Proof.
  destruct d as [[] [] [] [] [] [] [] []]; vm_compute; intros H;
    try discriminate H; reflexivity.
Qed.

Lemma toLower_f (d : ascii) :
  toLower d = "f"%char -> isWhiteSpace d = false.
Proof.
  destruct d as [[] [] [] [] [] [] [] []]; vm_compute; intros H;
    try discriminate H; reflexivity.
Qed.

(** The patterns of the code cover the substrings of the list. *)
Lemma mentionsUnsafe_denylisted (s : string) :
  mentionsUnsafe s -> denylisted s = true.
Proof.
  intros [u [Hu [pre [m [post [-> Hl]]]]]].
  assert (Hlit : In (literal u) dangerousPatterns ->
                 denylisted (pre ++ m ++ post) = true).
  { intros Hin; unfold denylisted; apply existsb_exists.
    exists (literal u); split; [exact Hin |].
    apply test_append_l, test_matchesHere, matchesHere_literal, Hl. }
  cbn in Hu.
  destruct Hu as [<- | [<- | [<- | Hu]]];
    [apply Hlit; cbn; tauto | apply Hlit; cbn; tauto | |
     repeat (destruct Hu as [<- | Hu]); try destruct Hu;
     apply Hlit; cbn; tauto].
  unfold denylisted; apply existsb_exists.
  exists (literal "new" ++ Spaces :: literal "Function")%list.
  split; [cbn; tauto |].
  apply test_append_l, test_matchesHere.
  do 12 (destruct m as [| ? m]; [discriminate Hl |]).
  destruct m; [| discriminate Hl].
  cbn in Hl; injection Hl as H1 H2 H3 H4 H5 H6 H7 H8 H9 H10 H11 H12.
  apply toLower_space in H4; subst.
  cbn [append literal app matchesHere].
  rewrite H1, H2, H3; cbn [toLower code N_of_ascii Ascii.eqb]; cbn.
  rewrite (toLower_f _ H5), H5, H6, H7, H8, H9, H10, H11, H12; reflexivity.
Qed.

Lemma paren_step (c : ascii) (b : Z) :
  (let b1 := if Ascii.eqb c "(" then b + 1 else b in
   if Ascii.eqb c ")" then b1 - 1 else b1) =
  b + ((if Ascii.eqb c "(" then 1 else 0) - (if Ascii.eqb c ")" then 1 else 0)).
Proof.
  cbv zeta; destruct (Ascii.eqb c "(") eqn:H1; destruct (Ascii.eqb c ")") eqn:H2;
    lia.
Qed.

(** The loop of the validator ends with a non-zero balance exactly when
    the running balance went negative or the total is not zero. *)
Lemma balanceLoop_spec (s : string) (b : Z) :
  0 <= b ->
  (balanceLoop s b <> 0 <->
   (exists n : nat, b + parenBalance (substring 0 n s) < 0) \/
   b + parenBalance s <> 0).
Proof.
  revert b; induction s as [| c r IH]; intros b Hb.
  - cbn; split.
    + intros H; right; lia.
    + intros [[n Hn] | H]; [destruct n; cbn in Hn; lia | lia].
  - cbn [balanceLoop]; rewrite paren_step.
    set (d := (if Ascii.eqb c "(" then 1 else 0)
              - (if Ascii.eqb c ")" then 1 else 0)).
    destruct (b + d <? 0) eqn:Hneg.
    + apply Z.ltb_lt in Hneg; split; [intros _ | lia].
      left; exists 1%nat; cbn; fold d.
      replace (substring 0 0 r) with "" by (destruct r; reflexivity).
      cbn; lia.
    + apply Z.ltb_ge in Hneg; rewrite (IH (b + d) Hneg).
      cbn [parenBalance]; fold d; split.
      * intros [[n Hn] | H]; [left; exists (S n); cbn; fold d; lia | right; lia].
      * intros [[n Hn] | H]; [| right; lia].
        destruct n as [| n]; [cbn in Hn; lia |].
        left; exists n; cbn in Hn; fold d in Hn; lia.
Qed.

Lemma balanceLoop_unbalanced (s : string) :
  (balanceLoop s 0 =? 0) = false <-> unbalanced s.
Proof.
  rewrite Z.eqb_neq, balanceLoop_spec by lia.
  unfold unbalanced, goesNegative; cbn; tauto.
Qed.

(** C7: [calculate] fails with [INVALID_INPUT] when its argument is not a
    string, is the empty string, holds one of the listed unsafe
    substrings (or matches a denylist pattern of the code) or holds a
    character outside the accepted class; on a non-empty string of
    accepted characters it fails with [SYNTAX_ERROR] when the parenthesis
    balance goes negative or ends non-zero.  In each case the error is the
    one thrown by [_validateExpression], before conversion and evaluation,
    and no value is returned. *)
Theorem validation_rejects (v : value) :
  ((forall s, v <> VString s) -> rejected v INVALID_INPUT) /\
  (forall s, v = VString s ->
     s = "" \/ mentionsUnsafe s \/ denylisted s = true \/ hasInvalidChar s ->
     rejected v INVALID_INPUT) /\
  (forall s, v = VString s ->
     s <> "" -> ~ hasInvalidChar s -> unbalanced s ->
     rejected v SYNTAX_ERROR) /\
  (forall t, rejected v t ->
     fails (CalculationEngine.calculate v) t /\
     forall r, CalculationEngine.calculate v <> Return r).
Proof.
  assert (Hrej : forall e, _validateExpression v = Throw e ->
                           rejected v (type e)).
  { intros e He; exists e; repeat split; trivial.
    apply validate_throw_calculate; exact He. }
  split; [| split; [| split]].
  - intros Hns; destruct v as [s | | | | |];
      try (apply (Hrej (mkError "Expression must be a string" INVALID_INPUT));
           reflexivity).
    elim (Hns s); reflexivity.
  - intros s -> H.
    destruct (String.length s =? 0)%nat eqn:Hlen.
    { apply (Hrej (mkError "Expression cannot be empty" INVALID_INPUT)).
      cbn [_validateExpression]; rewrite Hlen; reflexivity. }
    destruct (denylisted s) eqn:Hdeny.
    { apply (Hrej (mkError "Invalid expression pattern detected" INVALID_INPUT)).
      cbn [_validateExpression]; rewrite Hlen.
      unfold denylisted in Hdeny; rewrite Hdeny; reflexivity. }
    destruct H as [-> | [H | [H | H]]];
      [discriminate Hlen
      | apply mentionsUnsafe_denylisted in H; congruence
      | discriminate H |].
    apply (Hrej (mkError "Expression contains invalid characters" INVALID_INPUT)).
    cbn [_validateExpression]; rewrite Hlen.
    unfold denylisted in Hdeny; rewrite Hdeny.
    apply allChars_false_iff in H.
    unfold validChars; rewrite H, andb_false_r; reflexivity.
  - intros s -> Hne Hchars Hunb.
    assert (Hdeny : denylisted s = false).
    { destruct (denylisted s) eqn:Hd; [| reflexivity].
      elim Hchars; apply denylisted_invalid, Hd. }
    apply (Hrej (mkError "Mismatched parentheses" SYNTAX_ERROR)).
    cbn [_validateExpression].
    destruct (String.length s =? 0)%nat eqn:Hlen;
      [apply length_zero_iff in Hlen; contradiction |].
    unfold denylisted in Hdeny; rewrite Hdeny.
    destruct (allChars validChar s) eqn:Hall;
      [| apply allChars_false_iff in Hall; contradiction].
    unfold validChars; rewrite Hall.
    apply String.eqb_neq in Hne; rewrite Hne.
    apply balanceLoop_unbalanced in Hunb; rewrite Hunb; reflexivity.
  - intros t Hr; split; [apply rejected_fails; exact Hr |].
    destruct Hr as [e [_ [He _]]]; rewrite He; discriminate.
Qed.

Lemma validation_rejects_witness :
  rejected (VNumber one) INVALID_INPUT /\
  rejected (VString "") INVALID_INPUT /\
  rejected (VString "eval(1)") INVALID_INPUT /\
  rejected (VString "2^3") INVALID_INPUT /\
  rejected (VString "(1+2") SYNTAX_ERROR /\
  rejected (VString "1)+(2") SYNTAX_ERROR.
Proof.
  split; [| split; [| split; [| split; [| split]]]].
  - apply (validation_rejects (VNumber one)); discriminate.
  - apply (proj1 (proj2 (validation_rejects (VString ""))) "" eq_refl).
    left; reflexivity.
  - apply (proj1 (proj2 (validation_rejects (VString "eval(1)"))) _ eq_refl).
    right; left; exists "eval("; split; [cbn; tauto |].
    exists "", "eval(", "1)"; split; reflexivity.
  - apply (proj1 (proj2 (validation_rejects (VString "2^3"))) _ eq_refl).
    right; right; right; exists "^"%char; split; reflexivity.
  - apply (proj1 (proj2 (proj2 (validation_rejects (VString "(1+2")))) _ eq_refl).
    + discriminate.
    + intros H; apply allChars_false_iff in H; discriminate H.
    + right; cbn; lia.
  - apply (proj1 (proj2 (proj2 (validation_rejects (VString "1)+(2")))) _ eq_refl).
    + discriminate.
    + intros H; apply allChars_false_iff in H; discriminate H.
    + left; exists 2%nat; cbn; lia.
Defined.

(** ** History *)

Lemma lastN_push (log : list HistoryEntry) (e : HistoryEntry) :
  pushHistory (lastN 10 log) e = lastN 10 (log ++ [e]).
Proof.
  unfold pushHistory, lastN.
  rewrite !length_app, length_skipn; cbn [List.length].
  destruct (Nat.le_gt_cases 10 (List.length log)) as [Hge | Hlt].
  - replace (10 <? List.length log - (List.length log - 10) + 1)%nat with true
      by (symmetry; apply Nat.ltb_lt; lia).
    replace (List.length log + 1 - 10)%nat with (S (List.length log - 10))
      by lia.
    rewrite <- tl_skipn, skipn_app.
    replace (List.length log - 10 - List.length log)%nat with 0%nat by lia.
    cbn [skipn].
    destruct (skipn (List.length log - 10) log) eqn:Hs; [| reflexivity].
    apply (f_equal (@List.length _)) in Hs; rewrite length_skipn in Hs.
    cbn in Hs; lia.
  - replace (10 <? List.length log - (List.length log - 10) + 1)%nat with false
      by (symmetry; apply Nat.ltb_ge; lia).
    replace (List.length log - 10)%nat with 0%nat by lia.
    replace (List.length log + 1 - 10)%nat with 0%nat by lia.
    reflexivity.
Qed.

Lemma history_calculate (now : string) (st : CalculatorState) :
  history (fst (calculate now st)) =
  match evaluates st with
  | Some xr => pushHistory (history st) (mkEntry (fst xr) (snd xr) now)
  | None => history st
  end.
Proof.
  unfold calculate, evaluates.
  destruct (noOperator (operator st) || (previousInput st =? "")%string);
    [reflexivity |].
  destruct (CalculationEngine.calculate (VString (expressionOf st))); reflexivity.
Qed.

Lemma history_step (st : CalculatorState) (c : Call) :
  history (step st c) =
  match c with
  | Clear => []
  | _ =>
      match recorded st c with
      | Some e => pushHistory (history st) e
      | None => history st
      end
  end.
Proof.
  destruct c as [v | op now | now | |]; cbn [step recorded].
  - unfold updateInput, setCurrentInput.
    repeat match goal with |- context [if ?b then _ else _] => destruct b end;
      reflexivity.
  - unfold applyOperator.
    destruct (negb (noOperator (operator st)) && negb (shouldResetDisplay st)).
    + pose proof (history_calculate now st) as H.
      destruct (calculate now st) as [st1 [| e]]; cbn [fst] in *;
        rewrite H; destruct (evaluates st); reflexivity.
    + reflexivity.
  - rewrite history_calculate; destruct (evaluates st); reflexivity.
  - unfold backspace, setCurrentInput.
    destruct (1 <? String.length (currentInput st))%nat; reflexivity.
  - reflexivity.
Qed.

Lemma history_run (calls : list Call) (st : CalculatorState)
  (log : list HistoryEntry) :
  history st = lastN 10 log ->
  history (run calls st) = lastN 10 (successes calls st log).
Proof.
  revert st log; induction calls as [| c rest IH]; intros st log Hinv.
  - exact Hinv.
  - cbn [run fold_left successes]; apply IH.
    rewrite history_step; destruct c; try (destruct (recorded st _));
      try rewrite Hinv; try apply lastN_push; reflexivity.
Qed.

(** C9: after any sequence of calls on a fresh state, [getHistory()] is
    the list of the last 10 successful calculations made since the last
    [clear()], oldest first; with more than 10 of them it has exactly 10
    entries; [clear()] empties it. *)
Theorem history_keeps_last_ten (calls : list Call) :
  let st := run calls reset in
  let done := successes calls reset [] in
  getHistory st = lastN 10 done /\
  ((10 < List.length done)%nat -> List.length (getHistory st) = 10%nat) /\
  getHistory (clear st) = [].
Proof.
  cbv zeta; unfold getHistory.
  assert (H : history (run calls reset) = lastN 10 (successes calls reset []))
    by (apply history_run; reflexivity).
  split; [exact H | split; [| reflexivity]].
  intros Hlen; rewrite H, length_lastN; lia.
Qed.

Lemma history_keeps_last_ten_witness :
  List.length (successes twelve_sums reset []) = 12%nat /\
  List.length (getHistory (run twelve_sums reset)) = 10%nat /\
  map entry_expression (getHistory (run twelve_sums reset)) =
    ["3+1"; "4+1"; "5+1"; "6+1"; "7+1"; "8+1"; "9+1"; "1+1"; "2+1"; "3+1"].
Proof.
  split; [vm_compute; reflexivity |].
  split.
  - apply (proj1 (proj2 (history_keeps_last_ten twelve_sums))).
    vm_compute; repeat constructor.
  - rewrite (proj1 (history_keeps_last_ten twelve_sums)).
    vm_compute; reflexivity.
Defined.

(** ** Rounding of the result *)

Lemma evaluate_is_roundResult (s : string) (rpn : list rpnItem) (raw : number) :
  _validateExpression (VString s) = Return s ->
  _toReversePolishNotation s = Return rpn ->
  rawResult rpn = Return raw ->
  CalculationEngine.calculate (VString s) = Return (_roundResult raw).
Proof.
  intros Hv Hr Hraw; unfold CalculationEngine.calculate, _evaluateRPN.
  rewrite Hv; cbn [bind]; rewrite Hr; cbn [bind]; rewrite Hraw; reflexivity.
Qed.

Example evaluate_3_14_plus_2_86 :
  CalculationEngine.calculate (VString "3.14+2.86") = Return (ofZ 6) /\
  CalculationEngine.calculate (VString "2+2") = Return (ofZ 4).
Proof. split; vm_compute; reflexivity. Qed.

(** C8, at the input ["1000000000000000000000"]: the raw result is 10^21,
    a whole number that the rounding to 10 decimal places leaves as it
    is, and the engine returns 1.  [parseInt] reads the digits of the
    string form ["1e+21"] of the rounded value up to the [e].  The keypad
    reaches the same: 9999999999999999 * 9999999999999999 = displays
    ["1"]. *)
Theorem whole_result_past_1e21_is_truncated :
  _validateExpression (VString tenTo21) = Return tenTo21 /\
  (rpn <- _toReversePolishNotation tenTo21 ;; rawResult rpn)
    = Return (ofZ (10 ^ 21)) /\
  roundedAsSpecified (ofZ (10 ^ 21)) = ofZ (10 ^ 21) /\
  Number_toString (ofZ (10 ^ 21)) = "1e+21" /\
  _roundResult (ofZ (10 ^ 21)) = one /\
  CalculationEngine.calculate (VString tenTo21) = Return one /\
  one <> ofZ (10 ^ 21) /\
  getDisplayValue (run nines_squared reset) = "1".
Proof.
  repeat split; try (vm_compute; reflexivity).
  vm_compute; discriminate.
Qed.

(** ** Malformed numeric tokens *)

(** C4 as stated fails: ["1.2.3 4"] passes validation, its first token is
    the malformed run ["1.2.3"], and the engine returns 4. *)
Lemma malformed_token_is_dropped :
  _validateExpression (VString "1.2.3 4") = Return "1.2.3 4" /\
  _tokenizeExpression "1.2.3 4" = ["1.2.3"; "4"] /\
  malformedRun "1.2.3" /\
  CalculationEngine.calculate (VString "1.2.3 4") = Return (ofZ 4) /\
  ~ fails (CalculationEngine.calculate (VString "1.2.3 4")) SYNTAX_ERROR.
Proof.
  split; [vm_compute; reflexivity |].
  split; [vm_compute; reflexivity |].
  split; [unfold malformedRun; split;
          [discriminate | split; vm_compute; reflexivity] |].
  assert (H : CalculationEngine.calculate (VString "1.2.3 4") = Return (ofZ 4))
    by (vm_compute; reflexivity).
  split; [exact H | rewrite H; apply fails_Return].
Qed.

Lemma digitOrDot_cases (d : ascii) :
  digitOrDot d = true ->
  In d ["0"; "1"; "2"; "3"; "4"; "5"; "6"; "7"; "8"; "9"; "."]%char.
Proof.
  destruct d as [[] [] [] [] [] [] [] []]; vm_compute; intros H;
    try discriminate H; tauto.
Qed.

(** No denylist pattern matches a string of digits and dots: each pattern
    holds a letter or an underscore. *)
Lemma digits_not_denylisted (s : string) :
  allChars digitOrDot s = true -> denylisted s = false.
Proof.
  intros Hall.
  assert (Hno : forall c,
             In c ["e"; "f"; "n"; "c"; "_"; "p"; "r"; "i"]%char ->
             forall d, includes d s = true ->
                       Ascii.eqb (toLower d) (toLower c) = false).
  { intros c Hc d Hd.
    pose proof (digitOrDot_cases d (allChars_includes _ _ _ Hall Hd)) as Hcases.
    cbn in Hc, Hcases.
    repeat (destruct Hc as [<- | Hc]);
      try (repeat (destruct Hcases as [<- | Hcases]);
           try reflexivity; destruct Hcases);
      destruct Hc. }
  unfold denylisted, dangerousPatterns; cbn [existsb].
  rewrite (test_needs_char _ "e"%char s), (test_needs_char _ "f"%char s),
    (test_needs_char _ "n"%char s), (test_needs_char _ "c"%char s),
    (test_needs_char _ "_"%char s), (test_needs_char _ "p"%char s),
    (test_needs_char _ "r"%char s), (test_needs_char _ "i"%char s);
    try reflexivity;
    try (apply Hno; cbn; tauto);
    cbn; tauto.
Qed.

Lemma digitOrDot_valid (c : ascii) : digitOrDot c = true -> validChar c = true.
Proof.
  intros H; apply digitOrDot_cases in H; cbn in H.
  repeat (destruct H as [<- | H]); try reflexivity; destruct H.
Qed.

Lemma balanceLoop_digits (s : string) (b : Z) :
  0 <= b -> allChars digitOrDot s = true -> balanceLoop s b = b.
Proof.
  intros Hb; induction s as [| c r IH]; cbn [balanceLoop allChars];
    [reflexivity |].
  intros H; apply andb_true_iff in H; destruct H as [Hc Hr].
  apply digitOrDot_cases in Hc; cbn in Hc.
  repeat (destruct Hc as [<- | Hc]); try destruct Hc; cbn;
    (replace (b <? 0) with false by (symmetry; apply Z.ltb_ge; exact Hb));
    apply IH; exact Hr.
Qed.

Lemma validate_digits (t : string) :
  t <> "" -> allChars digitOrDot t = true ->
  _validateExpression (VString t) = Return t.
Proof.
  intros Hne Hall; cbn [_validateExpression].
  destruct (String.length t =? 0)%nat eqn:Hlen;
    [apply length_zero_iff in Hlen; contradiction |].
  pose proof (digits_not_denylisted t Hall) as Hd; unfold denylisted in Hd.
  rewrite Hd; unfold validChars.
  rewrite (allChars_impl _ _ _ digitOrDot_valid Hall).
  apply String.eqb_neq in Hne; rewrite Hne; cbn [negb andb].
  rewrite (balanceLoop_digits t 0) by (trivial; lia); reflexivity.
Qed.

Lemma tokenizeLoop_digits (s cur : string) (tokens : list string) :
  allChars digitOrDot s = true ->
  tokenizeLoop s cur tokens = flushNumber tokens (cur ++ s).
Proof.
  revert cur; induction s as [| c r IH]; intros cur; cbn [tokenizeLoop allChars].
  - rewrite append_empty_r; reflexivity.
  - intros H; apply andb_true_iff in H; destruct H as [Hc Hr].
    unfold digitOrDot in Hc; rewrite Hc, (IH _ Hr), append_assoc; reflexivity.
Qed.

Lemma tokenize_digits (t : string) :
  t <> "" -> allChars digitOrDot t = true -> _tokenizeExpression t = [t].
Proof.
  intros Hne Hall; unfold _tokenizeExpression.
  rewrite (tokenizeLoop_digits _ _ _ Hall); cbn [append]; unfold flushNumber.
  apply String.eqb_neq in Hne; rewrite Hne; reflexivity.
Qed.

Lemma digits_not_symbol (t : string) :
  t <> "" -> allChars digitOrDot t = true ->
  isOperator t = false /\ (t =? "(")%string = false /\ (t =? ")")%string = false.
Proof.
  intros Hne Hall; destruct t as [| c r]; [contradiction |].
  cbn in Hall; apply andb_true_iff in Hall; destruct Hall as [Hc _].
  apply digitOrDot_cases in Hc; cbn in Hc.
  repeat (destruct Hc as [<- | Hc]); try destruct Hc; repeat split; reflexivity.
Qed.

(** The token loop leaves its two arrays as they are on a malformed run. *)
Lemma shuntToken_malformed (t : string) (st : list string * list rpnItem) :
  malformedRun t -> shuntToken t st = Return st.
Proof.
  intros [Hne [Hall Hnum]]; destruct st as [operators output].
  destruct (digits_not_symbol t Hne Hall) as [Hop [Hl Hr]].
  unfold shuntToken; rewrite Hnum, Hop, Hl, Hr; reflexivity.
Qed.

Lemma shuntLoop_malformed (t : string) (before after : list string) :
  malformedRun t ->
  forall st, shuntLoop (before ++ t :: after) st = shuntLoop (before ++ after) st.
Proof.
  intros Hm; induction before as [| b before IH]; intros st.
  - cbn [app shuntLoop]; rewrite (shuntToken_malformed t st Hm); reflexivity.
  - cbn [app shuntLoop]; destruct (shuntToken b st) as [st' | e]; cbn [bind];
      [apply IH | reflexivity].
Qed.

(** C4, amended: a malformed run of digits and dots is skipped by the
    token loop of the converter, which leaves output and operator stack
    unchanged, so that a token list converts as the list without the run;
    an input that is nothing but such a run converts to the empty postfix
    sequence and fails with [SYNTAX_ERROR]. *)
Theorem malformed_run_alone_is_syntax_error (t : string) :
  malformedRun t ->
  (forall st, shuntToken t st = Return st) /\
  (forall before after st,
     shuntLoop (before ++ t :: after) st = shuntLoop (before ++ after) st) /\
  _toReversePolishNotation t = Return [] /\
  fails (CalculationEngine.calculate (VString t)) SYNTAX_ERROR.
Proof.
  intros Hm; pose proof Hm as [Hne [Hall Hnum]].
  split; [intros st; apply shuntToken_malformed; exact Hm |].
  split; [intros before after st; apply shuntLoop_malformed; exact Hm |].
  assert (Hrpn : _toReversePolishNotation t = Return []).
  { unfold _toReversePolishNotation; rewrite (tokenize_digits t Hne Hall).
    cbn [shuntLoop]; rewrite (shuntToken_malformed t _ Hm); reflexivity. }
  split; [exact Hrpn |].
  unfold CalculationEngine.calculate.
  rewrite (validate_digits t Hne Hall); cbn [bind].
  rewrite Hrpn; cbn; eexists; split; reflexivity.
Qed.

Lemma malformed_run_alone_is_syntax_error_witness :
  malformedRun "1.2.3" /\
  fails (CalculationEngine.calculate (VString "1.2.3")) SYNTAX_ERROR.
Proof.
  assert (H : malformedRun "1.2.3").
  { unfold malformedRun; split; [discriminate |].
    split; vm_compute; reflexivity. }
  split; [exact H |].
  apply (malformed_run_alone_is_syntax_error "1.2.3" H).
Defined.

(** ** The length of typed input *)

(** C3 as stated fails: after 1000000 / 3 = the display holds the 17
    characters of the result. *)
Lemma result_longer_than_display :
  reachable (run million_by_three reset) /\
  currentInput (run million_by_three reset) = "333333.3333333333" /\
  ~ (String.length (currentInput (run million_by_three reset))
       <= MAX_DISPLAY_LENGTH)%nat.
Proof.
  split; [exists million_by_three; split; reflexivity |].
  assert (H : currentInput (run million_by_three reset) = "333333.3333333333")
    by (vm_compute; reflexivity).
  split; [exact H | rewrite H; unfold MAX_DISPLAY_LENGTH; cbn; lia].
Qed.

Lemma isDigitKey_length (v : string) :
  isDigitKey v = true -> String.length v = 1%nat /\ (v =? DECIMAL)%string = false.
Proof.
  destruct v as [| c [| d r]]; cbn; try discriminate.
  intros H; split; [reflexivity |].
  destruct (Ascii.eqb_spec c "."); [subst; discriminate H | reflexivity].
Qed.

Lemma calculate_shouldReset (now : string) (st : CalculatorState) :
  fst (calculate now st) = st \/
  shouldResetDisplay (fst (calculate now st)) = true.
Proof.
  unfold calculate.
  destruct (noOperator (operator st) || (previousInput st =? "")%string);
    [left; reflexivity |].
  destruct (CalculationEngine.calculate (VString (expressionOf st)));
    right; reflexivity.
Qed.

Lemma applyOperator_shouldReset (op now : string) (st : CalculatorState) :
  shouldResetDisplay (fst (applyOperator op now st)) = true.
Proof.
  unfold applyOperator.
  destruct (negb (noOperator (operator st)) && negb (shouldResetDisplay st))
    eqn:Hc; [| reflexivity].
  unfold calculate.
  apply andb_true_iff in Hc; destruct Hc as [Hop _].
  apply negb_true_iff in Hop; rewrite Hop; cbn [orb].
  destruct (previousInput st =? "")%string; [reflexivity |].
  destruct (CalculationEngine.calculate (VString (expressionOf st))); reflexivity.
Qed.

Lemma typedWithinBound_step (st : CalculatorState) (c : Call) :
  digitCall c = true -> typedWithinBound st -> typedWithinBound (step st c).
Proof.
  unfold typedWithinBound; intros Hc Hinv.
  destruct c as [v | op now | now | |]; cbn [step digitCall] in *.
  - destruct (isDigitKey_length v Hc) as [Hlen Hdec].
    unfold updateInput; rewrite Hdec.
    destruct ((currentInput st =? DEFAULT_DISPLAY_VALUE)%string
              || shouldResetDisplay st).
    + cbn; intros _; rewrite Hlen; unfold MAX_DISPLAY_LENGTH; lia.
    + destruct (String.length (currentInput st) <? MAX_DISPLAY_LENGTH)%nat
        eqn:Hlt; [| exact Hinv].
      cbn; intros _; rewrite length_append, Hlen.
      apply Nat.ltb_lt in Hlt; lia.
  - rewrite applyOperator_shouldReset; discriminate.
  - destruct (calculate_shouldReset now st) as [-> | ->];
      [exact Hinv | discriminate].
  - unfold backspace.
    destruct (1 <? String.length (currentInput st))%nat; cbn; intros Hr.
    + rewrite length_dropLast; specialize (Hinv Hr); lia.
    + unfold MAX_DISPLAY_LENGTH; lia.
  - cbn; intros _; unfold MAX_DISPLAY_LENGTH; lia.
Qed.

Lemma forallb_run_invariant (ok : Call -> bool) (P : CalculatorState -> Prop) :
  (forall st c, ok c = true -> P st -> P (step st c)) ->
  forall calls st, forallb ok calls = true -> P st -> P (run calls st).
Proof.
  intros Hstep; induction calls as [| c rest IH]; intros st Hok HP;
    [exact HP |].
  cbn in Hok; apply andb_true_iff in Hok; destruct Hok as [Hc Hrest].
  cbn [run fold_left]; apply IH; [exact Hrest | apply Hstep; assumption].
Qed.

(** C3, amended: in every state reached by digit keys, operators, equals,
    backspace and clear, while the display holds typed input (it is not
    awaiting reset) [currentInput] has at most [MAX_DISPLAY_LENGTH]
    characters, and a digit typed onto a display that already has that
    many is dropped: [updateInput] leaves the state as it is. *)
Theorem typed_input_within_display_length (calls : list Call) :
  forallb digitCall calls = true ->
  (shouldResetDisplay (run calls reset) = false ->
   (String.length (currentInput (run calls reset)) <= MAX_DISPLAY_LENGTH)%nat)
  /\
  (forall v,
     isDigitKey v = true ->
     shouldResetDisplay (run calls reset) = false ->
     currentInput (run calls reset) <> DEFAULT_DISPLAY_VALUE ->
     (MAX_DISPLAY_LENGTH <= String.length (currentInput (run calls reset)))%nat ->
     updateInput v (run calls reset) = run calls reset).
Proof.
  intros Hok; split.
  - apply (forallb_run_invariant digitCall typedWithinBound
             typedWithinBound_step calls reset Hok).
    intros _; unfold MAX_DISPLAY_LENGTH; cbn; lia.
  - intros v Hv Hr Hne Hlen.
    destruct (isDigitKey_length v Hv) as [_ Hdec].
    unfold updateInput; rewrite Hdec, Hr.
    apply String.eqb_neq in Hne; rewrite Hne; cbn [orb].
    replace (String.length (currentInput (run calls reset))
             <? MAX_DISPLAY_LENGTH)%nat with false
      by (symmetry; apply Nat.ltb_ge; exact Hlen).
    reflexivity.
Qed.

Lemma typed_input_within_display_length_witness :
  currentInput (run sixteen_digits reset) = "1234567891234567" /\
  (String.length (currentInput (run sixteen_digits reset))
     <= MAX_DISPLAY_LENGTH)%nat /\
  updateInput "8" (run sixteen_digits reset) = run sixteen_digits reset.
Proof.
  split; [reflexivity |].
  split.
  - apply (proj1 (typed_input_within_display_length sixteen_digits eq_refl)).
    reflexivity.
  - apply (proj2 (typed_input_within_display_length sixteen_digits eq_refl)).
    + reflexivity.
    + reflexivity.
    + intros H; vm_compute in H; discriminate H.
    + vm_compute; apply le_n.
Defined.

(** ** Rounding never yields [NaN] from a finite value *)

Lemma shr_1_nonneg (mrs : shr_record) :
  0 <= shr_m mrs -> 0 <= shr_m (shr_1 mrs).
Proof.
  destruct mrs as [m r s]; destruct m as [| p | p]; cbn; intros H;
    try lia; destruct p; cbn; lia.
Qed.

Lemma iter_shr_1_nonneg (p : positive) :
  forall mrs, 0 <= shr_m mrs -> 0 <= shr_m (iter_pos shr_1 p mrs).
Proof.
  induction p as [p IH | p IH |]; intros mrs H; cbn.
  - apply IH, IH, shr_1_nonneg, H.
  - apply IH, IH, H.
  - apply shr_1_nonneg, H.
Qed.

Lemma shr_fexp_nonneg (m e : Z) (l : location) :
  0 <= m -> 0 <= shr_m (fst (shr_fexp prec emax m e l)).
Proof.
  intros H; unfold shr_fexp, shr.
  assert (H0 : 0 <= shr_m (shr_record_of_loc m l))
    by (destruct l as [| []]; exact H).
  destruct (fexp prec emax (Zdigits2 m + e) - e); cbn [fst]; trivial.
  apply iter_shr_1_nonneg, H0.
Qed.

Lemma round_nearest_even_nonneg (m : Z) (l : location) :
  0 <= m -> 0 <= round_nearest_even m l.
Proof.
  intros H; destruct l as [| []]; cbn; try destruct (Z.even m); lia.
Qed.

(** Rounding a non-negative mantissa gives a zero, a finite value or an
    infinity. *)
Lemma binary_round_aux_not_nan (sx : bool) (mx ex : Z) (lx : location) :
  0 <= mx -> Number_isNaN (binary_round_aux prec emax sx mx ex lx) = false.
Proof.
  intros H; unfold binary_round_aux.
  pose proof (shr_fexp_nonneg mx ex lx H) as H1.
  destruct (shr_fexp prec emax mx ex lx) as [mrs' e']; cbn [fst] in H1.
  pose proof (shr_fexp_nonneg _ e' loc_Exact
                (round_nearest_even_nonneg _ (loc_of_shr_record mrs') H1)) as H2.
  destruct (shr_fexp prec emax _ e' loc_Exact) as [mrs'' e'']; cbn [fst] in H2.
  destruct (shr_m mrs'') as [| m | m]; [reflexivity | | lia].
  destruct (e'' <=? emax - prec); reflexivity.
Qed.

Lemma binary_round_not_nan (sx : bool) (mx : positive) (ex : Z) :
  Number_isNaN (binary_round prec emax sx mx ex) = false.
Proof.
  unfold binary_round.
  destruct (shl_align mx ex _) as [mz ez].
  apply binary_round_aux_not_nan; lia.
Qed.

Lemma binary_normalize_not_nan (m e : Z) (sz : bool) :
  Number_isNaN (binary_normalize prec emax m e sz) = false.
Proof.
  destruct m; cbn [binary_normalize];
    [reflexivity | apply binary_round_not_nan | apply binary_round_not_nan].
Qed.

Lemma ofZ_not_nan (z : Z) : Number_isNaN (ofZ z) = false.
Proof. apply binary_normalize_not_nan. Qed.

Lemma multiplier_finite :
  exists m e, multiplier = S754_finite false m e.
Proof. vm_compute; eexists; eexists; reflexivity. Qed.

Lemma num_mul_multiplier_not_nan (n : number) :
  Number_isFinite n = true -> Number_isNaN (num_mul n multiplier) = false.
Proof.
  destruct multiplier_finite as [m [e ->]].
  destruct n as [s | s | | s mn en]; cbn; try discriminate; intros _;
    [reflexivity |].
  apply binary_round_aux_not_nan; lia.
Qed.

Lemma Math_round_not_nan (x : number) :
  Number_isNaN x = false -> Number_isNaN (Math.round x) = false.
Proof.
  destruct x as [s | s | | s m e]; cbn [Math.round]; trivial; intros _.
  destruct (0 <=? e); [reflexivity |].
  match goal with |- context [if ?b then _ else _] => destruct b end;
    [reflexivity | apply ofZ_not_nan].
Qed.

Lemma num_div_multiplier_not_nan (x : number) :
  Number_isNaN x = false -> Number_isNaN (num_div x multiplier) = false.
Proof.
  destruct multiplier_finite as [m [e ->]].
  destruct x as [s | s | | s mx ex]; cbn [num_div SFdiv]; trivial; intros _.
  unfold SFdiv_core_binary.
  set (m' := match _ with Z0 => _ | Zpos _ => _ | Zneg _ => _ end).
  assert (Hm' : 0 <= m').
  { subst m'.
    match goal with |- 0 <= match ?s with _ => _ end => destruct s end;
      try lia.
    apply Z.shiftl_nonneg; lia. }
  pose proof (Z.div_pos m' (Zpos m) Hm' eq_refl) as Hq.
  unfold Z.div in Hq.
  destruct (Z.div_eucl m' (Zpos m)) as [q r].
  apply binary_round_aux_not_nan; exact Hq.
Qed.

(** ** Numeric literals *)

Lemma digit_cases (c : ascii) :
  isDigitChar c = true ->
  In c ["0"; "1"; "2"; "3"; "4"; "5"; "6"; "7"; "8"; "9"]%char.
Proof.
  destruct c as [[] [] [] [] [] [] [] []]; vm_compute; intros H;
    try discriminate H; tauto.
Qed.

Ltac digit_cases H :=
  apply digit_cases in H; cbn in H;
  repeat (destruct H as [<- | H]); try destruct H.

Lemma digit_facts (c : ascii) :
  isDigitChar c = true ->
  plain c = true /\ Ascii.eqb c "." = false /\
  Ascii.eqb c "+" = false /\ Ascii.eqb c "-" = false.
Proof. intros H; digit_cases H; repeat split; reflexivity. Qed.

Lemma digits_clean (s : string) :
  allChars isDigitChar s = true -> allChars plain s = true.
Proof.
  apply allChars_impl; intros c H; apply digit_facts in H; tauto.
Qed.

Lemma skipDigits_app (a b : string) :
  allChars isDigitChar a = true -> skipDigits (a ++ b) = skipDigits b.
Proof.
  induction a as [| c a IH]; cbn; [reflexivity |].
  intros H; apply andb_true_iff in H; destruct H as [Hc Ha].
  rewrite Hc; apply IH, Ha.
Qed.

Lemma skipDigits_all (a : string) :
  allChars isDigitChar a = true -> skipDigits a = "".
Proof.
  intros H; rewrite <- (append_empty_r a), (skipDigits_app _ _ H); reflexivity.
Qed.

Lemma digitChar_digit (n : Z) : isDigitChar (digitChar (n mod 10)) = true.
Proof.
  pose proof (Z.mod_pos_bound n 10 eq_refl) as H.
  assert (Hc : n mod 10 = 0 \/ n mod 10 = 1 \/ n mod 10 = 2 \/ n mod 10 = 3 \/
               n mod 10 = 4 \/ n mod 10 = 5 \/ n mod 10 = 6 \/ n mod 10 = 7 \/
               n mod 10 = 8 \/ n mod 10 = 9) by lia.
  repeat (destruct Hc as [-> | Hc]); try rewrite Hc; reflexivity.
Qed.

Lemma digitsFuel_shape (fuel : nat) :
  forall n acc,
    exists ds, digitsFuel (S fuel) n acc = ds ++ acc /\ ds <> "" /\
               allChars isDigitChar ds = true.
Proof.
  induction fuel as [| fuel IH]; intros n acc.
  - exists (String (digitChar (n mod 10)) ""); cbn [digitsFuel].
    repeat split; try discriminate.
    + destruct (n <? 10); reflexivity.
    + cbn; rewrite digitChar_digit; reflexivity.
  - cbn [digitsFuel]; destruct (n <? 10).
    + exists (String (digitChar (n mod 10)) ""); repeat split; try discriminate.
      cbn; rewrite digitChar_digit; reflexivity.
    + destruct (IH (n / 10) (String (digitChar (n mod 10)) acc))
        as [ds [Heq [Hne Hall]]].
      cbn [digitsFuel] in Heq; rewrite Heq.
      exists (ds ++ String (digitChar (n mod 10)) ""); repeat split.
      * rewrite append_assoc; reflexivity.
      * destruct ds; [contradiction | discriminate].
      * rewrite allChars_append, Hall; cbn; rewrite digitChar_digit; reflexivity.
Qed.

Lemma digitsOfZ_digits (n : Z) :
  digitsOfZ n <> "" /\ allChars isDigitChar (digitsOfZ n) = true.
Proof.
  unfold digitsOfZ.
  destruct (digitsFuel_shape (Z.to_nat (Z.log2 n)) n "") as [ds [-> [Hne Hall]]].
  rewrite append_empty_r; split; assumption.
Qed.

Lemma exponent_ok (sign E : string) :
  sign = "+" \/ sign = "-" -> E <> "" -> allChars isDigitChar E = true ->
  isExponentPart (String "e" (sign ++ E)) = true.
Proof.
  intros Hs Hne Hall; destruct E as [| c E]; [contradiction |].
  assert (Hc : isDigitChar c = true)
    by (cbn in Hall; apply andb_true_iff in Hall; tauto).
  destruct Hs as [-> | ->]; cbn [isExponentPart append Ascii.eqb Bool.eqb orb andb];
    cbn [startsWithDigit]; rewrite Hc, (skipDigits_all _ Hall); reflexivity.
Qed.

Lemma digits_then_literal (c : ascii) (r : string) :
  isDigitChar c = true -> afterDigits (skipDigits r) = true ->
  isUnsignedLiteral (String c r) = true.
Proof.
  intros Hc Hr; unfold isUnsignedLiteral.
  destruct (digit_facts c Hc) as [_ [-> _]]; rewrite Hc, Hr; apply orb_true_r.
Qed.

Lemma fractionOK_afterDigits (s : string) :
  fractionOK s = true -> afterDigits (skipDigits s) = true.
Proof.
  induction s as [| c r IH]; cbn [fractionOK skipDigits]; [reflexivity |].
  destruct (isDigitChar c); [exact IH |].
  intros H; apply andb_true_iff in H; destruct H as [Hdot Hall].
  cbn [afterDigits]; rewrite Hdot, (skipDigits_all _ Hall); reflexivity.
Qed.

Lemma fractionOK_clean (s : string) : fractionOK s = true -> clean s = true.
Proof.
  unfold clean; induction s as [| c r IH]; cbn [fractionOK allChars];
    [reflexivity |].
  destruct (isDigitChar c) eqn:Hc.
  - intros H; destruct (digit_facts c Hc) as [-> _]; apply IH, H.
  - intros H; apply andb_true_iff in H; destruct H as [Hdot Hall].
    apply Ascii.eqb_eq in Hdot; subst c; cbn.
    apply digits_clean, Hall.
Qed.

(** A typed literal is a numeric literal without sign, and is clean. *)
Lemma typedLiteral_literal (s : string) :
  typedLiteral s = true ->
  startsWithDigit s = true /\ isUnsignedLiteral s = true /\ clean s = true.
Proof.
  unfold typedLiteral; intros H; apply andb_true_iff in H.
  destruct H as [Hd Hf]; split; [exact Hd |].
  split; [| apply fractionOK_clean, Hf].
  destruct s as [| c r]; [discriminate Hd |].
  cbn in Hd; cbn [fractionOK] in Hf; rewrite Hd in Hf.
  apply digits_then_literal; [exact Hd | apply fractionOK_afterDigits, Hf].
Qed.

Lemma fractionOK_app (a t : string) :
  allChars isDigitChar a = true -> fractionOK (a ++ t) = fractionOK t.
Proof.
  induction a as [| c a IH]; cbn; [reflexivity |].
  intros H; apply andb_true_iff in H; destruct H as [Hc Ha].
  rewrite Hc; apply IH, Ha.
Qed.

Lemma startsWithDigit_app (a t : string) :
  a <> "" -> allChars isDigitChar a = true -> startsWithDigit (a ++ t) = true.
Proof.
  destruct a as [| c a]; [contradiction |]; cbn.
  intros _ H; apply andb_true_iff in H; tauto.
Qed.

Lemma substring_prefix_nonempty (n : nat) (s : string) :
  n <> 0%nat -> s <> "" -> substring 0 n s <> "".
Proof.
  destruct n; [contradiction |]; destruct s; [contradiction |]; discriminate.
Qed.

(** Every layout of a non-empty digit string is a literal that starts
    with a digit and holds no white space. *)
Lemma layout_literal (ds : string) (n : Z) :
  ds <> "" -> allChars isDigitChar ds = true ->
  startsWithDigit (layout ds n) = true /\
  isUnsignedLiteral (layout ds n) = true /\
  clean (layout ds n) = true.
Proof.
  intros Hne Hall; unfold layout.
  set (k := Z.of_nat (String.length ds)).
  destruct ((k <=? n) && (n <=? 21)) eqn:H1.
  { apply typedLiteral_literal; unfold typedLiteral.
    rewrite (startsWithDigit_app _ _ Hne Hall), (fractionOK_app _ _ Hall).
    cbn [andb].
    generalize (Z.to_nat (n - k)); intros j; induction j; cbn; trivial. }
  destruct ((0 <? n) && (n <=? 21)) eqn:H2.
  { apply andb_true_iff in H2; destruct H2 as [Hn _]; apply Z.ltb_lt in Hn.
    apply typedLiteral_literal; unfold typedLiteral.
    assert (Ha : allChars isDigitChar (substring 0 (Z.to_nat n) ds) = true)
      by (apply allChars_substring, Hall).
    rewrite startsWithDigit_app, (fractionOK_app _ _ Ha); trivial.
    - cbn; apply allChars_substring, Hall.
    - apply substring_prefix_nonempty; [lia | exact Hne]. }
  destruct ((-6 <? n) && (n <=? 0)) eqn:H3.
  { apply typedLiteral_literal; unfold typedLiteral; cbn.
    rewrite allChars_append, Hall, andb_true_r.
    apply allChars_repeat; reflexivity. }
  set (sign := if 0 <=? n - 1 then "+" else "-").
  assert (Hsign : sign = "+" \/ sign = "-")
    by (subst sign; destruct (0 <=? n - 1); tauto).
  destruct (digitsOfZ_digits (Z.abs (n - 1))) as [HEne HEall].
  assert (Hsc : clean sign = true) by (destruct Hsign as [-> | ->]; reflexivity).
  destruct ds as [| d rest]; [contradiction |].
  cbn in Hall; apply andb_true_iff in Hall; destruct Hall as [Hd Hrest].
  destruct (digit_facts d Hd) as [Hdp _].
  destruct rest as [| d2 rest]; cbn [append].
  - split; [exact Hd |]; split.
    + apply digits_then_literal; [exact Hd |].
      cbn [skipDigits isDigitChar]; change (isDigitChar "e") with false.
      cbn [afterDigits Ascii.eqb Bool.eqb andb].
      apply exponent_ok; assumption.
    + unfold clean in *; cbn [allChars]; rewrite Hdp.
      rewrite allChars_append, Hsc, (digits_clean _ HEall); reflexivity.
  - split; [exact Hd |]; split.
    + apply digits_then_literal; [exact Hd |].
      change (skipDigits (String "." ?x)) with (String "."%char x).
      cbn [skipDigits]; change (isDigitChar ".") with false.
      cbn [afterDigits Ascii.eqb Bool.eqb andb].
      change (String d2 (rest ++ String "e" (sign ++ digitsOfZ (Z.abs (n - 1)))))
        with (String d2 rest ++ String "e" (sign ++ digitsOfZ (Z.abs (n - 1)))).
      rewrite (skipDigits_app _ _ Hrest).
      cbn [skipDigits]; change (isDigitChar "e") with false; cbn iota.
      apply exponent_ok; assumption.
    + pose proof (digits_clean _ Hrest) as Hr; cbn [allChars] in Hr.
      apply andb_true_iff in Hr; destruct Hr as [Hd2 Hr].
      unfold clean in *; cbn [allChars]; rewrite Hdp, Hd2.
      rewrite allChars_append, Hr; cbn [allChars].
      rewrite allChars_append, Hsc, (digits_clean _ HEall); reflexivity.
Qed.

Lemma positiveToString_literal (m : positive) (e : Z) :
  startsWithDigit (positiveToString m e) = true /\
  isUnsignedLiteral (positiveToString m e) = true /\
  clean (positiveToString m e) = true.
Proof.
  unfold positiveToString.
  destruct (shortest 17 m e (exp10 m e) 1) as [s p].
  destruct (stripZeros 400 s p) as [s' p'].
  destruct (digitsOfZ_digits s') as [Hne Hall].
  apply layout_literal; assumption.
Qed.

(** The string form of every number but [NaN] is a numeric literal. *)
Lemma Number_toString_literal (x : number) :
  Number_isNaN x = false ->
  isNumericLiteral (Number_toString x) = true /\
  clean (Number_toString x) = true.
Proof.
  destruct x as [s | s | | s m e]; cbn [Number_isNaN Number_toString];
    try discriminate; intros _.
  - split; reflexivity.
  - destruct s; split; reflexivity.
  - destruct (positiveToString_literal m e) as [Hd [Hl Hc]].
    destruct s; cbn [append].
    + split; [exact Hl | unfold clean in *; cbn; exact Hc].
    + split; [| exact Hc].
      destruct (positiveToString m e) as [| c r]; [discriminate Hd |].
      cbn in Hd; destruct (digit_facts c Hd) as [_ [_ [Hp Hm]]].
      unfold isNumericLiteral; rewrite Hp, Hm; exact Hl.
Qed.

Lemma readDigits_count (s : string) :
  forall acc cnt, (cnt <= snd (fst (readDigits s acc cnt)))%nat.
Proof.
  induction s as [| c r IH]; intros acc cnt; cbn [readDigits];
    [cbn; lia |].
  destruct (isDigitChar c); [| cbn; lia].
  specialize (IH (10 * acc + digitValue c) (S cnt)); lia.
Qed.

Lemma digit_not_space (c : ascii) : isDigitChar c = true -> isWhiteSpace c = false.
Proof.
  intros H; apply digit_facts in H; destruct H as [H _].
  unfold plain in H; apply negb_true_iff in H; exact H.
Qed.

Lemma readDigits_after_digit (s : string) (neg : bool) :
  startsWithDigit s = true ->
  Number_isNaN
    (let '(v, n, _) := readDigits s 0 0 in
     if (n =? 0)%nat then NaN
     else if v =? 0 then S754_zero neg else ofZ (cond_Zopp neg v)) = false.
Proof.
  destruct s as [| c r]; [discriminate |]; cbn [startsWithDigit]; intros Hc.
  cbn [readDigits]; rewrite Hc.
  pose proof (readDigits_count r (10 * 0 + digitValue c) 1) as Hn.
  destruct (readDigits r (10 * 0 + digitValue c) 1) as [[v n] rest].
  cbn [fst snd] in Hn; destruct n as [| n]; [lia |]; cbn [Nat.eqb].
  destruct (v =? 0); [reflexivity | apply ofZ_not_nan].
Qed.

Lemma parseIntString_not_nan (sign : bool) (s : string) :
  startsWithDigit s = true ->
  Number_isNaN (parseIntString ((if sign then "-" else "") ++ s)) = false.
Proof.
  intros Hs; unfold parseIntString; destruct sign; cbn [append trimStart].
  - change (isWhiteSpace "-") with false; cbn iota.
    change (Ascii.eqb "-" "-") with true; cbn iota.
    apply readDigits_after_digit, Hs.
  - destruct s as [| c r]; [discriminate Hs |].
    cbn [startsWithDigit] in Hs; cbn [trimStart].
    rewrite (digit_not_space c Hs).
    destruct (digit_facts c Hs) as [_ [_ [-> ->]]].
    apply (readDigits_after_digit (String c r)); exact Hs.
Qed.

Lemma parseInt_not_nan (x : number) :
  Number_isFinite x = true -> Number_isNaN (parseInt x) = false.
Proof.
  destruct x as [s | s | | s m e]; cbn [Number_isFinite]; try discriminate;
    intros _; unfold parseInt; cbn [Number_toString].
  - reflexivity.
  - apply parseIntString_not_nan, positiveToString_literal.
Qed.

Lemma one_finite : exists m e, one = S754_finite false m e.
Proof. vm_compute; eexists; eexists; reflexivity. Qed.

(** The rounding of a finite value is never [NaN]. *)
Lemma roundResult_not_nan (n : number) :
  Number_isFinite n = true -> Number_isNaN (_roundResult n) = false.
Proof.
  intros Hn; unfold _roundResult.
  destruct (num_ltb (Math.abs n) tiny); [reflexivity |].
  pose proof (num_div_multiplier_not_nan _
                (Math_round_not_nan _ (num_mul_multiplier_not_nan n Hn))) as Hr.
  set (rounded := num_div (Math.round (num_mul n multiplier)) multiplier) in *.
  destruct (num_eqb (num_rem rounded one) zero) eqn:Hrem; [| exact Hr].
  apply parseInt_not_nan.
  destruct one_finite as [m [e Hone]]; rewrite Hone in Hrem.
  destruct rounded as [s | s | | s mr er]; trivial; discriminate Hrem.
Qed.

(** ** The engine on expressions without white space *)

Lemma trimStart_clean (s : string) : clean s = true -> trimStart s = s.
Proof.
  destruct s as [| c r]; cbn; [reflexivity |].
  intros H; apply andb_true_iff in H; destruct H as [Hc _].
  unfold plain in Hc; apply negb_true_iff in Hc; rewrite Hc; reflexivity.
Qed.

Lemma trim_clean (s : string) : clean s = true -> trim s = s.
Proof.
  intros H; unfold trim; rewrite (trimStart_clean s H), trimStart_clean.
  - rewrite rev_string_rev; cbn; apply append_empty_r.
  - unfold clean in *; rewrite allChars_rev_string, H; reflexivity.
Qed.

(** A token without white space that [_isNumber] accepts denotes a
    finite number. *)
Lemma isNumber_parseFloat_finite (t : string) :
  t <> "" -> clean t = true -> _isNumber t = true ->
  Number_isFinite (parseFloat t) = true.
Proof.
  intros Hne Hc; unfold _isNumber, isNaN, isFinite, ToNumber, parseFloat.
  rewrite (trim_clean t Hc), (trimStart_clean t Hc).
  destruct t as [| c r]; [contradiction |].
  destruct (readDecimal (String c r)) as [[v rest] |]; [| discriminate].
  destruct rest; [| discriminate].
  intros H; apply andb_true_iff in H; tauto.
Qed.

Lemma tokenizeLoop_clean (s : string) :
  forall cur tokens,
    clean s = true -> clean cur = true -> Forall cleanToken tokens ->
    Forall cleanToken (tokenizeLoop s cur tokens).
Proof.
  assert (Hflush : forall cur tokens,
             clean cur = true -> Forall cleanToken tokens ->
             Forall cleanToken (flushNumber tokens cur)).
  { intros cur tokens Hc Ht; unfold flushNumber.
    destruct (String.eqb_spec cur ""); [exact Ht |].
    apply Forall_push; [exact Ht | split; assumption]. }
  induction s as [| c r IH]; intros cur tokens Hs Hc Ht; cbn [tokenizeLoop].
  - apply Hflush; assumption.
  - unfold clean in Hs; cbn in Hs; apply andb_true_iff in Hs.
    destruct Hs as [Hpc Hr].
    destruct (_isDigit c || Ascii.eqb c ".").
    + apply IH; trivial.
      unfold clean in *; rewrite allChars_append, Hc; cbn; rewrite Hpc; reflexivity.
    + apply IH; trivial.
      destruct (Ascii.eqb c " "); [apply Hflush; assumption |].
      apply Forall_push; [apply Hflush; assumption |].
      split; [discriminate | unfold clean; cbn; rewrite Hpc; reflexivity].
Qed.

Lemma tokenize_clean (s : string) :
  clean s = true -> Forall cleanToken (_tokenizeExpression s).
Proof.
  intros H; apply tokenizeLoop_clean; [exact H | reflexivity | constructor].
Qed.

Lemma popHigher_finite (op1 : Operation) (operators : list string) :
  forall output r,
    popHigher op1 operators output = Return r ->
    Forall finiteItem output -> Forall finiteItem (snd r).
Proof.
  induction operators as [| top rest IH]; intros output r; cbn [popHigher].
  - intros H; injection H as <-; trivial.
  - destruct ((top =? "(")%string || negb (isOperator top));
      [intros H; injection H as <-; trivial |].
    destruct (createOperation top) as [op2 | e]; cbn [bind]; [| discriminate].
    destruct (precedence op2 >? precedence op1).
    + intros H Hout; apply (IH _ _ H), Forall_push; [exact Hout | exact I].
    + intros H; injection H as <-; trivial.
Qed.

Lemma popToParen_finite (operators : list string) :
  forall output,
    Forall finiteItem output ->
    Forall finiteItem (snd (popToParen operators output)).
Proof.
  induction operators as [| top rest IH]; intros output Hout;
    cbn [popToParen]; [exact Hout |].
  destruct (top =? "(")%string; [exact Hout |].
  apply IH, Forall_push; [exact Hout | exact I].
Qed.

Lemma shuntToken_finite (token : string) (st st' : list string * list rpnItem) :
  cleanToken token ->
  shuntToken token st = Return st' ->
  Forall finiteItem (snd st) -> Forall finiteItem (snd st').
Proof.
  intros [Hne Hc]; destruct st as [operators output]; unfold shuntToken.
  cbn [snd]; destruct (_isNumber token) eqn:Hnum.
  { intros H Hout; injection H as <-; apply Forall_push; [exact Hout |].
    apply isNumber_parseFloat_finite; assumption. }
  destruct (isOperator token).
  { destruct (createOperation token) as [op1 | e]; cbn [bind]; [| discriminate].
    destruct (popHigher op1 operators output) as [r | e] eqn:Hpop; cbn [bind];
      [| discriminate].
    intros H Hout; injection H as <-; cbn [snd].
    apply (popHigher_finite _ _ _ _ Hpop Hout). }
  destruct (token =? "(")%string; [intros H; injection H as <-; trivial |].
  destruct (token =? ")")%string; [| intros H; injection H as <-; trivial].
  pose proof (popToParen_finite operators output) as Hp.
  destruct (popToParen operators output) as [operators' output'].
  intros H Hout; injection H as <-; apply Hp, Hout.
Qed.

Lemma shuntLoop_finite (tokens : list string) :
  forall st st',
    Forall cleanToken tokens ->
    shuntLoop tokens st = Return st' ->
    Forall finiteItem (snd st) -> Forall finiteItem (snd st').
Proof.
  induction tokens as [| token rest IH]; intros st st' Ht; cbn [shuntLoop].
  - intros H; injection H as <-; trivial.
  - inversion Ht as [| ? ? Htok Hrest]; subst.
    destruct (shuntToken token st) as [st1 | e] eqn:H1; cbn [bind];
      [| discriminate].
    intros H Hout; apply (IH _ _ Hrest H).
    apply (shuntToken_finite _ _ _ Htok H1 Hout).
Qed.

Lemma toRPN_finite (s : string) (rpn : list rpnItem) :
  clean s = true -> _toReversePolishNotation s = Return rpn ->
  Forall finiteItem rpn.
Proof.
  intros Hc; unfold _toReversePolishNotation.
  destruct (shuntLoop (_tokenizeExpression s) ([], [])) as [st | e] eqn:Hs;
    cbn [bind]; [| discriminate].
  intros H; injection H as <-; apply Forall_app; split.
  - apply (shuntLoop_finite _ _ _ (tokenize_clean s Hc) Hs); constructor.
  - apply Forall_forall; intros i Hi; apply in_map_iff in Hi.
    destruct Hi as [x [<- _]]; exact I.
Qed.

Lemma evalToken_finite (token : rpnItem) (stack stack' : list number) :
  finiteItem token -> Forall finiteNumber stack ->
  evalToken token stack = Return stack' -> Forall finiteNumber stack'.
Proof.
  intros Htok Hst; destruct token as [n | s]; cbn [evalToken].
  - intros H; injection H as <-; constructor; assumption.
  - destruct (isOperator s); [| intros H; injection H as <-; trivial].
    destruct stack as [| b [| a stack0]]; try discriminate.
    destruct (createOperation s) as [op | e]; cbn [bind]; [| discriminate].
    destruct (execute op a b) as [r | e]; cbn [bind]; [| discriminate].
    destruct (Number_isFinite r) eqn:Hr; cbn [negb].
    + intros H; injection H as <-.
      inversion Hst as [| ? ? _ Hst1]; inversion Hst1; subst.
      constructor; assumption.
    + destruct (num_eqb r Infinity || num_eqb r NegInfinity); discriminate.
Qed.

Lemma evalLoop_finite (rpn : list rpnItem) :
  forall stack stack',
    Forall finiteItem rpn -> Forall finiteNumber stack ->
    evalLoop rpn stack = Return stack' -> Forall finiteNumber stack'.
Proof.
  induction rpn as [| token rest IH]; intros stack stack' Hrpn Hst;
    cbn [evalLoop].
  - intros H; injection H as <-; trivial.
  - inversion Hrpn as [| ? ? Htok Hrest]; subst.
    destruct (evalToken token stack) as [stack1 | e] eqn:H1; cbn [bind];
      [| discriminate].
    apply (IH _ _ Hrest), (evalToken_finite _ _ _ Htok Hst H1).
Qed.

(** On an expression without white space the engine never returns
    [NaN]. *)
Lemma engine_clean_not_nan (s : string) (r : number) :
  clean s = true -> CalculationEngine.calculate (VString s) = Return r ->
  Number_isNaN r = false.
Proof.
  intros Hc; unfold CalculationEngine.calculate.
  destruct (_validateExpression (VString s)) as [s' | e] eqn:Hv; cbn [bind];
    [| discriminate].
  assert (s' = s) as ->.
  { cbn [_validateExpression] in Hv.
    repeat match type of Hv with
           | (if ?b then _ else _) = _ => destruct b; try discriminate Hv
           end.
    injection Hv as <-; reflexivity. }
  destruct (_toReversePolishNotation s) as [rpn | e] eqn:Hrpn; cbn [bind];
    [| discriminate].
  unfold _evaluateRPN, rawResult.
  destruct (evalLoop rpn []) as [stack | e] eqn:Hev; cbn [bind];
    [| discriminate].
  pose proof (evalLoop_finite _ _ _ (toRPN_finite _ _ Hc Hrpn)
                (Forall_nil _) Hev) as Hst.
  destruct stack as [| x [| y stack]]; cbn [bind]; try discriminate.
  intros H; injection H as <-.
  inversion Hst; subst; apply roundResult_not_nan; assumption.
Qed.

(** ** The display contract *)

(** C2 as stated fails: after 5 / 0 = the display holds ["Error"], and
    [backspace()] cuts it to ["Erro"]. *)
Lemma backspace_breaks_error_sentinel :
  reachable (run five_by_zero_backspace reset) /\
  getDisplayValue (run five_by_zero_backspace reset) = "Erro" /\
  ~ displayContract (getDisplayValue (run five_by_zero_backspace reset)).
Proof.
  split; [exists five_by_zero_backspace; split; reflexivity |].
  assert (H : getDisplayValue (run five_by_zero_backspace reset) = "Erro")
    by (vm_compute; reflexivity).
  split; [exact H |].
  rewrite H; intros [Hc | [Hc | Hc]]; vm_compute in Hc; discriminate Hc.
Qed.

Lemma typedLiteral_numeric (s : string) :
  typedLiteral s = true -> isNumericLiteral s = true /\ clean s = true.
Proof.
  intros H; destruct (typedLiteral_literal s H) as [Hd [Hl Hc]].
  split; [| exact Hc].
  destruct s as [| c r]; [discriminate Hd |].
  cbn in Hd; destruct (digit_facts c Hd) as [_ [_ [Hp Hm]]].
  unfold isNumericLiteral; rewrite Hp, Hm; exact Hl.
Qed.

Lemma typedLiteral_digitKey (v : string) :
  isDigitKey v = true -> typedLiteral v = true.
Proof.
  destruct v as [| c [| d r]]; cbn; try discriminate.
  intros H; unfold typedLiteral; cbn; rewrite H; reflexivity.
Qed.

Lemma fractionOK_snoc (s : string) (c : ascii) :
  isDigitChar c = true -> fractionOK s = true ->
  fractionOK (s ++ String c "") = true.
Proof.
  intros Hc; induction s as [| x r IH]; cbn; [rewrite Hc; reflexivity |].
  destruct (isDigitChar x); [exact IH |].
  intros H; apply andb_true_iff in H; destruct H as [-> Hall].
  rewrite allChars_append, Hall; cbn; rewrite Hc; reflexivity.
Qed.

Lemma typedLiteral_append_digit (s v : string) :
  typedLiteral s = true -> isDigitKey v = true -> typedLiteral (s ++ v) = true.
Proof.
  destruct v as [| c [| d r]]; cbn [isDigitKey]; try discriminate.
  unfold typedLiteral; intros H Hc; apply andb_true_iff in H.
  destruct H as [Hd Hf]; rewrite (fractionOK_snoc s c Hc Hf), andb_true_r.
  destruct s; [discriminate Hd | exact Hd].
Qed.

Lemma fractionOK_no_dot (s : string) :
  fractionOK s = true -> includes "." s = false ->
  allChars isDigitChar s = true.
Proof.
  induction s as [| x r IH]; cbn; [reflexivity |].
  intros Hf Hi; apply orb_false_iff in Hi; destruct Hi as [Hx Hr].
  destruct (isDigitChar x); [apply IH; assumption |].
  rewrite Hx in Hf; discriminate Hf.
Qed.

Lemma typedLiteral_append_dot (s : string) :
  typedLiteral s = true -> includes "." s = false ->
  typedLiteral (s ++ ".") = true.
Proof.
  unfold typedLiteral; intros H Hi; apply andb_true_iff in H.
  destruct H as [Hd Hf].
  rewrite (fractionOK_app _ _ (fractionOK_no_dot s Hf Hi)), andb_true_r.
  destruct s; [discriminate Hd | exact Hd].
Qed.

Lemma dropLast_cons (c : ascii) (r : string) :
  r <> "" -> dropLast (String c r) = String c (dropLast r).
Proof.
  destruct r as [| d r]; [contradiction |]; intros _.
  unfold dropLast; cbn [String.length Nat.sub].
  rewrite Nat.sub_0_r; reflexivity.
Qed.

Lemma fractionOK_dropLast (s : string) :
  fractionOK s = true -> fractionOK (dropLast s) = true.
Proof.
  induction s as [| x r IH]; [reflexivity |].
  destruct r as [| y r]; [reflexivity |].
  rewrite dropLast_cons by discriminate.
  cbn [fractionOK]; destruct (isDigitChar x); [exact IH |].
  intros H; apply andb_true_iff in H; destruct H as [-> Hall].
  cbn [andb]; unfold dropLast; apply allChars_substring, Hall.
Qed.

Lemma typedLiteral_dropLast (s : string) :
  typedLiteral s = true -> (1 < String.length s)%nat ->
  typedLiteral (dropLast s) = true.
Proof.
  unfold typedLiteral; intros H Hlen; apply andb_true_iff in H.
  destruct H as [Hd Hf]; rewrite (fractionOK_dropLast s Hf), andb_true_r.
  destruct s as [| c [| d r]]; cbn in Hlen; try lia.
  rewrite dropLast_cons by discriminate; exact Hd.
Qed.

Lemma isOperator_clean (op : string) : isOperator op = true -> clean op = true.
Proof.
  unfold isOperator, OPERATORS; cbn [existsb]; intros H.
  repeat (apply orb_true_iff in H; destruct H as [H | H];
          [apply String.eqb_eq in H; subst; reflexivity |]).
  discriminate H.
Qed.

Lemma displayInvariant_typed (st : CalculatorState) (v : string) (b : bool) :
  displayInvariant st -> typedLiteral v = true ->
  displayInvariant
    (mkState v (previousInput st) (operator st) b
             (history st) (lastCalculation st)).
Proof.
  intros [Hp _ Ho _ _] Hv; destruct (typedLiteral_numeric v Hv) as [Hn Hc].
  constructor; cbn; trivial; left; exact Hn.
Qed.

Lemma displayInvariant_calculate (now : string) (st : CalculatorState) :
  displayInvariant st -> displayInvariant (fst (calculate now st)).
Proof.
  intros Hinv; unfold calculate.
  destruct (noOperator (operator st) || (previousInput st =? "")%string)
    eqn:Hguard; [exact Hinv |].
  apply orb_false_iff in Hguard; destruct Hguard as [Hop _].
  destruct (CalculationEngine.calculate (VString (expressionOf st)))
    as [r | e] eqn:He; cbn [fst].
  - assert (Hc : clean (expressionOf st) = true).
    { destruct Hinv as [Hp Hcur Ho _ _]; unfold expressionOf, clean in *.
      rewrite !allChars_append, Hp, Hcur.
      destruct (operator st) as [op |]; [| discriminate Hop].
      cbn in Ho |- *; apply isOperator_clean in Ho; unfold clean in Ho.
      rewrite Ho; reflexivity. }
    destruct (Number_toString_literal r (engine_clean_not_nan _ _ Hc He))
      as [Hl Hcl].
    constructor; cbn; trivial; [discriminate | left; exact Hl].
  - constructor; cbn; trivial; [discriminate | right; reflexivity].
Qed.

Lemma displayInvariant_step (st : CalculatorState) (c : Call) :
  guardedCall st c = true -> displayInvariant st ->
  displayInvariant (step st c).
Proof.
  intros Hc Hinv; destruct c as [v | op now | now | |];
    cbn [step guardedCall] in *.
  - unfold updateInput.
    destruct (String.eqb_spec v DECIMAL) as [Heq | Hv].
    + rewrite Heq in Hc; cbn in Hc; apply negb_true_iff in Hc.
      destruct (includes "." (currentInput st)) eqn:Hi; [exact Hinv |].
      apply displayInvariant_typed; [exact Hinv |].
      apply typedLiteral_append_dot; [apply Hinv; exact Hc | exact Hi].
    + rewrite andb_false_l, orb_false_r in Hc.
      destruct ((currentInput st =? DEFAULT_DISPLAY_VALUE)%string
                || shouldResetDisplay st) eqn:Hfresh.
      * apply displayInvariant_typed;
          [exact Hinv | apply typedLiteral_digitKey, Hc].
      * apply orb_false_iff in Hfresh; destruct Hfresh as [_ Hr].
        destruct (String.length (currentInput st) <? MAX_DISPLAY_LENGTH)%nat;
          [| exact Hinv].
        apply displayInvariant_typed; [exact Hinv |].
        apply typedLiteral_append_digit; [apply Hinv; exact Hr | exact Hc].
  - unfold applyOperator.
    assert (Hset : forall st1, displayInvariant st1 ->
              displayInvariant
                (mkState (currentInput st1) (currentInput st1) (Some op) true
                         (history st1) (lastCalculation st1))).
    { intros st1 [_ Hcur _ _ Hd]; constructor; cbn; trivial; discriminate. }
    destruct (negb (noOperator (operator st)) && negb (shouldResetDisplay st)).
    + pose proof (displayInvariant_calculate now st Hinv) as H1.
      destruct (calculate now st) as [st1 [| e]]; cbn [fst] in *;
        [apply Hset; exact H1 | exact H1].
    + cbn [fst]; apply Hset; exact Hinv.
  - apply displayInvariant_calculate; exact Hinv.
  - apply negb_true_iff in Hc; unfold backspace.
    destruct (1 <? String.length (currentInput st))%nat eqn:Hlen.
    + apply displayInvariant_typed; [exact Hinv |].
      apply typedLiteral_dropLast; [apply Hinv; exact Hc |].
      apply Nat.ltb_lt; exact Hlen.
    + apply displayInvariant_typed; [exact Hinv | reflexivity].
  - constructor; cbn; trivial; left; reflexivity.
Qed.

Lemma displayInvariant_run (calls : list Call) :
  forall st, guardedRun calls st = true -> displayInvariant st ->
             displayInvariant (run calls st).
Proof.
  induction calls as [| c rest IH]; intros st Hg Hinv; [exact Hinv |].
  cbn in Hg; apply andb_true_iff in Hg; destruct Hg as [Hc Hrest].
  cbn [run fold_left]; apply IH;
    [exact Hrest | apply displayInvariant_step; assumption].
Qed.

(** C2, amended: in every state reached from the initial state by digit
    keys, operators, equals and clear, and by the decimal point and
    backspace used only while the display holds typed input (it is not
    awaiting reset), [getDisplayValue()] is a numeric literal, the default
    ["0"] or the sentinel ["Error"]. *)
Theorem display_contract_on_guarded_runs (calls : list Call) :
  guardedRun calls reset = true ->
  displayContract (getDisplayValue (run calls reset)).
Proof.
  intros Hg.
  assert (H0 : displayInvariant reset)
    by (constructor; cbn; trivial; left; reflexivity).
  destruct (displayInvariant_run calls reset Hg H0) as [_ _ _ _ [Hd | Hd]];
    unfold displayContract, getDisplayValue; tauto.
Qed.

Lemma display_contract_on_guarded_runs_witness :
  displayContract (getDisplayValue (run five_by_zero reset)) /\
  displayContract (getDisplayValue (run three_minus_eight reset)).
Proof.
  split.
  - apply (display_contract_on_guarded_runs five_by_zero); reflexivity.
  - apply (display_contract_on_guarded_runs three_minus_eight); reflexivity.
Defined.

(** * Further properties of the engine and the state machine *)

(** ** The tokenizer *)

Lemma joinTokens_push (tokens : list string) (t : string) :
  joinTokens (pushToken tokens t) = joinTokens tokens ++ t.
Proof.
  unfold pushToken, joinTokens; induction tokens as [| x tokens IH]; cbn.
  - apply append_empty_r.
  - rewrite IH, append_assoc; reflexivity.
Qed.

Lemma joinTokens_flush (tokens : list string) (cur : string) :
  joinTokens (flushNumber tokens cur) = joinTokens tokens ++ cur.
Proof.
  unfold flushNumber; destruct (String.eqb_spec cur "") as [-> | _].
  - rewrite append_empty_r; reflexivity.
  - apply joinTokens_push.
Qed.

Lemma tokenizeLoop_join (s : string) :
  forall cur tokens,
    joinTokens (tokenizeLoop s cur tokens)
    = joinTokens tokens ++ cur ++ removeSpaces s.
Proof.
  induction s as [| c r IH]; intros cur tokens; cbn [tokenizeLoop removeSpaces].
  - rewrite append_empty_r; apply joinTokens_flush.
  - destruct (_isDigit c || Ascii.eqb c ".") eqn:Hd.
    + rewrite IH, append_assoc.
      assert (Ascii.eqb c " " = false) as ->; [| reflexivity].
      destruct (Ascii.eqb_spec c " ") as [-> | _]; [discriminate Hd | reflexivity].
    + rewrite IH; cbn [append].
      destruct (Ascii.eqb c " ").
      * rewrite joinTokens_flush, append_assoc; reflexivity.
      * rewrite joinTokens_push, joinTokens_flush, !append_assoc; reflexivity.
Qed.

Lemma tokenizeLoop_shape (s : string) :
  forall cur tokens,
    allChars digitOrDot cur = true -> Forall tokenShape tokens ->
    Forall tokenShape (tokenizeLoop s cur tokens).
Proof.
  assert (Hflush : forall cur tokens,
             allChars digitOrDot cur = true -> Forall tokenShape tokens ->
             Forall tokenShape (flushNumber tokens cur)).
  { intros cur tokens Hc Ht; unfold flushNumber.
    destruct (String.eqb_spec cur ""); [exact Ht |].
    apply Forall_push; [exact Ht | left; split; assumption]. }
  induction s as [| c r IH]; intros cur tokens Hc Ht; cbn [tokenizeLoop].
  - apply Hflush; assumption.
  - destruct (_isDigit c || Ascii.eqb c ".") eqn:Hd.
    + apply IH; [| exact Ht].
      rewrite allChars_append, Hc; cbn; unfold digitOrDot; rewrite Hd; reflexivity.
    + apply IH; [reflexivity |].
      destruct (Ascii.eqb_spec c " ") as [-> | Hsp]; [apply Hflush; assumption |].
      apply Forall_push; [apply Hflush; assumption |].
      right; exists c; repeat split; assumption.
Qed.

(** X1: the tokenizer loses nothing but spaces: the tokens, written one
    after the other, are the expression without its space characters;
    and every token is a non-empty run of digits and dots or a single
    other character. *)
Theorem tokens_spell_the_expression (s : string) :
  joinTokens (_tokenizeExpression s) = removeSpaces s /\
  Forall tokenShape (_tokenizeExpression s).
Proof.
  unfold _tokenizeExpression; split.
  - rewrite tokenizeLoop_join; reflexivity.
  - apply tokenizeLoop_shape; [reflexivity | constructor].
Qed.

(** ** The validator *)

Lemma validate_returns (v : value) (r : string) :
  _validateExpression v = Return r ->
  v = VString r /\ r <> "" /\ allChars validChar r = true /\
  (balanceLoop r 0 =? 0) = true.
Proof.
  destruct v as [s | | | | |]; cbn [_validateExpression]; try discriminate.
  destruct (String.length s =? 0)%nat eqn:Hlen; [discriminate |].
  destruct (existsb (fun p => test p s) dangerousPatterns); [discriminate |].
  destruct (validChars s) eqn:Hvalid; [| discriminate]; cbn [negb].
  destruct (balanceLoop s 0 =? 0) eqn:Hbal; [| discriminate]; cbn [negb].
  intros H; injection H as <-.
  unfold validChars in Hvalid; apply andb_true_iff in Hvalid.
  destruct Hvalid as [_ Hall].
  split; [reflexivity |].
  split; [intros ->; discriminate Hlen |].
  split; [exact Hall | exact Hbal].
Qed.

Lemma validate_accepts (s : string) :
  s <> "" -> allChars validChar s = true -> (balanceLoop s 0 =? 0) = true ->
  _validateExpression (VString s) = Return s.
Proof.
  intros Hne Hall Hb; cbn [_validateExpression].
  destruct (String.length s =? 0)%nat eqn:Hlen;
    [apply length_zero_iff in Hlen; contradiction |].
  destruct (denylisted s) eqn:Hdeny.
  { apply denylisted_invalid, allChars_false_iff in Hdeny; congruence. }
  unfold denylisted in Hdeny; rewrite Hdeny.
  unfold validChars; rewrite Hall.
  apply String.eqb_neq in Hne; rewrite Hne, Hb; reflexivity.
Qed.


(** X3: the denylist never decides alone.  A string that one of the
    [dangerousPatterns] matches holds a character outside the accepted
    class, so the character check would reject it too, with the same
    error kind. *)
Theorem denylist_hits_only_invalid_characters (s : string) :
  denylisted s = true ->
  hasInvalidChar s /\ validChars s = false /\
  fails (CalculationEngine.calculate (VString s)) INVALID_INPUT.
Proof.
  intros Hd; pose proof (denylisted_invalid s Hd) as Hinv.
  split; [exact Hinv |]; split.
  - apply allChars_false_iff in Hinv; unfold validChars.
    rewrite Hinv, andb_false_r; reflexivity.
  - unfold CalculationEngine.calculate; cbn [_validateExpression].
    unfold denylisted in Hd; rewrite Hd.
    destruct (String.length s =? 0)%nat; cbn [bind]; apply fails_Throw;
      reflexivity.
Qed.

Lemma denylist_hits_only_invalid_characters_witness :
  hasInvalidChar "new  Function" /\
  fails (CalculationEngine.calculate (VString "new  Function")) INVALID_INPUT.
Proof.
  destruct (denylist_hits_only_invalid_characters "new  Function" eq_refl)
    as [H1 [_ H2]].
  split; assumption.
Defined.

(** ** The operation factory *)

Lemma isOperator_cases (sym : string) :
  isOperator sym = true ->
  sym = "+" \/ sym = "-" \/ sym = "*" \/ sym = "/" \/ sym = "%".
Proof.
  unfold isOperator, OPERATORS; cbn [existsb]; intros H.
  repeat (apply orb_true_iff in H; destruct H as [H | H];
          [apply String.eqb_eq in H; tauto |]).
  discriminate H.
Qed.



(** ** Conversion and evaluation never throw [INVALID_INPUT] *)

Lemma createOperation_returns (sym : string) :
  isOperator sym = true -> exists op, createOperation sym = Return op.
Proof.
  intros H; apply isOperator_cases in H.
  destruct H as [-> | [-> | [-> | [-> | ->]]]]; eexists; reflexivity.
Qed.

Lemma createOperation_operator (sym : string) (op : Operation) :
  createOperation sym = Return op -> isOperator sym = true.
Proof.
  unfold isOperator, OPERATORS, createOperation; cbn [existsb].
  repeat (destruct (_ =? _)%string; [reflexivity |]); discriminate.
Qed.

Lemma popHigher_returns (op1 : Operation) (operators : list string) :
  forall output, exists r, popHigher op1 operators output = Return r.
Proof.
  induction operators as [| top rest IH]; intros output; cbn [popHigher].
  - eexists; reflexivity.
  - destruct (isOperator top) eqn:Hop.
    + destruct (createOperation_returns top Hop) as [op2 ->]; cbn [bind negb].
      rewrite orb_false_r.
      destruct (top =? "(")%string; [eexists; reflexivity |].
      destruct (precedence op2 >? precedence op1); [apply IH |].
      eexists; reflexivity.
    + rewrite orb_true_r; eexists; reflexivity.
Qed.

Lemma shuntToken_returns (token : string) (st : list string * list rpnItem) :
  exists st', shuntToken token st = Return st'.
Proof.
  destruct st as [operators output]; unfold shuntToken.
  destruct (_isNumber token); [eexists; reflexivity |].
  destruct (isOperator token) eqn:Hop.
  - destruct (createOperation_returns token Hop) as [op1 ->]; cbn [bind].
    destruct (popHigher_returns op1 operators output) as [r ->]; cbn [bind].
    eexists; reflexivity.
  - destruct (token =? "(")%string; [eexists; reflexivity |].
    destruct (token =? ")")%string; [| eexists; reflexivity].
    destruct (popToParen operators output); eexists; reflexivity.
Qed.

Lemma shuntLoop_returns (tokens : list string) :
  forall st, exists st', shuntLoop tokens st = Return st'.
Proof.
  induction tokens as [| token rest IH]; intros st; cbn [shuntLoop].
  - eexists; reflexivity.
  - destruct (shuntToken_returns token st) as [st1 ->]; cbn [bind]; apply IH.
Qed.

Lemma execute_throws_only_division_by_zero
  (sym : string) (op : Operation) (a b : number) (e : CalculatorError) :
  createOperation sym = Return op -> execute op a b = Throw e ->
  type e = DIVISION_BY_ZERO.
Proof.
  unfold createOperation.
  repeat match goal with
         | |- (if ?c then _ else _) = _ -> _ => destruct c
         end;
    intros H; try discriminate H; injection H as <-; cbn;
    try discriminate;
    destruct (num_eqb b zero); try discriminate;
    intros H; injection H as <-; reflexivity.
Qed.

Lemma evalLoop_throws (rpn : list rpnItem) :
  forall stack e,
    evalLoop rpn stack = Throw e ->
    type e = SYNTAX_ERROR \/ type e = DIVISION_BY_ZERO \/ type e = OVERFLOW.
Proof.
  induction rpn as [| token rest IH]; intros stack e; cbn [evalLoop];
    [discriminate |].
  destruct (evalToken token stack) as [stack1 | e1] eqn:H1; cbn [bind];
    [apply IH |].
  intros H; injection H as <-.
  destruct token as [n | s]; cbn [evalToken] in H1; [discriminate H1 |].
  destruct (isOperator s) eqn:Hop; [| discriminate H1].
  destruct stack as [| b [| a stack0]];
    try (injection H1 as <-; left; reflexivity).
  destruct (createOperation_returns s Hop) as [op Hc]; rewrite Hc in H1.
  cbn [bind] in H1.
  destruct (execute op a b) as [r | e2] eqn:He; cbn [bind] in H1.
  - destruct (negb (Number_isFinite r)); [| discriminate H1].
    destruct (num_eqb r Infinity || num_eqb r NegInfinity);
      injection H1 as <-; cbn; tauto.
  - injection H1 as <-; right; left.
    apply (execute_throws_only_division_by_zero s op a b e2 Hc He).
Qed.

Lemma toRPN_returns (s : string) :
  exists rpn, _toReversePolishNotation s = Return rpn.
Proof.
  unfold _toReversePolishNotation.
  destruct (shuntLoop_returns (_tokenizeExpression s) ([], [])) as [st ->].
  eexists; reflexivity.
Qed.

(** X5: the conversion to postfix order never throws, on any string;
    and whatever [calculate] throws is a [SYNTAX_ERROR], a
    [DIVISION_BY_ZERO], an [OVERFLOW], or the [INVALID_INPUT] of the
    validator: [createOperation] never fails inside the engine and the
    kind [UNDERFLOW] is never thrown. *)
Theorem engine_error_kinds (v : value) :
  (forall s, exists rpn, _toReversePolishNotation s = Return rpn) /\
  (forall e, CalculationEngine.calculate v = Throw e ->
     type e <> UNDERFLOW /\
     (type e = INVALID_INPUT -> _validateExpression v = Throw e)).
Proof.
  split.
  - apply toRPN_returns.
  - intros e; unfold CalculationEngine.calculate.
    destruct (_validateExpression v) as [s | e0] eqn:Hv; cbn [bind].
    + unfold _toReversePolishNotation.
      destruct (shuntLoop_returns (_tokenizeExpression s) ([], [])) as [st ->].
      cbn [bind]; unfold _evaluateRPN, rawResult.
      destruct (evalLoop _ []) as [stack | e1] eqn:Hev; cbn [bind].
      * destruct stack as [| x [| y stack]]; cbn [bind]; try discriminate;
          intros H; injection H as <-; cbn; split; discriminate.
      * intros H; injection H as <-.
        destruct (evalLoop_throws _ _ _ Hev) as [-> | [-> | ->]];
          split; discriminate.
    + intros H; injection H as <-; split; [| reflexivity].
      destruct v as [s | | | | |]; cbn [_validateExpression] in Hv;
        try (injection Hv as <-; discriminate).
      repeat match type of Hv with
             | (if ?c then _ else _) = _ => destruct c
             end;
        try discriminate Hv; injection Hv as <-; discriminate.
Qed.

Lemma engine_error_kinds_witness :
  type (mkError "Insufficient operands" SYNTAX_ERROR) <> UNDERFLOW /\
  CalculationEngine.calculate (VString "1+")
    = Throw (mkError "Insufficient operands" SYNTAX_ERROR).
Proof.
  assert (H : CalculationEngine.calculate (VString "1+")
              = Throw (mkError "Insufficient operands" SYNTAX_ERROR))
    by (vm_compute; reflexivity).
  split; [| exact H].
  apply (proj2 (engine_error_kinds (VString "1+")) _ H).
Defined.

(** ** What the converter keeps *)

Lemma numbersOf_app (a b : list rpnItem) :
  numbersOf (a ++ b) = (numbersOf a ++ numbersOf b)%list.
Proof.
  induction a as [| [n | s] a IH]; cbn; [reflexivity | | exact IH].
  rewrite IH; reflexivity.
Qed.

Lemma operatorsOf_app (a b : list rpnItem) :
  operatorsOf (a ++ b) = (operatorsOf a ++ operatorsOf b)%list.
Proof.
  induction a as [| [n | s] a IH]; cbn [app operatorsOf];
    [reflexivity | exact IH |].
  destruct (isOperator s); cbn [app]; rewrite IH; reflexivity.
Qed.

Lemma numbersOf_symbols (l : list string) : numbersOf (map RSymbol l) = [].
Proof. induction l; cbn; trivial. Qed.

Lemma operatorsOf_symbols (l : list string) :
  operatorsOf (map RSymbol l) = filter isOperator l.
Proof.
  induction l as [| s l IH]; cbn [map operatorsOf filter]; [reflexivity |].
  destruct (isOperator s); rewrite IH; reflexivity.
Qed.

Lemma popHigher_keeps (op1 : Operation) (operators : list string) :
  forall output r,
    popHigher op1 operators output = Return r ->
    numbersOf (snd r) = numbersOf output /\
    operatorsHeld r = operatorsHeld (operators, output).
Proof.
  unfold operatorsHeld; induction operators as [| top rest IH];
    intros output r; cbn [popHigher].
  - intros H; injection H as <-; split; reflexivity.
  - destruct (isOperator top) eqn:Hop; cbn [negb].
    + rewrite orb_false_r.
      destruct (top =? "(")%string;
        [intros H; injection H as <-; split; reflexivity |].
      destruct (createOperation top) as [op2 | e]; cbn [bind]; [| discriminate].
      destruct (precedence op2 >? precedence op1).
      * intros H; destruct (IH _ _ H) as [Hn Ho]; split.
        -- rewrite Hn, numbersOf_app; cbn; apply app_nil_r.
        -- rewrite Ho; cbn [fst snd filter].
           rewrite operatorsOf_app, Hop; cbn [operatorsOf]; rewrite Hop.
           rewrite <- app_assoc; reflexivity.
      * intros H; injection H as <-; split; reflexivity.
    + rewrite orb_true_r; intros H; injection H as <-; split; reflexivity.
Qed.

Lemma popToParen_keeps (operators : list string) :
  forall output,
    let r := popToParen operators output in
    numbersOf (snd r) = numbersOf output /\
    operatorsHeld r = operatorsHeld (operators, output) /\
    (fst r = [] \/ exists rest, fst r = "(" :: rest).
Proof.
  unfold operatorsHeld; induction operators as [| top rest IH];
    intros output; cbn [popToParen].
  - repeat split; left; reflexivity.
  - destruct (String.eqb_spec top "(") as [-> | Hne].
    + repeat split; right; exists rest; reflexivity.
    + destruct (IH (output ++ [RSymbol top])%list) as [Hn [Ho Hs]].
      cbv zeta; rewrite Hn, Ho; repeat split; [| | exact Hs].
      * rewrite numbersOf_app; cbn; apply app_nil_r.
      * cbn [fst snd filter]; rewrite operatorsOf_app; cbn [operatorsOf].
        destruct (isOperator top); [rewrite <- app_assoc |
                                    rewrite app_nil_r]; reflexivity.
Qed.

Lemma operator_not_number (t : string) :
  isOperator t = true -> _isNumber t = false.
Proof.
  intros H; apply isOperator_cases in H.
  destruct H as [-> | [-> | [-> | [-> | ->]]]]; vm_compute; reflexivity.
Qed.

Lemma shuntToken_keeps (token : string) (st st' : list string * list rpnItem) :
  shuntToken token st = Return st' ->
  numbersOf (snd st')
  = (numbersOf (snd st)
     ++ if _isNumber token then [parseFloat token] else [])%list /\
  Permutation (operatorsHeld st')
    (operatorsHeld st ++ if isOperator token then [token] else []).
Proof.
  destruct st as [operators output]; unfold shuntToken.
  destruct (_isNumber token) eqn:Hnum.
  { intros H; injection H as <-; unfold operatorsHeld; cbn [fst snd].
    rewrite numbersOf_app, operatorsOf_app; cbn [numbersOf operatorsOf].
    split; [reflexivity |].
    destruct (isOperator token) eqn:Hop;
      [rewrite (operator_not_number _ Hop) in Hnum; discriminate Hnum |].
    rewrite !app_nil_r; apply Permutation_refl. }
  destruct (isOperator token) eqn:Hop.
  { destruct (createOperation token) as [op1 | e]; cbn [bind]; [| discriminate].
    destruct (popHigher op1 operators output) as [r | e] eqn:Hpop; cbn [bind];
      [| discriminate].
    destruct (popHigher_keeps _ _ _ _ Hpop) as [Hn Ho].
    intros H; injection H as <-; cbn [snd]; split;
      [rewrite Hn, app_nil_r; reflexivity |].
    rewrite <- Ho; unfold operatorsHeld; cbn [fst snd filter]; rewrite Hop.
    rewrite <- app_assoc; apply Permutation_app_head.
    apply Permutation_cons_append. }
  destruct (String.eqb_spec token "(") as [-> | Hl].
  { intros H; injection H as <-; unfold operatorsHeld; cbn [fst snd filter].
    change (isOperator "(") with false; cbn iota.
    rewrite !app_nil_r; split; [reflexivity | apply Permutation_refl]. }
  destruct (token =? ")")%string.
  - destruct (popToParen_keeps operators output) as [Hn [Ho Hs]].
    destruct (popToParen operators output) as [operators' output'].
    cbv zeta in Hn, Ho, Hs; cbn [fst snd] in Hn, Hs.
    intros H; injection H as <-; cbn [snd]; rewrite !app_nil_r.
    split; [exact Hn |].
    rewrite <- Ho; unfold operatorsHeld; cbn [fst snd].
    destruct Hs as [-> | [rest ->]]; apply Permutation_refl.
  - intros H; injection H as <-; rewrite !app_nil_r.
    split; [reflexivity | apply Permutation_refl].
Qed.

Lemma shuntLoop_keeps (tokens : list string) :
  forall st st',
    shuntLoop tokens st = Return st' ->
    numbersOf (snd st')
    = (numbersOf (snd st) ++ map parseFloat (filter _isNumber tokens))%list /\
    Permutation (operatorsHeld st')
      (operatorsHeld st ++ filter isOperator tokens).
Proof.
  induction tokens as [| token rest IH]; intros st st'; cbn [shuntLoop].
  - intros H; injection H as <-; cbn; rewrite !app_nil_r.
    split; [reflexivity | apply Permutation_refl].
  - destruct (shuntToken token st) as [st1 | e] eqn:H1; cbn [bind];
      [| discriminate].
    intros H; destruct (IH _ _ H) as [Hn Ho].
    destruct (shuntToken_keeps _ _ _ H1) as [Hn1 Ho1]; split.
    + rewrite Hn, Hn1; cbn [filter].
      destruct (_isNumber token); cbn [map]; rewrite <- app_assoc; reflexivity.
    + eapply Permutation_trans; [exact Ho |].
      eapply Permutation_trans;
        [apply Permutation_app_tail; exact Ho1 |].
      cbn [filter]; destruct (isOperator token);
        rewrite <- app_assoc; apply Permutation_refl.
Qed.

(** X6: the converter neither drops, adds nor reorders operands: the
    numbers of the postfix sequence are the values of the number tokens,
    in the order of the expression.  Nor does it drop or duplicate an
    operator: the operator symbols of the postfix sequence are a
    rearrangement of the operator tokens. *)
Theorem conversion_keeps_operands_and_operators
  (s : string) (rpn : list rpnItem) :
  _toReversePolishNotation s = Return rpn ->
  numbersOf rpn = map parseFloat (filter _isNumber (_tokenizeExpression s)) /\
  Permutation (operatorsOf rpn) (filter isOperator (_tokenizeExpression s)).
Proof.
  unfold _toReversePolishNotation.
  destruct (shuntLoop (_tokenizeExpression s) ([], [])) as [st | e] eqn:Hs;
    cbn [bind]; [| discriminate].
  intros H; injection H as <-.
  destruct (shuntLoop_keeps _ _ _ Hs) as [Hn Ho]; split.
  - rewrite numbersOf_app, numbersOf_symbols, app_nil_r; exact Hn.
  - rewrite operatorsOf_app, operatorsOf_symbols; exact Ho.
Qed.

Lemma conversion_keeps_operands_and_operators_witness :
  exists rpn,
    _toReversePolishNotation "(1+2)*3-4" = Return rpn /\
    numbersOf rpn = [ofZ 1; ofZ 2; ofZ 3; ofZ 4] /\
    Permutation (operatorsOf rpn) ["+"; "*"; "-"].
Proof.
  destruct (toRPN_returns "(1+2)*3-4") as [rpn Hr].
  exists rpn; split; [exact Hr |].
  destruct (conversion_keeps_operands_and_operators _ _ Hr) as [Hn Ho].
  split; [rewrite Hn; vm_compute; reflexivity | exact Ho].
Defined.

(** ** The operand stack *)

Lemma evalToken_depth (token : rpnItem) (stack stack' : list number) :
  evalToken token stack = Return stack' ->
  (List.length stack' + List.length (operatorsOf [token])
   = List.length stack + List.length (numbersOf [token]))%nat.
Proof.
  destruct token as [n | s]; cbn [evalToken operatorsOf numbersOf].
  - intros H; injection H as <-; cbn; lia.
  - destruct (isOperator s); [| intros H; injection H as <-; cbn; lia].
    destruct stack as [| b [| a stack0]]; try discriminate.
    destruct (createOperation s) as [op | e]; cbn [bind]; [| discriminate].
    destruct (execute op a b) as [r | e]; cbn [bind]; [| discriminate].
    destruct (negb (Number_isFinite r)).
    + destruct (num_eqb r Infinity || num_eqb r NegInfinity); discriminate.
    + intros H; injection H as <-; cbn; lia.
Qed.

Lemma evalLoop_depth (rpn : list rpnItem) :
  forall stack stack',
    evalLoop rpn stack = Return stack' ->
    (List.length stack' + List.length (operatorsOf rpn)
     = List.length stack + List.length (numbersOf rpn))%nat.
Proof.
  induction rpn as [| token rest IH]; intros stack stack'; cbn [evalLoop].
  - intros H; injection H as <-; cbn; lia.
  - destruct (evalToken token stack) as [stack1 | e] eqn:H1; cbn [bind];
      [| discriminate].
    intros H; specialize (IH _ _ H); apply evalToken_depth in H1.
    change (token :: rest) with ([token] ++ rest)%list.
    rewrite operatorsOf_app, numbersOf_app, !length_app; lia.
Qed.

(** X7: the evaluator returns a value only for a postfix sequence with
    exactly one number more than it has operators: each operator takes
    two operands from the stack and leaves one, and one value must
    remain. *)
Theorem evaluation_needs_one_more_number (rpn : list rpnItem) (r : number) :
  _evaluateRPN rpn = Return r ->
  List.length (numbersOf rpn) = S (List.length (operatorsOf rpn)).
Proof.
  unfold _evaluateRPN, rawResult.
  destruct (evalLoop rpn []) as [stack | e] eqn:Hev; cbn [bind];
    [| discriminate].
  destruct stack as [| x [| y stack]]; cbn [bind]; try discriminate.
  intros _; apply evalLoop_depth in Hev; cbn in Hev; lia.
Qed.

Lemma evaluation_needs_one_more_number_witness :
  List.length (numbersOf [RNumber one; RNumber two; RSymbol "+"]) = 2%nat.
Proof.
  apply (evaluation_needs_one_more_number
           [RNumber one; RNumber two; RSymbol "+"] (ofZ 3)).
  vm_compute; reflexivity.
Defined.

(** ** No parenthesis reaches the evaluator *)

Lemma tokenParens_app (a b : list string) :
  tokenParens (a ++ b) = (tokenParens a ++ tokenParens b)%list.
Proof.
  induction a as [| t a IH]; cbn [app tokenParens]; [reflexivity |].
  destruct (t =? "(")%string; [cbn; rewrite IH; reflexivity |].
  destruct (t =? ")")%string; cbn; rewrite IH; reflexivity.
Qed.

Lemma tokenParens_flush (tokens : list string) (cur : string) :
  allChars digitOrDot cur = true ->
  tokenParens (flushNumber tokens cur) = tokenParens tokens.
Proof.
  intros Hc; unfold flushNumber, pushToken.
  destruct (String.eqb_spec cur "") as [-> | Hne]; [reflexivity |].
  destruct (digits_not_symbol cur Hne Hc) as [_ [Hl Hr]].
  rewrite tokenParens_app; cbn [tokenParens]; rewrite Hl, Hr.
  apply app_nil_r.
Qed.

Lemma tokenizeLoop_parens (s : string) :
  forall cur tokens,
    allChars digitOrDot cur = true ->
    tokenParens (tokenizeLoop s cur tokens)
    = (tokenParens tokens ++ parens s)%list.
Proof.
  induction s as [| c r IH]; intros cur tokens Hc;
    cbn [tokenizeLoop parens].
  - rewrite app_nil_r; apply tokenParens_flush, Hc.
  - destruct (_isDigit c || Ascii.eqb c ".") eqn:Hd.
    + rewrite IH.
      * pose proof (digitOrDot_cases c Hd) as Hcases; cbn in Hcases.
        repeat (destruct Hcases as [<- | Hcases]); try destruct Hcases;
          reflexivity.
      * rewrite allChars_append, Hc; cbn; unfold digitOrDot; rewrite Hd.
        reflexivity.
    + rewrite IH by reflexivity.
      destruct (Ascii.eqb_spec c " ") as [-> | Hsp].
      * rewrite (tokenParens_flush _ _ Hc); reflexivity.
      * unfold pushToken; rewrite tokenParens_app, (tokenParens_flush _ _ Hc).
        rewrite <- app_assoc; f_equal.
        cbn [tokenParens String.eqb].
        destruct (Ascii.eqb c "("); [reflexivity |].
        destruct (Ascii.eqb c ")"); reflexivity.
Qed.

Lemma balanceLoop_closes (s : string) :
  forall b, 0 <= b ->
    (balanceLoop s b =? 0) = closes (parens s) (Z.to_nat b).
Proof.
  induction s as [| c r IH]; intros b Hb; cbn [balanceLoop parens closes].
  - destruct (Z.eqb_spec b 0) as [-> | Hne]; [reflexivity |].
    symmetry; apply Nat.eqb_neq; lia.
  - destruct (Ascii.eqb_spec c "(") as [-> | Hl]; cbn [Ascii.eqb Bool.eqb].
    + replace (b + 1 <? 0) with false by (symmetry; apply Z.ltb_ge; lia).
      rewrite IH by lia; cbn [closes].
      replace (Z.to_nat (b + 1)) with (S (Z.to_nat b)) by lia; reflexivity.
    + destruct (Ascii.eqb_spec c ")") as [-> | Hr].
      * cbn [closes]; destruct (Z.ltb_spec (b - 1) 0) as [Hneg | Hpos].
        -- replace (Z.to_nat b) with 0%nat by lia.
           apply Z.eqb_neq; lia.
        -- rewrite IH by lia.
           replace (Z.to_nat b) with (S (Z.to_nat (b - 1))) by lia.
           reflexivity.
      * replace (b <? 0) with false by (symmetry; apply Z.ltb_ge; lia).
        apply IH, Hb.
Qed.

Lemma balanceLoop_closes_0 (s : string) :
  (balanceLoop s 0 =? 0) = closes (parens s) 0.
Proof. apply (balanceLoop_closes s 0 (Z.le_refl 0)). Qed.

Lemma parens_append (a b : string) :
  parens (a ++ b) = (parens a ++ parens b)%list.
Proof.
  induction a as [| c a IH]; cbn [append parens app]; [reflexivity |].
  destruct (Ascii.eqb c "("); [rewrite IH; reflexivity |].
  destruct (Ascii.eqb c ")"); rewrite IH; reflexivity.
Qed.

Lemma parens_digits (a : string) :
  allChars digitOrDot a = true -> parens a = [].
Proof.
  induction a as [| c a IH]; cbn [allChars parens]; [reflexivity |].
  intros H; apply andb_true_iff in H; destruct H as [Hc Ha].
  apply digitOrDot_cases in Hc; cbn in Hc.
  repeat (destruct Hc as [<- | Hc]); try destruct Hc; cbn; apply IH, Ha.
Qed.

Lemma validate_closed (s : string) :
  s <> "" -> allChars validChar s = true -> closes (parens s) 0 = true ->
  _validateExpression (VString s) = Return s.
Proof.
  intros Hne Hall Hc; apply validate_accepts; trivial.
  rewrite balanceLoop_closes_0; exact Hc.
Qed.

Lemma popHigher_shape (op1 : Operation) (operators : list string) :
  forall output r,
    popHigher op1 operators output = Return r ->
    Forall operatorOrOpen operators -> Forall operandOrOperator output ->
    Forall operatorOrOpen (fst r) /\ Forall operandOrOperator (snd r) /\
    depthOf (fst r) = depthOf operators.
Proof.
  induction operators as [| top rest IH]; intros output r; cbn [popHigher].
  - intros H; injection H as <-; auto.
  - destruct (isOperator top) eqn:Hop; cbn [negb].
    + rewrite orb_false_r.
      destruct (String.eqb_spec top "(") as [-> | Hne];
        [discriminate Hop |].
      destruct (createOperation top) as [op2 | e]; cbn [bind]; [| discriminate].
      destruct (precedence op2 >? precedence op1).
      * intros H Hst Hout; inversion Hst as [| ? ? _ Hrest]; subst.
        destruct (IH _ _ H Hrest) as [H1 [H2 H3]].
        { apply Forall_push; [exact Hout | exact Hop]. }
        repeat split; trivial.
        rewrite H3; unfold depthOf; cbn [filter].
        destruct (String.eqb_spec "(" top) as [<- | _];
          [contradiction | reflexivity].
      * intros H; injection H as <-; auto.
    + rewrite orb_true_r; intros H; injection H as <-; auto.
Qed.

Lemma popToParen_shape (operators : list string) :
  forall output,
    Forall operatorOrOpen operators -> Forall operandOrOperator output ->
    depthOf operators <> 0%nat ->
    let r := popToParen operators output in
    Forall operandOrOperator (snd r) /\
    exists rest, fst r = "(" :: rest /\ Forall operatorOrOpen rest /\
                 depthOf operators = S (depthOf rest).
Proof.
  induction operators as [| top rest IH]; intros output Hst Hout Hd;
    cbn [popToParen]; [elim Hd; reflexivity |].
  inversion Hst as [| ? ? Htop Hrest]; subst.
  destruct (String.eqb_spec top "(") as [-> | Hne].
  - cbv zeta; split; [exact Hout |].
    exists rest; repeat split; trivial.
  - destruct Htop as [-> | Hop]; [contradiction |].
    assert (Hd' : depthOf (top :: rest) = depthOf rest).
    { unfold depthOf; cbn [filter].
      destruct (String.eqb_spec "(" top) as [<- | _];
        [contradiction | reflexivity]. }
    rewrite Hd' in *.
    apply IH; trivial.
    apply Forall_push; [exact Hout | exact Hop].
Qed.

Lemma paren_not_number :
  _isNumber "(" = false /\ _isNumber ")" = false /\
  isOperator "(" = false /\ isOperator ")" = false.
Proof. repeat split; vm_compute; reflexivity. Qed.

Lemma shuntToken_shape (token : string) (rest : list string)
  (st st' : list string * list rpnItem) :
  shuntToken token st = Return st' ->
  Forall operatorOrOpen (fst st) -> Forall operandOrOperator (snd st) ->
  closes (tokenParens (token :: rest)) (depthOf (fst st)) = true ->
  Forall operatorOrOpen (fst st') /\ Forall operandOrOperator (snd st') /\
  closes (tokenParens rest) (depthOf (fst st')) = true.
Proof.
  destruct paren_not_number as [Hnl [Hnr [Hol Hor]]].
  destruct st as [operators output]; cbn [fst snd tokenParens].
  unfold shuntToken.
  destruct (String.eqb_spec token "(") as [-> | Hl].
  { rewrite Hnl, Hol; intros H; injection H as <-; cbn [fst snd closes].
    intros Hst Hout Hc; repeat split; trivial.
    constructor; [left; reflexivity | exact Hst]. }
  destruct (String.eqb_spec token ")") as [-> | Hr].
  { rewrite Hnr, Hor; cbn [closes].
    intros H Hst Hout Hc.
    destruct (depthOf operators) as [| d] eqn:Hd; [discriminate Hc |].
    destruct (popToParen_shape operators output Hst Hout) as [H2 [tl' H3]];
      [rewrite Hd; discriminate |].
    destruct (popToParen operators output) as [operators' output'].
    cbv zeta in H2, H3; cbn [fst snd] in H2, H3.
    destruct H3 as [-> [H3 H4]].
    injection H as <-; cbn [fst snd tl]; repeat split; trivial.
    rewrite Hd in H4; injection H4 as <-; exact Hc. }
  destruct (_isNumber token).
  { intros H; injection H as <-; cbn [fst snd]; intros Hst Hout Hc.
    repeat split; trivial; apply Forall_push; [exact Hout | exact I]. }
  destruct (isOperator token) eqn:Hop.
  - destruct (createOperation token) as [op1 | e]; cbn [bind]; [| discriminate].
    destruct (popHigher op1 operators output) as [r | e] eqn:Hpop; cbn [bind];
      [| discriminate].
    intros H Hst Hout Hc; injection H as <-; cbn [fst snd].
    destruct (popHigher_shape _ _ _ _ Hpop Hst Hout) as [H1 [H2 H3]].
    repeat split; trivial.
    + constructor; [right; exact Hop | exact H1].
    + unfold depthOf in *; cbn [filter].
      destruct (String.eqb_spec "(" token) as [<- | _];
        [contradiction | rewrite H3; exact Hc].
  - intros H; injection H as <-; auto.
Qed.

Lemma shuntLoop_shape (tokens : list string) :
  forall st st',
    shuntLoop tokens st = Return st' ->
    Forall operatorOrOpen (fst st) -> Forall operandOrOperator (snd st) ->
    closes (tokenParens tokens) (depthOf (fst st)) = true ->
    Forall operatorOrOpen (fst st') /\ Forall operandOrOperator (snd st') /\
    depthOf (fst st') = 0%nat.
Proof.
  induction tokens as [| token rest IH]; intros st st'; cbn [shuntLoop].
  - intros H; injection H as <-; cbn [tokenParens closes].
    intros Hst Hout Hc; apply Nat.eqb_eq in Hc; auto.
  - destruct (shuntToken token st) as [st1 | e] eqn:H1; cbn [bind];
      [| discriminate].
    intros H Hst Hout Hc.
    destruct (shuntToken_shape _ rest _ _ H1 Hst Hout Hc) as [H2 [H3 H4]].
    apply (IH _ _ H H2 H3 H4).
Qed.

Lemma no_open_paren (operators : list string) :
  Forall operatorOrOpen operators -> depthOf operators = 0%nat ->
  Forall operandOrOperator (map RSymbol operators).
Proof.
  unfold depthOf; induction operators as [| t rest IH]; intros Hst Hd;
    [constructor |].
  inversion Hst as [| ? ? Ht Hrest]; subst; cbn [filter] in Hd.
  destruct (String.eqb_spec "(" t) as [<- | Hne]; [discriminate Hd |].
  destruct Ht as [-> | Hop]; [contradiction |].
  constructor; [exact Hop | apply IH; assumption].
Qed.

(** X8: an expression that passes validation converts to a postfix
    sequence of numbers and operator symbols only: every ["("] pushed on
    the operator stack is taken off by its [")"], and no parenthesis
    reaches the evaluator. *)
Theorem validated_expression_converts_without_parentheses (s : string) :
  _validateExpression (VString s) = Return s ->
  exists rpn,
    _toReversePolishNotation s = Return rpn /\
    Forall operandOrOperator rpn.
Proof.
  intros Hv.
  assert (Hbal : closes (parens s) 0 = true).
  { apply validate_returns in Hv; destruct Hv as [_ [_ [_ Hb]]].
    rewrite <- balanceLoop_closes_0; exact Hb. }
  unfold _toReversePolishNotation.
  destruct (shuntLoop_returns (_tokenizeExpression s) ([], [])) as [st Hs].
  rewrite Hs; cbn [bind]; eexists; split; [reflexivity |].
  destruct (shuntLoop_shape _ _ _ Hs) as [H1 [H2 H3]]; try constructor.
  - unfold _tokenizeExpression; rewrite tokenizeLoop_parens by reflexivity.
    exact Hbal.
  - apply Forall_app; split; [exact H2 | apply no_open_paren; assumption].
Qed.

Lemma validated_expression_converts_without_parentheses_witness :
  exists rpn,
    _toReversePolishNotation "2*(3+4)" = Return rpn /\
    Forall operandOrOperator rpn.
Proof.
  apply (validated_expression_converts_without_parentheses "2*(3+4)").
  vm_compute; reflexivity.
Defined.

(** ** Expressions built from numerals *)

Lemma tokenizeLoop_run (a rest cur : string) (tokens : list string) :
  allChars digitOrDot a = true ->
  tokenizeLoop (a ++ rest) cur tokens = tokenizeLoop rest (cur ++ a) tokens.
Proof.
  revert cur; induction a as [| c a IH]; intros cur Ha; cbn [append].
  - rewrite append_empty_r; reflexivity.
  - cbn in Ha; apply andb_true_iff in Ha; destruct Ha as [Hc Ha].
    cbn [tokenizeLoop]; unfold digitOrDot in Hc; rewrite Hc, (IH _ Ha).
    rewrite append_assoc; reflexivity.
Qed.

Lemma tokenizeLoop_symbol (c : ascii) (rest : string) (tokens : list string) :
  digitOrDot c = false -> Ascii.eqb c " " = false ->
  tokenizeLoop (String c rest) "" tokens
  = tokenizeLoop rest "" (tokens ++ [String c ""]).
Proof.
  intros Hc Hs; cbn [tokenizeLoop]; unfold digitOrDot in Hc.
  rewrite Hc, Hs; reflexivity.
Qed.

Lemma tokenizeLoop_numeral_symbol
  (a : string) (c : ascii) (rest : string) (tokens : list string) :
  a <> "" -> allChars digitOrDot a = true ->
  digitOrDot c = false -> Ascii.eqb c " " = false ->
  tokenizeLoop (a ++ String c rest) "" tokens
  = tokenizeLoop rest "" (tokens ++ [a; String c ""]).
Proof.
  intros Hne Ha Hc Hs; rewrite (tokenizeLoop_run _ _ _ _ Ha); cbn [append].
  cbn [tokenizeLoop]; unfold digitOrDot in Hc; rewrite Hc, Hs.
  unfold flushNumber, pushToken.
  apply String.eqb_neq in Hne; rewrite Hne, <- app_assoc; reflexivity.
Qed.

Lemma tokenizeLoop_last (a : string) (tokens : list string) :
  a <> "" -> allChars digitOrDot a = true ->
  tokenizeLoop a "" tokens = (tokens ++ [a])%list.
Proof.
  intros Hne Ha; rewrite (tokenizeLoop_digits _ _ _ Ha); cbn [append].
  unfold flushNumber; apply String.eqb_neq in Hne; rewrite Hne; reflexivity.
Qed.

Lemma operator_char (o : string) :
  isOperator o = true ->
  exists c, o = String c "" /\ digitOrDot c = false /\
            Ascii.eqb c " " = false /\ validChar c = true /\
            Ascii.eqb c "(" = false /\ Ascii.eqb c ")" = false.
Proof.
  intros H; apply isOperator_cases in H.
  destruct H as [-> | [-> | [-> | [-> | ->]]]]; eexists;
    (split; [reflexivity | repeat split; reflexivity]).
Qed.

Lemma shuntToken_numeral (t : string) (operators : list string)
  (output : list rpnItem) :
  numeral t ->
  shuntToken t (operators, output) = Return (operators, output ++ [operand t])%list.
Proof. intros [_ [_ H]]; unfold shuntToken; rewrite H; reflexivity. Qed.

Lemma shuntToken_operator (o : string) (p : Operation)
  (operators : list string) (output : list rpnItem) :
  isOperator o = true -> createOperation o = Return p ->
  shuntToken o (operators, output)
  = (r <- popHigher p operators output ;; Return (o :: fst r, snd r)).
Proof.
  intros Ho Hp; unfold shuntToken.
  rewrite (operator_not_number _ Ho), Ho, Hp; reflexivity.
Qed.

Lemma popHigher_operator (p1 p2 : Operation) (o1 : string)
  (rest : list string) (output : list rpnItem) :
  isOperator o1 = true -> createOperation o1 = Return p1 ->
  popHigher p2 (o1 :: rest) output
  = if precedence p1 >? precedence p2
    then popHigher p2 rest (output ++ [RSymbol o1])
    else Return (o1 :: rest, output).
Proof.
  intros Ho Hp; cbn [popHigher]; rewrite Ho, Hp; cbn [negb bind].
  destruct (String.eqb_spec o1 "(") as [-> | _]; [discriminate Ho |].
  reflexivity.
Qed.

Lemma popToParen_operator (o : string) (rest : list string)
  (output : list rpnItem) :
  isOperator o = true ->
  popToParen (o :: rest) output = popToParen rest (output ++ [RSymbol o]).
Proof.
  intros Ho; cbn [popToParen].
  destruct (String.eqb_spec o "(") as [-> | _]; [discriminate Ho |].
  reflexivity.
Qed.

Lemma shuntToken_open (operators : list string) (output : list rpnItem) :
  shuntToken "(" (operators, output) = Return ("(" :: operators, output).
Proof.
  unfold shuntToken.
  destruct paren_not_number as [-> [_ [-> _]]]; reflexivity.
Qed.

Lemma shuntToken_close (operators : list string) (output : list rpnItem) :
  shuntToken ")" (operators, output)
  = Return (tl (fst (popToParen operators output)),
            snd (popToParen operators output)).
Proof.
  unfold shuntToken.
  destruct paren_not_number as [_ [-> [_ ->]]]; cbn [String.eqb Ascii.eqb Bool.eqb].
  destruct (popToParen operators output); reflexivity.
Qed.

(** X9: an expression of two numerals around an operator converts to
    [a b op] and evaluates as the operation on the two parsed operands:
    what the operation throws is thrown, and a finite result is
    returned rounded. *)
Theorem binary_expression_applies_the_operation
  (a b o : string) (p : Operation) :
  numeral a -> numeral b -> createOperation o = Return p ->
  _toReversePolishNotation (a ++ o ++ b)
    = Return [operand a; operand b; RSymbol o] /\
  (forall r, execute p (parseFloat a) (parseFloat b) = Return r ->
             Number_isFinite r = true ->
             CalculationEngine.calculate (VString (a ++ o ++ b))
             = Return (_roundResult r)) /\
  (forall e, execute p (parseFloat a) (parseFloat b) = Throw e ->
             CalculationEngine.calculate (VString (a ++ o ++ b)) = Throw e).
Proof.
  intros Ha Hb Hp; pose proof (createOperation_operator _ _ Hp) as Ho.
  pose proof Ha as [Hane [Hada _]]; pose proof Hb as [Hbne [Hbdb _]].
  destruct (operator_char o Ho) as [c [-> [Hc [Hsp [Hv [Hl Hr]]]]]].
  assert (Hrpn : _toReversePolishNotation (a ++ String c "" ++ b)
                 = Return [operand a; operand b; RSymbol (String c "")]).
  { unfold _toReversePolishNotation, _tokenizeExpression; cbn [append].
    rewrite (tokenizeLoop_numeral_symbol a c b [] Hane Hada Hc Hsp).
    rewrite (tokenizeLoop_last b _ Hbne Hbdb); cbn [app shuntLoop].
    rewrite (shuntToken_numeral a _ _ Ha); cbn [bind app].
    rewrite (shuntToken_operator _ p _ _ Ho Hp); cbn [popHigher bind fst snd].
    rewrite (shuntToken_numeral b _ _ Hb); reflexivity. }
  assert (Hval : _validateExpression (VString (a ++ String c "" ++ b))
                 = Return (a ++ String c "" ++ b)).
  { apply validate_closed.
    - destruct a; [contradiction | discriminate].
    - rewrite !allChars_append; cbn [allChars].
      rewrite (allChars_impl _ _ _ digitOrDot_valid Hada),
        (allChars_impl _ _ _ digitOrDot_valid Hbdb), Hv; reflexivity.
    - rewrite !parens_append; cbn [parens]; rewrite Hl, Hr.
      rewrite (parens_digits a Hada), (parens_digits b Hbdb); reflexivity. }
  split; [exact Hrpn |].
  unfold CalculationEngine.calculate; rewrite Hval; cbn [bind].
  rewrite Hrpn; cbn [bind]; unfold _evaluateRPN, rawResult, operand.
  cbn [evalLoop evalToken bind]; rewrite Ho, Hp; cbn [bind].
  split.
  - intros r -> Hfin; cbn [bind]; rewrite Hfin; reflexivity.
  - intros e ->; reflexivity.
Qed.

Lemma binary_expression_applies_the_operation_witness :
  _toReversePolishNotation "12/5"
    = Return [operand "12"; operand "5"; RSymbol "/"] /\
  CalculationEngine.calculate (VString "12/0")
  = Throw (mkError "Division by zero is not allowed" DIVISION_BY_ZERO).
Proof.
  split.
  - apply (binary_expression_applies_the_operation "12" "5" "/"
             DivisionOperation); try reflexivity;
      (split; [discriminate | split; vm_compute; reflexivity]).
  - apply (binary_expression_applies_the_operation "12" "0" "/"
             DivisionOperation); try reflexivity;
      (split; [discriminate | split; vm_compute; reflexivity]).
Defined.

Lemma popHigher_open (p : Operation) (rest : list string)
  (output : list rpnItem) :
  popHigher p ("(" :: rest) output = Return ("(" :: rest, output).
Proof. reflexivity. Qed.

Lemma popToParen_open (rest : list string) (output : list rpnItem) :
  popToParen ("(" :: rest) output = ("(" :: rest, output).
Proof. reflexivity. Qed.

Lemma calculate_validated (s : string) (rpn : list rpnItem) :
  _validateExpression (VString s) = Return s ->
  _toReversePolishNotation s = Return rpn ->
  CalculationEngine.calculate (VString s) = _evaluateRPN rpn.
Proof.
  intros Hv Hr; unfold CalculationEngine.calculate.
  rewrite Hv; cbn [bind]; rewrite Hr; reflexivity.
Qed.

Lemma numeral_valid (a : string) :
  numeral a -> allChars validChar a = true /\ parens a = [].
Proof.
  intros [_ [Ha _]]; split;
    [apply (allChars_impl _ _ _ digitOrDot_valid Ha) | apply parens_digits, Ha].
Qed.

(** X10: between three numerals the first operator is applied first only
    when its precedence is strictly higher than the second's; otherwise,
    and so for two operators of the same precedence, the second is
    applied first and the first to its result. *)
Theorem three_operands_by_strict_precedence
  (a b c o1 o2 : string) (p1 p2 : Operation) :
  numeral a -> numeral b -> numeral c ->
  createOperation o1 = Return p1 -> createOperation o2 = Return p2 ->
  let rpn :=
    if precedence p1 >? precedence p2
    then [operand a; operand b; RSymbol o1; operand c; RSymbol o2]
    else [operand a; operand b; operand c; RSymbol o2; RSymbol o1] in
  _toReversePolishNotation (a ++ o1 ++ b ++ o2 ++ c) = Return rpn /\
  CalculationEngine.calculate (VString (a ++ o1 ++ b ++ o2 ++ c))
  = _evaluateRPN rpn.
Proof.
  intros Ha Hb Hc Hp1 Hp2 rpn.
  pose proof (createOperation_operator _ _ Hp1) as Ho1.
  pose proof (createOperation_operator _ _ Hp2) as Ho2.
  pose proof Ha as [Hane [Hada _]]; pose proof Hb as [Hbne [Hbdb _]].
  pose proof Hc as [Hcne [Hcdc _]].
  destruct (numeral_valid a Ha) as [Hva Hpa].
  destruct (numeral_valid b Hb) as [Hvb Hpb].
  destruct (numeral_valid c Hc) as [Hvc Hpc].
  destruct (operator_char o1 Ho1) as [c1 [E1 [Hd1 [Hs1 [Hv1 [Hl1 Hr1]]]]]].
  destruct (operator_char o2 Ho2) as [c2 [E2 [Hd2 [Hs2 [Hv2 [Hl2 Hr2]]]]]].
  assert (Hrpn : _toReversePolishNotation (a ++ o1 ++ b ++ o2 ++ c)
                 = Return rpn).
  { unfold _toReversePolishNotation, _tokenizeExpression.
    rewrite E1, E2; cbn [append].
    rewrite (tokenizeLoop_numeral_symbol a c1 _ [] Hane Hada Hd1 Hs1).
    rewrite (tokenizeLoop_numeral_symbol b c2 _ _ Hbne Hbdb Hd2 Hs2).
    rewrite (tokenizeLoop_last c _ Hcne Hcdc); cbn [app shuntLoop].
    rewrite <- E1, <- E2.
    rewrite (shuntToken_numeral a _ _ Ha); cbn [bind app].
    rewrite (shuntToken_operator _ p1 _ _ Ho1 Hp1); cbn [popHigher bind fst snd].
    rewrite (shuntToken_numeral b _ _ Hb); cbn [bind app].
    rewrite (shuntToken_operator _ p2 _ _ Ho2 Hp2).
    rewrite (popHigher_operator p1 p2 o1 _ _ Ho1 Hp1).
    subst rpn; destruct (precedence p1 >? precedence p2);
      cbn [popHigher bind fst snd app];
      rewrite (shuntToken_numeral c _ _ Hc); reflexivity. }
  split; [exact Hrpn |].
  apply calculate_validated; [| exact Hrpn].
  apply validate_closed.
  - destruct a; [contradiction | discriminate].
  - rewrite !allChars_append, E1, E2; cbn [allChars].
    rewrite Hva, Hvb, Hvc, Hv1, Hv2; reflexivity.
  - rewrite !parens_append, E1, E2; cbn [parens].
    rewrite Hl1, Hr1, Hl2, Hr2, Hpa, Hpb, Hpc; reflexivity.
Qed.

Lemma three_operands_by_strict_precedence_witness :
  CalculationEngine.calculate (VString "8/4/2") = Return (ofZ 4) /\
  CalculationEngine.calculate (VString "8/4-2") = Return (ofZ 0).
Proof.
  pose proof (three_operands_by_strict_precedence "8" "4" "2" "/" "/"
                DivisionOperation DivisionOperation
                ltac:(split; [discriminate | split; vm_compute; reflexivity])
                ltac:(split; [discriminate | split; vm_compute; reflexivity])
                ltac:(split; [discriminate | split; vm_compute; reflexivity])
                eq_refl eq_refl) as [_ H1].
  pose proof (three_operands_by_strict_precedence "8" "4" "2" "/" "-"
                DivisionOperation SubtractionOperation
                ltac:(split; [discriminate | split; vm_compute; reflexivity])
                ltac:(split; [discriminate | split; vm_compute; reflexivity])
                ltac:(split; [discriminate | split; vm_compute; reflexivity])
                eq_refl eq_refl) as [_ H2].
  split.
  - etransitivity; [exact H1 | vm_compute; reflexivity].
  - etransitivity; [exact H2 | vm_compute; reflexivity].
Defined.

(** X11: parentheses decide the grouping whatever the precedences: in
    [(a o1 b) o2 c] the first operator is applied first, in
    [a o1 (b o2 c)] the second. *)
Theorem parentheses_decide_the_grouping
  (a b c o1 o2 : string) (p1 p2 : Operation) :
  numeral a -> numeral b -> numeral c ->
  createOperation o1 = Return p1 -> createOperation o2 = Return p2 ->
  CalculationEngine.calculate
    (VString ("(" ++ a ++ o1 ++ b ++ ")" ++ o2 ++ c))
  = _evaluateRPN [operand a; operand b; RSymbol o1; operand c; RSymbol o2] /\
  CalculationEngine.calculate
    (VString (a ++ o1 ++ "(" ++ b ++ o2 ++ c ++ ")"))
  = _evaluateRPN [operand a; operand b; operand c; RSymbol o2; RSymbol o1].
Proof.
  intros Ha Hb Hc Hp1 Hp2.
  pose proof (createOperation_operator _ _ Hp1) as Ho1.
  pose proof (createOperation_operator _ _ Hp2) as Ho2.
  pose proof Ha as [Hane [Hada _]]; pose proof Hb as [Hbne [Hbdb _]].
  pose proof Hc as [Hcne [Hcdc _]].
  destruct (numeral_valid a Ha) as [Hva Hpa].
  destruct (numeral_valid b Hb) as [Hvb Hpb].
  destruct (numeral_valid c Hc) as [Hvc Hpc].
  destruct (operator_char o1 Ho1) as [c1 [E1 [Hd1 [Hs1 [Hv1 [Hl1 Hr1]]]]]].
  destruct (operator_char o2 Ho2) as [c2 [E2 [Hd2 [Hs2 [Hv2 [Hl2 Hr2]]]]]].
  split; apply calculate_validated.
  - apply validate_closed; [discriminate | |].
    + cbn [append allChars]; rewrite !allChars_append, E1, E2; cbn [allChars].
      rewrite !allChars_append; cbn [allChars].
      rewrite Hva, Hvb, Hvc, Hv1, Hv2; reflexivity.
    + cbn [append parens Ascii.eqb Bool.eqb]; rewrite !parens_append, E1, E2.
      cbn [parens append]; rewrite ?parens_append; cbn [parens Ascii.eqb Bool.eqb].
      rewrite Hl1, Hr1, Hl2, Hr2, Hpa, Hpb, Hpc; reflexivity.
  - unfold _toReversePolishNotation, _tokenizeExpression.
    rewrite E1, E2; cbn [append].
    rewrite (tokenizeLoop_symbol "(" _ []) by reflexivity.
    rewrite (tokenizeLoop_numeral_symbol a c1 _ _ Hane Hada Hd1 Hs1).
    rewrite (tokenizeLoop_numeral_symbol b ")" _ _ Hbne Hbdb) by reflexivity.
    rewrite (tokenizeLoop_symbol c2 _ _ Hd2 Hs2).
    rewrite (tokenizeLoop_last c _ Hcne Hcdc); cbn [app shuntLoop].
    rewrite <- E1, <- E2.
    rewrite shuntToken_open; cbn [bind].
    rewrite (shuntToken_numeral a _ _ Ha); cbn [bind app].
    rewrite (shuntToken_operator _ p1 _ _ Ho1 Hp1), popHigher_open.
    cbn [bind fst snd].
    rewrite (shuntToken_numeral b _ _ Hb); cbn [bind app].
    rewrite shuntToken_close, (popToParen_operator o1 _ _ Ho1), popToParen_open.
    cbn [bind fst snd tl app].
    rewrite (shuntToken_operator _ p2 _ _ Ho2 Hp2); cbn [popHigher bind fst snd].
    rewrite (shuntToken_numeral c _ _ Hc); reflexivity.
  - apply validate_closed; [destruct a; [contradiction | discriminate] | |].
    + rewrite !allChars_append, E1, E2; cbn [allChars].
      rewrite Hva, Hvb, Hvc, Hv1, Hv2; reflexivity.
    + rewrite !parens_append, E1, E2; cbn [parens Ascii.eqb Bool.eqb].
      rewrite Hl1, Hr1, Hl2, Hr2, Hpa, Hpb, Hpc; reflexivity.
  - unfold _toReversePolishNotation, _tokenizeExpression.
    rewrite E1, E2; cbn [append].
    rewrite (tokenizeLoop_numeral_symbol a c1 _ [] Hane Hada Hd1 Hs1).
    rewrite (tokenizeLoop_symbol "(" _ _) by reflexivity.
    rewrite (tokenizeLoop_numeral_symbol b c2 _ _ Hbne Hbdb Hd2 Hs2).
    rewrite (tokenizeLoop_numeral_symbol c ")" _ _ Hcne Hcdc) by reflexivity.
    cbn [tokenizeLoop flushNumber String.eqb app shuntLoop].
    rewrite <- E1, <- E2.
    rewrite (shuntToken_numeral a _ _ Ha); cbn [bind app].
    rewrite (shuntToken_operator _ p1 _ _ Ho1 Hp1); cbn [popHigher bind fst snd].
    rewrite shuntToken_open; cbn [bind].
    rewrite (shuntToken_numeral b _ _ Hb); cbn [bind app].
    rewrite (shuntToken_operator _ p2 _ _ Ho2 Hp2), popHigher_open.
    cbn [bind fst snd].
    rewrite (shuntToken_numeral c _ _ Hc); cbn [bind app].
    rewrite shuntToken_close, (popToParen_operator o2 _ _ Ho2), popToParen_open.
    reflexivity.
Qed.

Lemma parentheses_decide_the_grouping_witness :
  CalculationEngine.calculate (VString "(2+3)*4") = Return (ofZ 20) /\
  CalculationEngine.calculate (VString "2*(3+4)") = Return (ofZ 14).
Proof.
  pose proof (parentheses_decide_the_grouping "2" "3" "4" "+" "*"
                AdditionOperation MultiplicationOperation
                ltac:(split; [discriminate | split; vm_compute; reflexivity])
                ltac:(split; [discriminate | split; vm_compute; reflexivity])
                ltac:(split; [discriminate | split; vm_compute; reflexivity])
                eq_refl eq_refl) as [H1 _].
  pose proof (parentheses_decide_the_grouping "2" "3" "4" "*" "+"
                MultiplicationOperation AdditionOperation
                ltac:(split; [discriminate | split; vm_compute; reflexivity])
                ltac:(split; [discriminate | split; vm_compute; reflexivity])
                ltac:(split; [discriminate | split; vm_compute; reflexivity])
                eq_refl eq_refl) as [_ H2].
  split.
  - etransitivity; [exact H1 | vm_compute; reflexivity].
  - etransitivity; [exact H2 | vm_compute; reflexivity].
Defined.

(** X12: a numeral alone evaluates to its parsed value, rounded. *)
Theorem lone_numeral_evaluates_to_its_value (t : string) :
  numeral t ->
  CalculationEngine.calculate (VString t)
  = Return (_roundResult (parseFloat t)).
Proof.
  intros Ht; pose proof Ht as [Hne [Hd Hn]].
  apply (evaluate_is_roundResult t [operand t]).
  - apply validate_digits; assumption.
  - unfold _toReversePolishNotation, _tokenizeExpression.
    rewrite (tokenizeLoop_last t [] Hne Hd); cbn [app shuntLoop].
    rewrite (shuntToken_numeral t _ _ Ht); reflexivity.
  - reflexivity.
Qed.

Lemma lone_numeral_evaluates_to_its_value_witness :
  CalculationEngine.calculate (VString "0.1") = Return (ofDecimal 1 1).
Proof.
  rewrite (lone_numeral_evaluates_to_its_value "0.1"
             ltac:(split; [discriminate | split; vm_compute; reflexivity])).
  vm_compute; reflexivity.
Defined.

(** ** Spaces *)

Lemma flushNumber_empty (tokens : list string) : flushNumber tokens "" = tokens.
Proof. reflexivity. Qed.

Lemma tokenizeLoop_space_before (x y : string) (c : ascii) :
  digitOrDot c = false -> Ascii.eqb c " " = false ->
  forall cur tokens,
    tokenizeLoop (x ++ String " " (String c y)) cur tokens
    = tokenizeLoop (x ++ String c y) cur tokens.
Proof.
  intros Hc Hs; unfold digitOrDot in Hc.
  induction x as [| d x IH]; intros cur tokens; cbn [append tokenizeLoop].
  - change (_isDigit " " || Ascii.eqb " " ".") with false.
    change (Ascii.eqb " " " ") with true; cbn iota.
    rewrite Hc, Hs, flushNumber_empty; reflexivity.
  - destruct (_isDigit d || Ascii.eqb d "."); rewrite IH; reflexivity.
Qed.

Lemma tokenizeLoop_space_after (x y : string) (c : ascii) :
  digitOrDot c = false -> Ascii.eqb c " " = false ->
  forall cur tokens,
    tokenizeLoop (x ++ String c (String " " y)) cur tokens
    = tokenizeLoop (x ++ String c y) cur tokens.
Proof.
  intros Hc Hs; unfold digitOrDot in Hc.
  induction x as [| d x IH]; intros cur tokens; cbn [append tokenizeLoop].
  - rewrite Hc, Hs.
    change (_isDigit " " || Ascii.eqb " " ".") with false.
    change (Ascii.eqb " " " ") with true; cbn iota.
    rewrite flushNumber_empty; reflexivity.
  - destruct (_isDigit d || Ascii.eqb d "."); rewrite IH; reflexivity.
Qed.

Lemma validate_cases (s : string) :
  s <> "" ->
  (allChars validChar s = true /\ closes (parens s) 0 = true /\
   _validateExpression (VString s) = Return s) \/
  (allChars validChar s = true /\ closes (parens s) 0 = false /\
   fails (_validateExpression (VString s)) SYNTAX_ERROR) \/
  (allChars validChar s = false /\
   fails (_validateExpression (VString s)) INVALID_INPUT).
Proof.
  intros Hne; rewrite <- balanceLoop_closes_0.
  destruct (allChars validChar s) eqn:Hall.
  - destruct (balanceLoop s 0 =? 0) eqn:Hb.
    + left; repeat split; apply validate_accepts; assumption.
    + right; left; repeat split.
      cbn [_validateExpression].
      destruct (String.length s =? 0)%nat eqn:Hlen;
        [apply length_zero_iff in Hlen; contradiction |].
      destruct (denylisted s) eqn:Hdeny.
      { apply denylisted_invalid, allChars_false_iff in Hdeny; congruence. }
      unfold denylisted in Hdeny; rewrite Hdeny.
      unfold validChars; rewrite Hall.
      apply String.eqb_neq in Hne; rewrite Hne, Hb.
      apply fails_Throw; reflexivity.
  - right; right; split; [reflexivity |].
    cbn [_validateExpression].
    destruct (String.length s =? 0)%nat; [apply fails_Throw; reflexivity |].
    destruct (existsb _ dangerousPatterns); [apply fails_Throw; reflexivity |].
    unfold validChars; rewrite Hall, andb_false_r.
    apply fails_Throw; reflexivity.
Qed.

Lemma outcome_fails (v : value) (t : ERROR_TYPES) :
  fails (_validateExpression v) t ->
  outcome (CalculationEngine.calculate v) = inr t.
Proof.
  intros [e [He Ht]]; rewrite (validate_throw_calculate v e He); cbn.
  rewrite Ht; reflexivity.
Qed.

Lemma outcome_same_tokens (s1 s2 : string) :
  s1 <> "" -> s2 <> "" ->
  allChars validChar s1 = allChars validChar s2 ->
  parens s1 = parens s2 ->
  _tokenizeExpression s1 = _tokenizeExpression s2 ->
  outcome (CalculationEngine.calculate (VString s1))
  = outcome (CalculationEngine.calculate (VString s2)).
Proof.
  intros H1 H2 Hall Hpar Htok.
  destruct (validate_cases s1 H1) as [[Ha [Hc Hv]] | [[Ha [Hc Hv]] | [Ha Hv]]];
    destruct (validate_cases s2 H2)
      as [[Ha' [Hc' Hv']] | [[Ha' [Hc' Hv']] | [Ha' Hv']]];
    try congruence.
  - unfold CalculationEngine.calculate; rewrite Hv, Hv'; cbn [bind].
    unfold _toReversePolishNotation; rewrite Htok; reflexivity.
  - rewrite (outcome_fails _ _ Hv), (outcome_fails _ _ Hv'); reflexivity.
  - rewrite (outcome_fails _ _ Hv), (outcome_fails _ _ Hv'); reflexivity.
Qed.

(** X13: a space next to a character that is neither digit nor dot
    changes nothing: with the space before or after it, the tokens are
    the same, and so is what [calculate] returns or the kind of error it
    throws.  (Between two digits a space does separate two numbers.) *)
Theorem space_next_to_a_symbol_is_ignored (x y : string) (c : ascii) :
  digitOrDot c = false -> c <> " "%char ->
  (_tokenizeExpression (x ++ " " ++ String c y)
   = _tokenizeExpression (x ++ String c y) /\
   outcome (CalculationEngine.calculate (VString (x ++ " " ++ String c y)))
   = outcome (CalculationEngine.calculate (VString (x ++ String c y)))) /\
  (_tokenizeExpression (x ++ String c (" " ++ y))
   = _tokenizeExpression (x ++ String c y) /\
   outcome (CalculationEngine.calculate (VString (x ++ String c (" " ++ y))))
   = outcome (CalculationEngine.calculate (VString (x ++ String c y)))).
Proof.
  intros Hc Hs; apply Ascii.eqb_neq in Hs; cbn [append].
  assert (Hne : forall a b d, a ++ String d b <> "")
    by (intros [| ? ?] ? ?; discriminate).
  split.
  - assert (Htok : _tokenizeExpression (x ++ String " " (String c y))
                   = _tokenizeExpression (x ++ String c y))
      by apply (tokenizeLoop_space_before x y c Hc Hs).
    split; [exact Htok |].
    apply outcome_same_tokens; trivial.
    + rewrite !allChars_append; reflexivity.
    + rewrite !parens_append; reflexivity.
  - assert (Htok : _tokenizeExpression (x ++ String c (String " " y))
                   = _tokenizeExpression (x ++ String c y))
      by apply (tokenizeLoop_space_after x y c Hc Hs).
    split; [exact Htok |].
    apply outcome_same_tokens; trivial.
    + rewrite !allChars_append; cbn [allChars].
      destruct (validChar c); reflexivity.
    + rewrite !parens_append; cbn [parens].
      destruct (Ascii.eqb c "("); [reflexivity |].
      destruct (Ascii.eqb c ")"); reflexivity.
Qed.

Lemma space_next_to_a_symbol_is_ignored_witness :
  outcome (CalculationEngine.calculate (VString "12 + 3"))
  = outcome (CalculationEngine.calculate (VString "12+3")) /\
  outcome (CalculationEngine.calculate (VString "1 2+3")) = inr SYNTAX_ERROR.
Proof.
  split; [| vm_compute; reflexivity].
  destruct (space_next_to_a_symbol_is_ignored "12" " 3" "+" eq_refl
              ltac:(discriminate)) as [[_ H1] _].
  destruct (space_next_to_a_symbol_is_ignored "12" "3" "+" eq_refl
              ltac:(discriminate)) as [_ [_ H2]].
  cbn [append] in H1, H2; rewrite H1; exact H2.
Defined.

(** ** Chains of operations *)

Lemma rising_turns (rest : list (string * string)) :
  forall prev, rising prev rest -> turns rest.
Proof.
  induction rest as [| [o b] rest IH]; intros prev Hrise; [constructor |].
  destruct Hrise as [Hb [p [Hp [_ Hrest]]]].
  constructor; [split; [apply (createOperation_operator _ _ Hp) | exact Hb] |].
  apply (IH _ Hrest).
Qed.

Lemma tokenizeLoop_chain (rest : list (string * string)) :
  forall b tokens,
    numeral b -> turns rest ->
    tokenizeLoop (b ++ chain rest) "" tokens
    = (tokens ++ b :: flat_map (fun ob => [fst ob; snd ob]) rest)%list.
Proof.
  induction rest as [| [o b'] rest IH]; intros b tokens Hb Hturns;
    pose proof Hb as [Hne [Hd _]]; cbn [chain flat_map fst snd app].
  - rewrite append_empty_r; apply tokenizeLoop_last; assumption.
  - inversion Hturns as [| ? ? [Ho Hb'] Hrest]; subst; cbn [fst snd] in *.
    destruct (operator_char o Ho) as [c [-> [Hc [Hs _]]]]; cbn [append].
    rewrite (tokenizeLoop_numeral_symbol b c _ _ Hne Hd Hc Hs).
    rewrite (IH b' _ Hb' Hrest), <- app_assoc; reflexivity.
Qed.

Lemma shuntLoop_chain (rest : list (string * string)) :
  forall prev operators output,
    rising prev rest -> topAtMost prev operators ->
    shuntLoop (flat_map (fun ob => [fst ob; snd ob]) rest) (operators, output)
    = Return ((rev (map fst rest) ++ operators)%list,
              (output ++ map operand (map snd rest))%list).
Proof.
  induction rest as [| [o b] rest IH]; intros prev operators output Hrise Htop;
    cbn [flat_map map fst snd rev app shuntLoop].
  - rewrite app_nil_r; reflexivity.
  - destruct Hrise as [Hb [p [Hp [Hle Hrest]]]].
    pose proof (createOperation_operator _ _ Hp) as Ho.
    rewrite (shuntToken_operator o p _ _ Ho Hp).
    assert (Hpop : popHigher p operators output = Return (operators, output)).
    { destruct operators as [| top ops]; [reflexivity |].
      destruct Htop as [pt [Hpt Hlt]].
      rewrite (popHigher_operator pt p top _ _
                 (createOperation_operator _ _ Hpt) Hpt).
      replace (precedence pt >? precedence p) with false; [reflexivity |].
      symmetry; rewrite Z.gtb_ltb; apply Z.ltb_ge; lia. }
    rewrite Hpop; cbn [bind fst snd].
    rewrite (shuntToken_numeral b _ _ Hb); cbn [bind].
    rewrite (IH (precedence p) _ _ Hrest).
    + rewrite <- !app_assoc; reflexivity.
    + exists p; split; [exact Hp | lia].
Qed.

Lemma chain_valid (rest : list (string * string)) :
  turns rest ->
  allChars validChar (chain rest) = true /\ parens (chain rest) = [].
Proof.
  induction rest as [| [o b] rest IH]; intros Hturns; cbn [chain];
    [split; reflexivity |].
  inversion Hturns as [| ? ? [Ho Hb] Hrest]; subst; cbn [fst snd] in *.
  destruct (operator_char o Ho) as [c [-> [_ [_ [Hv [Hl Hr]]]]]].
  destruct (numeral_valid b Hb) as [Hvb Hpb].
  destruct (IH Hrest) as [Hvr Hpr].
  rewrite !allChars_append, !parens_append; cbn [allChars parens].
  rewrite Hv, Hl, Hr, Hvb, Hpb, Hvr, Hpr; split; reflexivity.
Qed.

(** X14: when the precedence never decreases from one operator to the
    next, the expression is evaluated from the right: the operands come
    out in their order and the operators in reverse, so [a o1 b o2 c o3
    d] is [a o1 (b o2 (c o3 d))], also for operators of one and the
    same precedence. *)
Theorem rising_chain_is_evaluated_from_the_right
  (a : string) (rest : list (string * string)) :
  numeral a -> rising 0 rest ->
  let rpn :=
    (operand a :: map operand (map snd rest)
     ++ map RSymbol (rev (map fst rest)))%list in
  _toReversePolishNotation (a ++ chain rest) = Return rpn /\
  CalculationEngine.calculate (VString (a ++ chain rest)) = _evaluateRPN rpn.
Proof.
  intros Ha Hrise rpn.
  assert (Hrpn : _toReversePolishNotation (a ++ chain rest) = Return rpn).
  { unfold _toReversePolishNotation, _tokenizeExpression.
    rewrite (tokenizeLoop_chain rest a [] Ha (rising_turns _ _ Hrise)).
    cbn [app shuntLoop].
    rewrite (shuntToken_numeral a _ _ Ha); cbn [bind app].
    rewrite (shuntLoop_chain rest 0 [] _ Hrise I); cbn [bind fst snd app].
    rewrite app_nil_r; reflexivity. }
  split; [exact Hrpn |].
  apply calculate_validated; [| exact Hrpn].
  destruct (numeral_valid a Ha) as [Hva Hpa].
  destruct (chain_valid rest (rising_turns _ _ Hrise)) as [Hvr Hpr].
  apply validate_closed.
  - destruct Ha as [Hne _]; destruct a; [contradiction | discriminate].
  - rewrite allChars_append, Hva, Hvr; reflexivity.
  - rewrite parens_append, Hpa, Hpr; reflexivity.
Qed.

Lemma rising_chain_is_evaluated_from_the_right_witness :
  CalculationEngine.calculate (VString "10-4-3+2*5") = Return (ofZ 19).
Proof.
  assert (Hn : forall t, allChars digitOrDot t = true -> t <> "" ->
                         _isNumber t = true -> numeral t)
    by (intros t H1 H2 H3; repeat split; assumption).
  pose proof (rising_chain_is_evaluated_from_the_right "10"
                [("-", "4"); ("-", "3"); ("+", "2"); ("*", "5")]) as H.
  cbv zeta in H; cbn [chain rising append] in H.
  destruct H as [_ H].
  - apply Hn; [reflexivity | discriminate | vm_compute; reflexivity].
  - split; [apply Hn; [reflexivity | discriminate | vm_compute; reflexivity] |].
    exists SubtractionOperation; split; [reflexivity |].
    split; [cbn; lia |].
    split; [apply Hn; [reflexivity | discriminate | vm_compute; reflexivity] |].
    exists SubtractionOperation; split; [reflexivity |].
    split; [cbn; lia |].
    split; [apply Hn; [reflexivity | discriminate | vm_compute; reflexivity] |].
    exists AdditionOperation; split; [reflexivity |].
    split; [cbn; lia |].
    split; [apply Hn; [reflexivity | discriminate | vm_compute; reflexivity] |].
    exists MultiplicationOperation; split; [reflexivity |].
    split; [cbn; lia | exact I].
  - etransitivity; [exact H | vm_compute; reflexivity].
Defined.

(** ** Where [NaN] can come from *)

Lemma tokenizeLoop_onlySpaces (s : string) :
  forall cur tokens,
    onlySpaces s = true -> clean cur = true -> Forall cleanToken tokens ->
    Forall cleanToken (tokenizeLoop s cur tokens).
Proof.
  assert (Hflush : forall cur tokens,
             clean cur = true -> Forall cleanToken tokens ->
             Forall cleanToken (flushNumber tokens cur)).
  { intros cur tokens Hc Ht; unfold flushNumber.
    destruct (String.eqb_spec cur ""); [exact Ht |].
    apply Forall_push; [exact Ht | split; assumption]. }
  induction s as [| c r IH]; intros cur tokens Hs Hc Ht; cbn [tokenizeLoop].
  - apply Hflush; assumption.
  - unfold onlySpaces in Hs; cbn [allChars] in Hs; apply andb_true_iff in Hs.
    destruct Hs as [Hpc Hr].
    destruct (Ascii.eqb_spec c " ") as [-> | Hsp].
    + cbn; apply IH; trivial; apply Hflush; assumption.
    + rewrite orb_false_r in Hpc.
      destruct (_isDigit c || Ascii.eqb c ".").
      * apply IH; trivial.
        unfold clean in *; rewrite allChars_append, Hc; cbn; rewrite Hpc.
        reflexivity.
      * apply IH; trivial.
        apply Forall_push; [apply Hflush; assumption |].
        split; [discriminate | unfold clean; cbn; rewrite Hpc; reflexivity].
Qed.

(** X15: the engine returns [NaN] only for an expression that holds a
    white-space character other than the space: such a character becomes
    a token that [_isNumber] accepts and [parseFloat] cannot read. *)
Theorem engine_returns_NaN_only_on_other_white_space
  (s : string) (r : number) :
  CalculationEngine.calculate (VString s) = Return r ->
  Number_isNaN r = true -> onlySpaces s = false.
Proof.
  unfold CalculationEngine.calculate; intros H Hnan.
  destruct (onlySpaces s) eqn:Hc; [| reflexivity].
  destruct (_validateExpression (VString s)) as [s' | e] eqn:Hv; cbn [bind] in H;
    [| discriminate].
  apply validate_returns in Hv; destruct Hv as [Hv _]; injection Hv as <-.
  destruct (_toReversePolishNotation s) as [rpn | e] eqn:Hrpn; cbn [bind] in H;
    [| discriminate].
  unfold _toReversePolishNotation in Hrpn.
  destruct (shuntLoop (_tokenizeExpression s) ([], [])) as [st | e] eqn:Hs;
    cbn [bind] in Hrpn; [| discriminate].
  injection Hrpn as <-.
  assert (Hfin : Forall finiteItem (snd st ++ map RSymbol (fst st))).
  { apply Forall_app; split.
    - apply (shuntLoop_finite _ _ _
               (tokenizeLoop_onlySpaces s "" [] Hc eq_refl (Forall_nil _)) Hs).
      constructor.
    - apply Forall_forall; intros i Hi; apply in_map_iff in Hi.
      destruct Hi as [x [<- _]]; exact I. }
  unfold _evaluateRPN, rawResult in H.
  destruct (evalLoop _ []) as [stack | e] eqn:Hev; cbn [bind] in H;
    [| discriminate].
  pose proof (evalLoop_finite _ _ _ Hfin (Forall_nil _) Hev) as Hst.
  destruct stack as [| x [| y stack]]; cbn [bind] in H; try discriminate.
  injection H as <-.
  inversion Hst; subst.
  rewrite roundResult_not_nan in Hnan by assumption; discriminate Hnan.
Qed.

Lemma engine_returns_NaN_only_on_other_white_space_witness :
  CalculationEngine.calculate (VString (String "009" "")) = Return NaN /\
  onlySpaces (String "009" "") = false.
Proof.
  assert (H : CalculationEngine.calculate (VString (String "009" ""))
              = Return NaN) by (vm_compute; reflexivity).
  split; [exact H |].
  apply (engine_returns_NaN_only_on_other_white_space _ _ H).
  vm_compute; reflexivity.
Defined.

(** * Further properties of the state *)

(** ** The history and the last calculation *)

Lemma newest_push (h : list HistoryEntry) (e : HistoryEntry) :
  newest (pushHistory h e) = Some (entry_expression e, entry_result e).
Proof.
  unfold pushHistory, newest.
  destruct (10 <? List.length (h ++ [e]))%nat eqn:Hlen.
  - destruct h as [| x h]; [discriminate Hlen |].
    cbn [app tl]; rewrite rev_app_distr; reflexivity.
  - rewrite rev_app_distr; reflexivity.
Qed.

Lemma Forall_pushHistory (P : HistoryEntry -> Prop)
  (h : list HistoryEntry) (e : HistoryEntry) :
  Forall P h -> P e -> Forall P (pushHistory h e).
Proof.
  intros Hh He; unfold pushHistory.
  assert (H : Forall P (h ++ [e])) by (apply Forall_push; assumption).
  destruct (10 <? List.length (h ++ [e]))%nat; [| exact H].
  destruct (h ++ [e])%list; [exact H | inversion H; assumption].
Qed.

(** What one call does to the history and to the last calculation: both
    stay, both are emptied, or one evaluation is recorded in both. *)
Lemma step_records (st : CalculatorState) (c : Call) :
  (history (step st c) = history st /\
   lastCalculation (step st c) = lastCalculation st) \/
  (history (step st c) = [] /\ lastCalculation (step st c) = None) \/
  (exists e, truthful e /\
     history (step st c) = pushHistory (history st) e /\
     lastCalculation (step st c)
     = Some (entry_expression e, entry_result e)).
Proof.
  assert (Hcalc : forall now,
    (history (fst (calculate now st)) = history st /\
     lastCalculation (fst (calculate now st)) = lastCalculation st) \/
    (exists e, truthful e /\
       history (fst (calculate now st)) = pushHistory (history st) e /\
       lastCalculation (fst (calculate now st))
       = Some (entry_expression e, entry_result e))).
  { intros now; unfold calculate.
    destruct (noOperator (operator st) || (previousInput st =? "")%string);
      [left; split; reflexivity |].
    destruct (CalculationEngine.calculate (VString (expressionOf st)))
      as [r | e] eqn:He; [| left; split; reflexivity].
    right; exists (mkEntry (expressionOf st) r now).
    split; [exact He | split; reflexivity]. }
  destruct c as [v | op now | now | |]; cbn [step].
  - left; unfold updateInput, setCurrentInput.
    repeat match goal with |- context [if ?b then _ else _] => destruct b end;
      split; reflexivity.
  - unfold applyOperator.
    destruct (negb (noOperator (operator st)) && negb (shouldResetDisplay st)).
    + specialize (Hcalc now).
      destruct (calculate now st) as [st1 [| e]]; cbn [fst] in *;
        (destruct Hcalc as [H | H]; [left; exact H | right; right; exact H]).
    + left; split; reflexivity.
  - destruct (Hcalc now) as [H | H]; [left; exact H | right; right; exact H].
  - left; unfold backspace, setCurrentInput.
    destruct (1 <? String.length (currentInput st))%nat; split; reflexivity.
  - right; left; split; reflexivity.
Qed.

(** X16: after any sequence of calls on a fresh state,
    [getLastCalculation()] is [null] exactly when the history is empty,
    and otherwise holds the expression and the result of the newest
    history entry. *)
Theorem last_calculation_is_newest_history_entry (calls : list Call) :
  getLastCalculation (run calls reset) = newest (getHistory (run calls reset)).
Proof.
  unfold getLastCalculation, getHistory.
  assert (H : forall st, lastCalculation st = newest (history st) ->
                         lastCalculation (run calls st)
                         = newest (history (run calls st))).
  { induction calls as [| c rest IH]; intros st Hst; [exact Hst |].
    cbn [run fold_left]; apply IH.
    destruct (step_records st c) as [[-> ->] | [[-> ->] | [e [_ [-> ->]]]]];
      [exact Hst | reflexivity | symmetry; apply newest_push]. }
  apply H; reflexivity.
Qed.

(** X17: every entry of the history is truthful: its result is what the
    engine returns for its expression. *)
Theorem history_entries_are_engine_results (calls : list Call) :
  Forall truthful (getHistory (run calls reset)).
Proof.
  unfold getHistory.
  assert (H : forall st, Forall truthful (history st) ->
                         Forall truthful (history (run calls st))).
  { induction calls as [| c rest IH]; intros st Hst; [exact Hst |].
    cbn [run fold_left]; apply IH.
    destruct (step_records st c) as [[-> _] | [[-> _] | [e [He [-> _]]]]];
      [exact Hst | constructor | apply Forall_pushHistory; assumption]. }
  apply H; constructor.
Qed.

(** ** Equals and operators pressed twice *)

(** X18: a second [calculate()] changes nothing and throws nothing,
    whatever the first one did: the equals key does not repeat the last
    operation. *)
Theorem second_calculate_does_nothing (now1 now2 : string)
  (st : CalculatorState) :
  calculate now2 (fst (calculate now1 st)) = (fst (calculate now1 st), Normal).
Proof.
  unfold calculate at 2 3.
  destruct (noOperator (operator st) || (previousInput st =? "")%string) eqn:Hc.
  - cbn [fst]; unfold calculate; rewrite Hc; reflexivity.
  - destruct (CalculationEngine.calculate (VString (expressionOf st)));
      reflexivity.
Qed.

(** X19: [applyOperator] records the operator exactly when it ends
    normally.  When the pending operation it evaluates first throws, the
    display is the error sentinel, nothing is pending and the operator
    just pressed is lost; and an operator pressed right after another
    one only replaces it. *)
Theorem applyOperator_records_unless_it_throws (op now : string)
  (st : CalculatorState) :
  match snd (applyOperator op now st) with
  | Normal =>
      operator (fst (applyOperator op now st)) = Some op /\
      previousInput (fst (applyOperator op now st))
      = currentInput (fst (applyOperator op now st)) /\
      forall op2 now2,
        applyOperator op2 now2 (fst (applyOperator op now st))
        = (setOperator op2 (fst (applyOperator op now st)), Normal)
  | Abrupt e =>
      operator (fst (applyOperator op now st)) = None /\
      previousInput (fst (applyOperator op now st)) = "" /\
      currentInput (fst (applyOperator op now st)) = ERROR_MESSAGE /\
      CalculationEngine.calculate (VString (expressionOf st)) = Throw e
  end.
Proof.
  unfold applyOperator.
  destruct (negb (noOperator (operator st)) && negb (shouldResetDisplay st));
    [| cbn; repeat split; intros; cbn; rewrite andb_false_r; reflexivity].
  unfold calculate.
  destruct (noOperator (operator st) || (previousInput st =? "")%string);
    [cbn; repeat split; intros; cbn; rewrite andb_false_r; reflexivity |].
  destruct (CalculationEngine.calculate (VString (expressionOf st)));
    cbn; repeat split; intros; cbn; rewrite andb_false_r; reflexivity.
Qed.

(** ** From the keys to the engine *)

Lemma setCurrentInput_same (st : CalculatorState) :
  setCurrentInput (currentInput st) st = st.
Proof. destruct st; reflexivity. Qed.

Lemma run_app (l1 l2 : list Call) (st : CalculatorState) :
  run (l1 ++ l2) st = run l2 (run l1 st).
Proof. apply fold_left_app. Qed.

Lemma typing_more (r : string) :
  forall st,
    shouldResetDisplay st = false -> currentInput st <> "" ->
    (String.length (currentInput st) + String.length r <= MAX_DISPLAY_LENGTH)%nat ->
    (currentInput st = "0" -> r = "" \/ exists r', r = String "." r') ->
    (if includes "." (currentInput st)
     then allChars isDigitChar r else fractionOK r) = true ->
    run (keys r) st = setCurrentInput (currentInput st ++ r) st.
Proof.
  induction r as [| c r IH]; intros st Hreset Hne Hlen Hzero Hshape.
  - cbn [keys run fold_left]; rewrite append_empty_r, setCurrentInput_same.
    reflexivity.
  - cbn [keys run fold_left step]; fold (run (keys r)).
    assert (Hnext : forall s, s <> "" -> s ++ String c "" <> "0").
    { intros [| x [| y s]] Hs; [contradiction | discriminate | discriminate]. }
    assert (Hne' : forall s, s ++ String c "" <> "").
    { intros [| x s]; discriminate. }
    cbn [String.length] in Hlen.
    destruct (Ascii.eqb_spec c ".") as [-> | Hdot].
    + destruct (includes "." (currentInput st)) eqn:Hinc;
        [discriminate Hshape |].
      cbn in Hshape.
      unfold updateInput; cbn [String.eqb Ascii.eqb Bool.eqb DECIMAL].
      rewrite Hinc, IH; cbn [setCurrentInput currentInput shouldResetDisplay].
      * rewrite append_assoc; reflexivity.
      * exact Hreset.
      * apply Hne'.
      * rewrite length_append; cbn; lia.
      * intros H; elim (Hnext _ Hne H).
      * rewrite includes_append; cbn; rewrite orb_true_r; exact Hshape.
    + assert (Hc : isDigitChar c = true /\
                   (if includes "." (currentInput st)
                    then allChars isDigitChar r else fractionOK r) = true).
      { destruct (includes "." (currentInput st)); cbn in Hshape.
        - apply andb_true_iff in Hshape; exact Hshape.
        - destruct (isDigitChar c); [split; trivial |].
          apply andb_true_iff in Hshape; destruct Hshape as [Hd _].
          apply Ascii.eqb_eq in Hd; contradiction. }
      destruct Hc as [Hc Hrest].
      assert (Hnz : currentInput st <> "0").
      { intros H; destruct (Hzero H) as [H0 | [r' H0]]; [discriminate H0 |].
        injection H0 as H0 _; contradiction. }
      unfold updateInput.
      replace (String c "" =? DECIMAL)%string with false
        by (symmetry; apply String.eqb_neq; intros H; injection H as H;
            contradiction).
      apply String.eqb_neq in Hnz; unfold DEFAULT_DISPLAY_VALUE.
      rewrite Hnz, Hreset; cbn [orb].
      replace (String.length (currentInput st) <? MAX_DISPLAY_LENGTH)%nat
        with true by (symmetry; apply Nat.ltb_lt; lia).
      rewrite IH; cbn [setCurrentInput currentInput shouldResetDisplay].
      * rewrite append_assoc; reflexivity.
      * exact Hreset.
      * apply Hne'.
      * rewrite length_append; cbn; lia.
      * intros H; elim (Hnext _ Hne H).
      * rewrite includes_append; cbn.
        destruct (Ascii.eqb_spec c "."); [contradiction |].
        rewrite !orb_false_r; exact Hrest.
Qed.

Lemma typable_nonempty (a : string) : typable a = true -> a <> "".
Proof. intros H ->; discriminate H. Qed.

Lemma typing_fresh (a : string) (st : CalculatorState) :
  typable a = true -> fresh st ->
  run (keys a) st
  = mkState a (previousInput st) (operator st) false
            (history st) (lastCalculation st).
Proof.
  unfold typable; intros Ha Hfresh.
  apply andb_true_iff in Ha; destruct Ha as [Ha Hlead].
  apply andb_true_iff in Ha; destruct Ha as [Hlit Hlen].
  apply Nat.leb_le in Hlen.
  destruct a as [| c r]; [discriminate Hlit |].
  unfold typedLiteral in Hlit; cbn [startsWithDigit fractionOK] in Hlit.
  apply andb_true_iff in Hlit; destruct Hlit as [Hc Hfrac].
  rewrite Hc in Hfrac.
  assert (Hcd : Ascii.eqb c "." = false).
  { destruct (Ascii.eqb_spec c "."); [subst; discriminate Hc | reflexivity]. }
  cbn [keys run fold_left step]; fold (run (keys r)).
  assert (Hfirst : updateInput (String c "") st
                   = mkState (String c "") (previousInput st) (operator st)
                             false (history st) (lastCalculation st)).
  { unfold updateInput; cbn [String.eqb DECIMAL]; rewrite Hcd.
    destruct Hfresh as [-> | ->]; [reflexivity | rewrite orb_true_r; reflexivity]. }
  rewrite Hfirst, typing_more; cbn [currentInput shouldResetDisplay].
  - reflexivity.
  - reflexivity.
  - discriminate.
  - cbn [String.length] in *; lia.
  - intros H; injection H as ->.
    destruct r as [| d r]; [left; reflexivity | right].
    apply Ascii.eqb_eq in Hlead; subst; eexists; reflexivity.
  - cbn [includes]; rewrite Hcd; exact Hfrac.
Qed.

(** X20: typing a literal on a fresh display shows exactly that literal,
    whatever was shown before, and changes nothing else. *)
Theorem typed_literal_is_displayed (a : string) (st : CalculatorState) :
  typable a = true -> fresh st ->
  getDisplayValue (run (keys a) st) = a /\
  shouldResetDisplay (run (keys a) st) = false /\
  previousInput (run (keys a) st) = previousInput st /\
  operator (run (keys a) st) = operator st /\
  getHistory (run (keys a) st) = getHistory st.
Proof.
  intros Ha Hf; rewrite (typing_fresh a st Ha Hf); repeat split.
Qed.

Lemma typed_literal_is_displayed_witness :
  getDisplayValue (run (keys "0.25") (run five_by_zero reset)) = "0.25".
Proof.
  apply (typed_literal_is_displayed "0.25" (run five_by_zero reset)).
  - reflexivity.
  - right; vm_compute; reflexivity.
Defined.

Lemma operation_typed (a b op now1 : string) (st : CalculatorState) :
  typable a = true -> typable b = true ->
  fresh st -> noOperator (operator st) = true ->
  run (keys a ++ ApplyOperator op now1 :: keys b) st
  = mkState b a (Some op) false (history st) (lastCalculation st).
Proof.
  intros Ha Hb Hf Hno.
  rewrite run_app, (typing_fresh a st Ha Hf).
  cbn [run fold_left step]; fold (run (keys b)).
  unfold applyOperator; cbn [operator shouldResetDisplay].
  rewrite Hno; cbn [negb andb fst currentInput history lastCalculation].
  rewrite typing_fresh; [reflexivity | exact Hb | right; reflexivity].
Qed.

(** X21: on a fresh display with nothing pending, typing [a], an
    operator, [b] and equals evaluates the expression [a op b] with the
    engine: the display shows the result, which is recorded in the
    history and as the last calculation, or shows the error sentinel
    when the engine throws, and nothing is recorded. *)
Theorem typed_operation_is_evaluated (a b op now1 now2 : string)
  (st : CalculatorState) :
  typable a = true -> typable b = true -> op <> "" ->
  fresh st -> noOperator (operator st) = true ->
  run (keys a ++ ApplyOperator op now1 :: keys b ++ [Calculate now2]) st
  = match CalculationEngine.calculate (VString (a ++ op ++ b)) with
    | Return r =>
        mkState (Number_toString r) "" None true
                (pushHistory (history st) (mkEntry (a ++ op ++ b) r now2))
                (Some (a ++ op ++ b, r))
    | Throw _ =>
        mkState ERROR_MESSAGE "" None true (history st) (lastCalculation st)
    end.
Proof.
  intros Ha Hb Hop Hf Hno.
  rewrite app_comm_cons, app_assoc, run_app.
  rewrite (operation_typed a b op now1 st Ha Hb Hf Hno).
  cbn [run fold_left step]; unfold calculate, expressionOf.
  cbn [operator previousInput currentInput noOperator operatorText history
       lastCalculation].
  apply String.eqb_neq in Hop; rewrite Hop.
  pose proof (typable_nonempty a Ha) as Hane.
  apply String.eqb_neq in Hane; rewrite Hane; cbn [orb].
  destruct (CalculationEngine.calculate (VString (a ++ op ++ b))); reflexivity.
Qed.

Lemma typed_operation_is_evaluated_witness :
  getDisplayValue
    (run (keys "12" ++ ApplyOperator "+" "t1" :: keys "0.5" ++ [Calculate "t2"])
         reset) = "12.5".
Proof.
  rewrite (typed_operation_is_evaluated "12" "0.5" "+" "t1" "t2" reset
             eq_refl eq_refl ltac:(discriminate) (or_introl eq_refl) eq_refl).
  vm_compute; reflexivity.
Defined.

Lemma Number_toString_nonempty (x : number) : Number_toString x <> "".
Proof.
  destruct (Number_isNaN x) eqn:Hnan.
  - destruct x; try discriminate Hnan; discriminate.
  - destruct (Number_toString_literal x Hnan) as [Hl _].
    intros H; rewrite H in Hl; discriminate Hl.
Qed.

(** X22: the keypad evaluates from left to right, whatever the
    precedences: when a second operator is pressed the pending operation
    [a o1 b] is evaluated, and equals then evaluates its displayed
    result with [o2] and [c].  When the pending operation throws, the
    second operator is lost and equals leaves [c] on the display. *)
Theorem keypad_evaluates_left_to_right
  (a b c o1 o2 now1 now2 now3 : string) (st : CalculatorState) :
  typable a = true -> typable b = true -> typable c = true ->
  o1 <> "" -> o2 <> "" -> fresh st -> noOperator (operator st) = true ->
  getDisplayValue
    (run (keys a ++ ApplyOperator o1 now1 :: keys b ++
          ApplyOperator o2 now2 :: keys c ++ [Calculate now3]) st)
  = match CalculationEngine.calculate (VString (a ++ o1 ++ b)) with
    | Return r1 =>
        shown (CalculationEngine.calculate
                 (VString (Number_toString r1 ++ o2 ++ c)))
    | Throw _ => c
    end.
Proof.
  intros Ha Hb Hc Ho1 Ho2 Hf Hno.
  rewrite app_comm_cons, app_assoc, run_app.
  rewrite (operation_typed a b o1 now1 st Ha Hb Hf Hno).
  cbn [run fold_left step]; fold (run (keys c ++ [Calculate now3])).
  unfold applyOperator at 1, calculate at 1, expressionOf.
  cbn [operator previousInput currentInput shouldResetDisplay noOperator
       operatorText history lastCalculation].
  apply String.eqb_neq in Ho1; rewrite Ho1.
  pose proof (typable_nonempty a Ha) as Hane.
  apply String.eqb_neq in Hane; rewrite Hane; cbn [orb negb andb].
  destruct (CalculationEngine.calculate (VString (a ++ o1 ++ b))) as [r1 | e];
    cbn [fst currentInput history lastCalculation];
    rewrite run_app, typing_fresh by (trivial; right; reflexivity);
    cbn [run fold_left step previousInput operator history lastCalculation];
    unfold calculate, expressionOf;
    cbn [operator previousInput currentInput noOperator operatorText history
         lastCalculation orb fst getDisplayValue]; [| reflexivity].
  apply String.eqb_neq in Ho2; rewrite Ho2.
  pose proof (Number_toString_nonempty r1) as Hr.
  apply String.eqb_neq in Hr; rewrite Hr; cbn [orb].
  destruct (CalculationEngine.calculate _); reflexivity.
Qed.

Lemma keypad_evaluates_left_to_right_witness :
  getDisplayValue
    (run (keys "3" ++ ApplyOperator "+" "t1" :: keys "4" ++
          ApplyOperator "*" "t2" :: keys "2" ++ [Calculate "t3"]) reset)
  = "14" /\
  CalculationEngine.calculate (VString "3+4*2") = Return (ofZ 11).
Proof.
  split; [| vm_compute; reflexivity].
  rewrite (keypad_evaluates_left_to_right "3" "4" "2" "+" "*" "t1" "t2" "t3"
             reset eq_refl eq_refl eq_refl ltac:(discriminate)
             ltac:(discriminate) (or_introl eq_refl) eq_refl).
  vm_compute; reflexivity.
Defined.

(** ** Backspace and the display *)

Lemma dropLast_snoc (s : string) (c : ascii) :
  dropLast (s ++ String c "") = s.
Proof.
  induction s as [| x s IH]; [reflexivity |].
  cbn [append]; rewrite dropLast_cons, IH; [reflexivity |].
  destruct s; discriminate.
Qed.

(** X23: on a display that holds typed input, [backspace] undoes a key
    that changed the display: the state is again the one before the key.
    (After a result the digit replaces the display, and backspace does
    not bring the result back.) *)
Theorem backspace_undoes_an_accepted_key (v : string) (st : CalculatorState) :
  shouldResetDisplay st = false -> currentInput st <> "" ->
  String.length v = 1%nat ->
  currentInput (updateInput v st) <> currentInput st ->
  backspace (updateInput v st) = st.
Proof.
  intros Hreset Hne Hlen Hchanged.
  destruct v as [| c [| d v]]; try discriminate Hlen; clear Hlen.
  assert (Hlong : (1 <? String.length (currentInput st ++ String c ""))%nat
                  = true).
  { apply Nat.ltb_lt; rewrite length_append; cbn.
    destruct (currentInput st); [contradiction | cbn; lia]. }
  assert (Hback : backspace (setCurrentInput (currentInput st ++ String c "") st)
                  = st).
  { unfold backspace; cbn [setCurrentInput currentInput]; rewrite Hlong.
    rewrite dropLast_snoc; destruct st; reflexivity. }
  revert Hchanged; unfold updateInput.
  destruct (String c "" =? DECIMAL)%string eqn:Hdec.
  - apply String.eqb_eq in Hdec; injection Hdec as ->.
    destruct (includes "." (currentInput st)); [contradiction |].
    intros _; exact Hback.
  - rewrite Hreset, orb_false_r.
    destruct (String.eqb_spec (currentInput st) DEFAULT_DISPLAY_VALUE)
      as [Hz | Hnz].
    + intros _; unfold backspace; cbn.
      destruct st; cbn in *; subst; reflexivity.
    + destruct (String.length (currentInput st) <? MAX_DISPLAY_LENGTH)%nat;
        [intros _; exact Hback | contradiction].
Qed.

Lemma backspace_undoes_an_accepted_key_witness :
  backspace (updateInput "." (run (keys "12") reset)) = run (keys "12") reset.
Proof.
  apply (backspace_undoes_an_accepted_key "." (run (keys "12") reset));
    [reflexivity | discriminate | reflexivity | vm_compute; discriminate].
Defined.

Lemma append_nonempty_r (a b : string) : b <> "" -> a ++ b <> "".
Proof. destruct a; [trivial | discriminate]. Qed.

Lemma nonempty_step (st : CalculatorState) (c : Call) :
  passesText c = true -> currentInput st <> "" -> currentInput (step st c) <> "".
Proof.
  assert (Hcalc : forall now, currentInput st <> "" ->
                              currentInput (fst (calculate now st)) <> "").
  { intros now Hne; unfold calculate.
    destruct (noOperator (operator st) || (previousInput st =? "")%string);
      [exact Hne |].
    destruct (CalculationEngine.calculate (VString (expressionOf st)));
      [apply Number_toString_nonempty | discriminate]. }
  intros Hc Hne; destruct c as [v | op now | now | |]; cbn [step].
  - cbn in Hc; apply negb_true_iff, String.eqb_neq in Hc.
    unfold updateInput, setCurrentInput.
    repeat match goal with |- context [if ?b then _ else _] => destruct b end;
      cbn [currentInput]; trivial; apply append_nonempty_r;
      [discriminate | exact Hc].
  - unfold applyOperator.
    destruct (negb (noOperator (operator st)) && negb (shouldResetDisplay st));
      [| exact Hne].
    specialize (Hcalc now Hne).
    destruct (calculate now st) as [st1 [| e]]; exact Hcalc.
  - apply Hcalc, Hne.
  - unfold backspace, setCurrentInput.
    destruct (1 <? String.length (currentInput st))%nat eqn:Hlen;
      cbn [currentInput]; [| discriminate].
    apply Nat.ltb_lt in Hlen; intros H.
    apply (f_equal String.length) in H; rewrite length_dropLast in H.
    cbn in H; lia.
  - discriminate.
Qed.

(** X24: the display is never blank: after any sequence of calls that
    pass no empty string to [updateInput], [getDisplayValue()] is not
    the empty string. *)
Theorem display_is_never_empty (calls : list Call) :
  forallb passesText calls = true ->
  getDisplayValue (run calls reset) <> "".
Proof.
  intros H; unfold getDisplayValue.
  apply (forallb_run_invariant passesText
           (fun st => currentInput st <> "") nonempty_step calls reset H).
  discriminate.
Qed.

Lemma display_is_never_empty_witness :
  forallb passesText five_by_zero_backspace = true /\
  getDisplayValue (run five_by_zero_backspace reset) <> "".
Proof.
  split; [reflexivity |].
  apply (display_is_never_empty five_by_zero_backspace); reflexivity.
Defined.

(** ** The controller *)

Lemma handlerOf_keypad (ev : Event) (c : Call) :
  digitButton ev = true -> handlerOf ev = Some c -> keypadCall c = true.
Proof.
  destruct ev as [key now | number action now |]; cbn [handlerOf digitButton].
  - intros _; unfold handleKeyboardInput, keyboardHandlers; cbn [lookupKey].
    repeat match goal with
           | |- context [if ?b then _ else _] =>
               destruct b;
               [cbn [option_map]; intros H; injection H as <-; reflexivity |]
           end.
    discriminate.
  - destruct number as [n |]; cbn [handleButtonClick option_map].
    + intros Hn H; injection H as <-; cbn; rewrite Hn; reflexivity.
    + intros _; destruct action as [a |]; [| discriminate].
      destruct (a =? "")%string; [discriminate |].
      unfold handleAction; destruct (isOperator a) eqn:Ha;
        [cbn; intros H; injection H as <-; exact Ha |].
      repeat match goal with
             | |- context [if ?b then _ else _] =>
                 destruct b;
                 [cbn [option_map]; intros H; injection H as <-; reflexivity |]
             end.
      discriminate.
  - intros _ H; injection H as <-; reflexivity.
Qed.

(** X25: the controller drives the state only through keypad calls.
    Whatever keys are pressed and buttons clicked, with digits as the
    buttons' numbers, and whenever the deferred [clear()] of
    [handleError] runs, the state is one that digit and decimal keys,
    the five operators, equals, backspace and clear reach from the
    initial state; and no action button types the decimal point. *)
Theorem controller_reaches_keypad_states (events : list Event) :
  forallb digitButton events = true ->
  reachable (fold_left dispatch events reset) /\
  handleAction DECIMAL = None.
Proof.
  intros Hev; split; [| reflexivity].
  assert (H : forall st, reachable st -> reachable (fold_left dispatch events st)).
  { induction events as [| ev rest IH]; intros st Hst; [exact Hst |].
    cbn in Hev; apply andb_true_iff in Hev; destruct Hev as [Hd Hrest].
    cbn [fold_left]; apply (IH Hrest).
    unfold dispatch; destruct (handlerOf ev) as [c |] eqn:Hc; [| exact Hst].
    destruct Hst as [calls [Hcalls ->]].
    exists (calls ++ [c])%list; split.
    - rewrite forallb_app, Hcalls; cbn.
      rewrite (handlerOf_keypad ev c Hd Hc); reflexivity.
    - unfold run; rewrite fold_left_app; reflexivity. }
  apply H; exists []; split; reflexivity.
Qed.

Lemma controller_reaches_keypad_states_witness :
  reachable
    (fold_left dispatch
       [Click (Some "7") None "t0"; KeyDown "/" "t1"; KeyDown "0" "t2";
        Click None (Some "=") "t3"; ErrorTimeout; KeyDown "F5" "t4"] reset) /\
  handleAction DECIMAL = None.
Proof.
  apply (controller_reaches_keypad_states
           [Click (Some "7") None "t0"; KeyDown "/" "t1"; KeyDown "0" "t2";
            Click None (Some "=") "t3"; ErrorTimeout; KeyDown "F5" "t4"]).
  reflexivity.
Defined.

(** ** The decimal point *)

(** X26: a decimal point typed while the display awaits a new number is
    lost: the digit that follows replaces the display, point included,
    so typing [.5] after an operator or a result enters [5]. *)
Theorem decimal_point_before_the_first_digit_is_lost
  (v : string) (st : CalculatorState) :
  shouldResetDisplay st = true -> v <> DECIMAL ->
  updateInput v (updateInput DECIMAL st) = updateInput v st.
Proof.
  intros Hreset Hv; apply String.eqb_neq in Hv.
  unfold updateInput at 2; cbn [String.eqb Ascii.eqb Bool.eqb DECIMAL].
  destruct (includes "." (currentInput st)); [reflexivity |].
  unfold updateInput; rewrite Hv.
  cbn [setCurrentInput currentInput shouldResetDisplay previousInput operator
       history lastCalculation].
  rewrite Hreset, !orb_true_r; reflexivity.
Qed.

Lemma decimal_point_before_the_first_digit_is_lost_witness :
  getDisplayValue
    (run [UpdateInput "1"; ApplyOperator "+" "t1"; UpdateInput ".";
          UpdateInput "5"; Calculate "t2"] reset) = "6".
Proof.
  change (getDisplayValue
            (fst (calculate "t2"
                    (updateInput "5"
                       (updateInput DECIMAL
                          (fst (applyOperator "+" "t1"
                                  (updateInput "1" reset)))))))
          = "6").
  rewrite (decimal_point_before_the_first_digit_is_lost "5"
             (fst (applyOperator "+" "t1" (updateInput "1" reset)))
             eq_refl ltac:(discriminate)).
  vm_compute; reflexivity.
Defined.

(** ** Numbers and operators must match *)

Lemma returns_counts (s : string) (r : number) :
  CalculationEngine.calculate (VString s) = Return r ->
  List.length (filter _isNumber (_tokenizeExpression s))
  = S (List.length (filter isOperator (_tokenizeExpression s))).
Proof.
  unfold CalculationEngine.calculate.
  destruct (_validateExpression (VString s)) as [s' | e] eqn:Hv; cbn [bind];
    [| discriminate].
  apply validate_returns in Hv; destruct Hv as [Hv _]; injection Hv as <-.
  unfold _toReversePolishNotation.
  destruct (shuntLoop (_tokenizeExpression s) ([], [])) as [st | e] eqn:Hs;
    cbn [bind]; [| discriminate].
  destruct (shuntLoop_keeps _ _ _ Hs) as [Hn Ho].
  unfold _evaluateRPN, rawResult.
  destruct (evalLoop _ []) as [stack | e] eqn:Hev; cbn [bind]; [| discriminate].
  destruct stack as [| x [| y stack]]; cbn [bind]; try discriminate.
  intros _; apply evalLoop_depth in Hev.
  rewrite numbersOf_app, numbersOf_symbols, app_nil_r, Hn in Hev.
  rewrite operatorsOf_app, operatorsOf_symbols in Hev.
  apply Permutation_length in Ho; unfold operatorsHeld in Ho.
  cbn [fst snd numbersOf operatorsOf filter app] in Hev, Ho.
  rewrite Ho in Hev; rewrite length_map in Hev; cbn [List.length] in Hev.
  lia.
Qed.

Lemma chain_counts (rest : list (string * string)) :
  turns rest ->
  List.length (filter _isNumber (flat_map (fun ob => [fst ob; snd ob]) rest))
  = List.length rest /\
  List.length (filter isOperator (flat_map (fun ob => [fst ob; snd ob]) rest))
  = List.length rest.
Proof.
  induction rest as [| [o b] rest IH]; intros Hturns;
    cbn [flat_map fst snd app filter List.length]; [split; reflexivity |].
  inversion Hturns as [| ? ? [Ho [Hne [Hd Hn]]] Hrest]; subst;
    cbn [fst snd] in *.
  rewrite (operator_not_number _ Ho), Ho, Hn.
  destruct (digits_not_symbol b Hne Hd) as [-> _]; cbn [List.length].
  destruct (IH Hrest) as [-> ->]; split; reflexivity.
Qed.

(** X27: [calculate] returns only for an expression whose tokens hold
    exactly one more number than operators.  Hence no sign is read: an
    expression that starts with an operator and goes on with numerals
    and operators in turn, such as [-5+3], never evaluates. *)
Theorem calculate_needs_one_more_number_than_operators
  (s : string) (r : number) :
  CalculationEngine.calculate (VString s) = Return r ->
  List.length (filter _isNumber (_tokenizeExpression s))
  = S (List.length (filter isOperator (_tokenizeExpression s))) /\
  forall o a rest,
    isOperator o = true -> numeral a -> turns rest ->
    s <> o ++ a ++ chain rest.
Proof.
  intros Hr; split; [apply (returns_counts s r Hr) |].
  intros o a rest Ho Ha Hturns ->; apply returns_counts in Hr; revert Hr.
  destruct (operator_char o Ho) as [c [-> [Hc [Hs _]]]].
  unfold _tokenizeExpression; cbn [append].
  rewrite (tokenizeLoop_symbol c _ [] Hc Hs); cbn [app].
  rewrite (tokenizeLoop_chain rest a _ Ha Hturns); cbn [app filter].
  destruct Ha as [Hne [Hd Hn]].
  rewrite (operator_not_number _ Ho), Ho, Hn.
  destruct (digits_not_symbol a Hne Hd) as [-> _]; cbn [List.length].
  destruct (chain_counts rest Hturns) as [-> ->]; intros H; lia.
Qed.

Lemma calculate_needs_one_more_number_than_operators_witness :
  List.length (filter _isNumber (_tokenizeExpression "2*(3+4)")) = 3%nat /\
  List.length (filter isOperator (_tokenizeExpression "2*(3+4)")) = 2%nat.
Proof.
  assert (H : CalculationEngine.calculate (VString "2*(3+4)") = Return (ofZ 14))
    by (vm_compute; reflexivity).
  destruct (calculate_needs_one_more_number_than_operators _ _ H) as [Hc _].
  split; [rewrite Hc |]; vm_compute; reflexivity.
Defined.

(** ** A negative result as the left operand *)

Lemma allChars_skipDigits (f : ascii -> bool) (s : string) :
  (forall c, isDigitChar c = true -> f c = true) ->
  allChars f s = allChars f (skipDigits s).
Proof.
  intros Hf; induction s as [| c r IH]; cbn [skipDigits]; [reflexivity |].
  destruct (isDigitChar c) eqn:Hc; [| reflexivity].
  cbn [allChars]; rewrite (Hf c Hc); exact IH.
Qed.

Lemma digit_digitOrDot (c : ascii) : isDigitChar c = true -> digitOrDot c = true.
Proof. intros H; unfold digitOrDot, _isDigit; rewrite H; reflexivity. Qed.

Lemma digit_valid (c : ascii) : isDigitChar c = true -> validChar c = true.
Proof. intros H; apply digitOrDot_valid, digit_digitOrDot, H. Qed.

Lemma exponentPart_cases (t : string) :
  isExponentPart t = true -> t = "" \/ allChars validChar t = false.
Proof.
  intros H; destruct t as [| c r]; [left; reflexivity | right].
  cbn [isExponentPart] in H; apply andb_true_iff in H; destruct H as [Hc _].
  cbn [allChars].
  apply orb_true_iff in Hc; destruct Hc as [Hc | Hc];
    apply Ascii.eqb_eq in Hc; subst; reflexivity.
Qed.

Lemma digits_then_exponent (r : string) :
  isExponentPart (skipDigits r) = true ->
  allChars digitOrDot r = true \/ allChars validChar r = false.
Proof.
  intros H; destruct (exponentPart_cases _ H) as [He | He].
  - left; rewrite (allChars_skipDigits _ r digit_digitOrDot), He; reflexivity.
  - right; rewrite (allChars_skipDigits _ r digit_valid); exact He.
Qed.

Lemma unsignedLiteral_cases (s : string) :
  isUnsignedLiteral s = true ->
  allChars digitOrDot s = true \/ allChars validChar s = false.
Proof.
  unfold isUnsignedLiteral; intros H; apply orb_true_iff in H.
  destruct H as [H | H]; [apply String.eqb_eq in H; subst; right; reflexivity |].
  destruct s as [| c r]; [discriminate H |].
  destruct (Ascii.eqb_spec c ".") as [-> | Hdot].
  - apply andb_true_iff in H; destruct H as [_ H].
    destruct (digits_then_exponent r H) as [Hr | Hr];
      [left | right]; cbn [allChars]; rewrite Hr; reflexivity.
  - apply andb_true_iff in H; destruct H as [Hc H].
    assert (Hcases : allChars digitOrDot (skipDigits r) = true \/
                     allChars validChar (skipDigits r) = false).
    { unfold afterDigits in H.
      destruct (skipDigits r) as [| d t] eqn:Hs; [left; reflexivity |].
      destruct (Ascii.eqb_spec d ".") as [-> | Hd].
      - destruct (digits_then_exponent t H) as [Ht | Ht];
          [left | right]; cbn [allChars]; rewrite Ht; reflexivity.
      - right; destruct (exponentPart_cases _ H) as [He | He];
          [discriminate He | exact He]. }
    destruct Hcases as [Hr | Hr]; [left | right]; cbn [allChars].
    + rewrite (digit_digitOrDot c Hc).
      rewrite (allChars_skipDigits _ r digit_digitOrDot); exact Hr.
    + rewrite (allChars_skipDigits _ r digit_valid), Hr.
      apply andb_false_r.
Qed.

Lemma negative_toString (r : number) :
  num_ltb r zero = true ->
  exists p, Number_toString r = "-" ++ p /\ p <> "" /\
            (allChars digitOrDot p = true \/ allChars validChar p = false).
Proof.
  destruct r as [s | s | | s m e]; try discriminate.
  - destruct s; [| discriminate]; intros _.
    exists "Infinity"; split; [reflexivity | split; [discriminate |]].
    right; reflexivity.
  - destruct s; [| discriminate]; intros _.
    destruct (positiveToString_literal m e) as [Hd [Hl _]].
    exists (positiveToString m e); split; [reflexivity |].
    split; [intros H; rewrite H in Hd; discriminate Hd |].
    apply unsignedLiteral_cases, Hl.
Qed.

Lemma fractionOK_digitOrDot (s : string) :
  fractionOK s = true -> allChars digitOrDot s = true.
Proof.
  induction s as [| c r IH]; cbn [fractionOK allChars]; [reflexivity |].
  destruct (isDigitChar c) eqn:Hc.
  - intros H; rewrite (digit_digitOrDot c Hc), (IH H); reflexivity.
  - intros H; apply andb_true_iff in H; destruct H as [Hdot Hr].
    apply Ascii.eqb_eq in Hdot; subst; cbn.
    apply (allChars_impl _ _ _ digit_digitOrDot Hr).
Qed.

Lemma typable_digits (b : string) :
  typable b = true -> b <> "" /\ allChars digitOrDot b = true.
Proof.
  intros H; split; [apply typable_nonempty, H |].
  unfold typable, typedLiteral in H.
  apply andb_true_iff in H; destruct H as [H _].
  apply andb_true_iff in H; destruct H as [H _].
  apply andb_true_iff in H; destruct H as [_ H].
  apply fractionOK_digitOrDot, H.
Qed.

Lemma signed_left_operand_throws (p op b : string) :
  p <> "" -> allChars digitOrDot p = true \/ allChars validChar p = false ->
  isOperator op = true -> b <> "" -> allChars digitOrDot b = true ->
  exists e, CalculationEngine.calculate (VString (("-" ++ p) ++ op ++ b))
            = Throw e.
Proof.
  intros Hp Hcases Ho Hb Hdb.
  destruct (CalculationEngine.calculate (VString (("-" ++ p) ++ op ++ b)))
    as [r | e] eqn:Hr; [exfalso | exists e; reflexivity].
  destruct Hcases as [Hdp | Hinv].
  - apply returns_counts in Hr; revert Hr.
    destruct (operator_char op Ho) as [c [-> [Hc [Hs _]]]].
    unfold _tokenizeExpression; cbn [append].
    rewrite (tokenizeLoop_symbol "-" _ []) by reflexivity.
    rewrite (tokenizeLoop_numeral_symbol p c _ _ Hp Hdp Hc Hs).
    rewrite (tokenizeLoop_last b _ Hb Hdb); cbn [app filter].
    change (_isNumber "-") with false; change (isOperator "-") with true.
    rewrite (operator_not_number _ Ho), Ho.
    destruct (digits_not_symbol p Hp Hdp) as [-> _].
    destruct (digits_not_symbol b Hb Hdb) as [-> _].
    destruct (_isNumber p); destruct (_isNumber b); discriminate.
  - unfold CalculationEngine.calculate in Hr.
    destruct (_validateExpression _) as [s' | e] eqn:Hv; [| discriminate Hr].
    apply validate_returns in Hv; destruct Hv as [Hv [_ [Hall _]]].
    injection Hv as <-; cbn [append allChars] in Hall.
    rewrite allChars_append, Hinv in Hall; discriminate Hall.
Qed.

(** X28: a negative result cannot be the left operand of a further
    operation.  With a result below zero on the display, an operator, a
    typed operand and equals always end in the error sentinel: the
    engine reads no sign, and the string form of the result starts with
    one. *)
Theorem negative_result_cannot_be_chained
  (r : number) (op b now1 now2 : string) (st : CalculatorState) :
  currentInput st = Number_toString r -> num_ltb r zero = true ->
  shouldResetDisplay st = true ->
  isOperator op = true -> typable b = true ->
  getDisplayValue
    (run (ApplyOperator op now1 :: keys b ++ [Calculate now2]) st)
  = ERROR_MESSAGE /\
  getHistory (run (ApplyOperator op now1 :: keys b ++ [Calculate now2]) st)
  = getHistory st.
Proof.
  intros Hcur Hneg Hreset Hop Hb.
  destruct (negative_toString r Hneg) as [p [Hp [Hpne Hcases]]].
  destruct (typable_digits b Hb) as [Hbne Hbd].
  destruct (signed_left_operand_throws p op b Hpne Hcases Hop Hbne Hbd)
    as [e He].
  cbn [run fold_left step]; fold (run (keys b ++ [Calculate now2])).
  unfold applyOperator; rewrite Hreset, andb_false_r; cbn [fst].
  rewrite run_app, typing_fresh by (trivial; right; reflexivity).
  cbn [run fold_left step previousInput operator history lastCalculation].
  unfold calculate, expressionOf.
  cbn [operator previousInput currentInput noOperator operatorText history
       lastCalculation].
  replace (op =? "")%string with false
    by (symmetry; apply String.eqb_neq; intros ->; discriminate Hop).
  rewrite Hcur, Hp.
  replace ("-" ++ p =? "")%string with false by reflexivity.
  cbn [orb]; rewrite He; split; reflexivity.
Qed.

Lemma negative_result_cannot_be_chained_witness :
  getDisplayValue (run three_minus_eight reset) = "-5" /\
  getDisplayValue
    (run (ApplyOperator "+" "t3" :: keys "3" ++ [Calculate "t4"])
         (run three_minus_eight reset))
  = ERROR_MESSAGE.
Proof.
  split; [vm_compute; reflexivity |].
  apply (negative_result_cannot_be_chained (ofZ (-5)) "+" "3" "t3" "t4"
           (run three_minus_eight reset));
    vm_compute; reflexivity.
Defined.
